(** * XML to CSV converter for bus data: a shallow embedding of
      [xmltocsv.py] (class [XMLToBusCSVConverter]) and its properties.

    Conventions of the embedding.
    - A Python [str] is a [string] holding its UTF-8 encoding.  Python
      compares strings by code point; on the UTF-8 encoding this is the
      byte-wise lexicographic order of [String.compare].  The characters
      the code looks for (['}'], ['/'], ['.'], the CSV specials) are ASCII,
      and an ASCII byte of a UTF-8 text is always a character of its own.
    - An [xml.etree.ElementTree] element is an [Element]: tag, attributes in
      document order, optional text, children in document order.
    - A Python [dict] is an association list in insertion order; assignment
      to an existing key replaces the value in place, as in Python.
    - The [set] [self.field_names] is a duplicate-free list; the order in
      which Python enumerates a set is unspecified, so every statement
      about [list(self.field_names)] is made for an arbitrary enumeration.
    - Each [print] call appends one entry to the log of the run.
    - The interpreter is an [Interpreter]: the Python frames that are left
      before [RecursionError], and the current directory.  The recursive
      flatteners are given twice: as the source reads on a stack that never
      runs out ([_flatten_element], [_flatten_nested_records], ...), and
      with the frames that are left ([_flatten_element_in], ...), which is
      what [process_xml_file] runs. *)

From Stdlib Require Import List String Ascii Bool Arith NArith Lia.
From Stdlib Require Import Permutation Sorted DecimalString.
Import ListNotations.
Set Warnings "-register-all".
Open Scope list_scope.
Open Scope string_scope.

(* ================================================================== *)
(** ** Python strings *)

Module PyStr.

(** [bool(s)]: a string is truthy when it is not empty. *)
Definition truthy (s : string) : bool :=
  match s with EmptyString => false | String _ _ => true end.

(** [c in s] for a one-character needle. *)
Fixpoint contains_char (c : ascii) (s : string) : bool :=
  match s with
  | EmptyString => false
  | String d s' => if Ascii.eqb d c then true else contains_char c s'
  end.

(** [s.split(c)] for a one-character separator: never empty, and of length
    one exactly when [c] does not occur in [s]. *)
Fixpoint split (c : ascii) (s : string) : list string :=
  match s with
  | EmptyString => [EmptyString]
  | String d s' =>
      if Ascii.eqb d c then EmptyString :: split c s'
      else match split c s' with
           | [] => [String d EmptyString]
           | h :: t => String d h :: t
           end
  end.

(** Whitespace as [str.isspace] sees it, on the UTF-8 encoding.
    One byte: TAB, LF, VT, FF, CR, FS, GS, RS, US and SPACE. *)
Definition space1 (c : ascii) : bool :=
  let n := nat_of_ascii c in
  (((9 <=? n) && (n <=? 13)) || ((28 <=? n) && (n <=? 32)))%nat.

(** Two bytes: U+0085 (C2 85) and U+00A0 (C2 A0). *)
Definition space2 (c1 c2 : ascii) : bool :=
  let n1 := nat_of_ascii c1 in
  let n2 := nat_of_ascii c2 in
  ((n1 =? 194) && ((n2 =? 133) || (n2 =? 160)))%nat.

(** Three bytes: U+1680 (E1 9A 80), U+2000 to U+200A (E2 80 80 to E2 80 8A),
    U+2028, U+2029, U+202F (E2 80 A8, A9, AF), U+205F (E2 81 9F) and
    U+3000 (E3 80 80). *)
Definition space3 (c1 c2 c3 : ascii) : bool :=
  let n1 := nat_of_ascii c1 in
  let n2 := nat_of_ascii c2 in
  let n3 := nat_of_ascii c3 in
  (((n1 =? 225) && (n2 =? 154) && (n3 =? 128))
   || ((n1 =? 226) && (n2 =? 128)
       && (((128 <=? n3) && (n3 <=? 138)) || (n3 =? 168) || (n3 =? 169) || (n3 =? 175)))
   || ((n1 =? 226) && (n2 =? 129) && (n3 =? 159))
   || ((n1 =? 227) && (n2 =? 128) && (n3 =? 128)))%nat.

(** [s.lstrip()]: whitespace characters are removed from the front, one
    character (of one, two or three bytes) at a time. *)
Fixpoint lstrip (s : string) : string :=
  match s with
  | EmptyString => EmptyString
  | String c1 s1 =>
      if space1 c1 then lstrip s1
      else match s1 with
           | EmptyString => s
           | String c2 s2 =>
               if space2 c1 c2 then lstrip s2
               else match s2 with
                    | EmptyString => s
                    | String c3 s3 => if space3 c1 c2 c3 then lstrip s3 else s
                    end
           end
  end.

(** [s.rstrip()]: the text is cut where only whitespace is left.  (A
    continuation byte never starts a whitespace character, so the cut
    falls between two characters.) *)
Fixpoint rstrip (s : string) : string :=
  match s with
  | EmptyString => EmptyString
  | String c s' =>
      match lstrip s with
      | EmptyString => EmptyString
      | String _ _ => String c (rstrip s')
      end
  end.

(** [s.strip()] *)
Definition strip (s : string) : string := rstrip (lstrip s).

(** [needle in s] for strings. *)
Fixpoint contains (needle s : string) : bool :=
  if String.prefix needle s then true
  else match s with
       | EmptyString => false
       | String _ s' => contains needle s'
       end.

(** [str(n)] for a natural number, as an f-string prints [len(...)]. *)
Definition of_nat (n : nat) : string := NilEmpty.string_of_uint (Nat.to_uint n).

(** [c * n] *)
Fixpoint repeat_char (c : ascii) (n : nat) : string :=
  match n with O => EmptyString | S k => String c (repeat_char c k) end.

Definition nl : string := String "010"%char EmptyString.

End PyStr.

(* ================================================================== *)
(** ** ElementTree elements *)

Inductive Element : Type :=
  Elem (tag : string) (attrib : list (string * string))
       (text : option string) (children : list Element).

Definition tag (e : Element) : string := let 'Elem t _ _ _ := e in t.
Definition attrib (e : Element) : list (string * string) := let 'Elem _ a _ _ := e in a.
Definition text (e : Element) : option string := let 'Elem _ _ x _ := e in x.
Definition children (e : Element) : list Element := let 'Elem _ _ _ c := e in c.

(** Induction over elements with the induction hypothesis for every child. *)
Section ElementInd.
Variable P : Element -> Prop.
Hypothesis step : forall t a x cs, Forall P cs -> P (Elem t a x cs).

Fixpoint Element_forall_ind (e : Element) : P e :=
  match e with
  | Elem t a x cs =>
      step t a x cs
        ((fix go (l : list Element) : Forall P l :=
            match l with
            | [] => Forall_nil P
            | c :: l' => Forall_cons c (Element_forall_ind c) (go l')
            end) cs)
  end.
End ElementInd.

(** [element.text and element.text.strip()]: the stripped text when the text
    is present, non-empty and not blank. *)
Definition text_content (e : Element) : option string :=
  match text e with
  | None => None
  | Some t =>
      if PyStr.truthy t then
        if PyStr.truthy (PyStr.strip t) then Some (PyStr.strip t) else None
      else None
  end.

(* ================================================================== *)
(** ** Dictionaries and the field-name set *)

Definition Row : Type := list (string * string).

Definition keys (r : Row) : list string := map fst r.

Fixpoint inb (k : string) (l : list string) : bool :=
  match l with
  | [] => false
  | x :: l' => if String.eqb x k then true else inb k l'
  end.

(** [r[k] = v] *)
Fixpoint dict_set (r : Row) (k v : string) : Row :=
  match r with
  | [] => [(k, v)]
  | (k', v') :: r' =>
      if String.eqb k' k then (k', v) :: r' else (k', v') :: dict_set r' k v
  end.

(** [r.get(k, default)] *)
Fixpoint dict_get (r : Row) (k default : string) : string :=
  match r with
  | [] => default
  | (k', v') :: r' => if String.eqb k' k then v' else dict_get r' k default
  end.

(** [s.add(k)] on a set kept as a duplicate-free list. *)
Definition set_add (s : list string) (k : string) : list string :=
  if inb k s then s else (s ++ [k])%list.

(* ================================================================== *)
(** ** The converter *)

(** [_strip_namespace]: [tag.split('}')[1]] when ['}'] occurs in the tag.
    The split then has at least two parts ([split_two_parts] below), so the
    index never fails; the last arm is unreachable. *)
Definition _strip_namespace (tag : string) : string :=
  if PyStr.contains_char "}"%char tag then
    match PyStr.split "}"%char tag with
    | _ :: local :: _ => local
    | _ => tag
    end
  else tag.

(** [_get_element_path] *)
Definition _get_element_path (element : Element) (parent_path : string) : string :=
  let tag_clean := _strip_namespace (tag element) in
  if PyStr.truthy parent_path then parent_path ++ "." ++ tag_clean else tag_clean.

(** The attributes of the converter object ([self]) that the engine uses,
    and the log of everything it has printed. *)
Record Converter : Type := mkConverter {
  xml_folder : string;
  extracted_data : list Row;
  field_names : list string;
  source_files : list string;
  log : list string
}.

(** What the program gets from the interpreter.  [frames] is the number
    of Python frames that can still be entered from the body of
    [process_xml_file] before [RecursionError] is raised (the recursion
    limit, 1000 by default, less the frames in use there).  Every call of a
    method of the class takes one frame while it runs; built-in functions
    and methods take none, and the calls into the standard library
    ([Path], [findall]), made at the top levels only, are taken to fit.
    [cwd] is [os.getcwd()]. *)
Record Interpreter : Type := mkInterpreter {
  frames : nat;
  cwd : string
}.

(** [__init__]: [xml_folder or os.getcwd()] (the empty string stands for
    [None] too), and [field_names] starts as [{'source_file'}]. *)
Definition init (env : Interpreter) (folder : string) : Converter :=
  {| xml_folder := if PyStr.truthy folder then folder else cwd env;
     extracted_data := [];
     field_names := ["source_file"]; source_files := []; log := [] |}.

(** [self.field_names.add(key)] *)
Definition add_field (self : Converter) (key : string) : Converter :=
  {| xml_folder := xml_folder self; extracted_data := extracted_data self;
     field_names := set_add (field_names self) key;
     source_files := source_files self; log := log self |}.

(** [print(line)] *)
Definition print (self : Converter) (line : string) : Converter :=
  {| xml_folder := xml_folder self; extracted_data := extracted_data self;
     field_names := field_names self;
     source_files := source_files self; log := (log self ++ [line])%list |}.

(** The two blocks "Add attributes" and "Add text content" of
    [_flatten_nested_records]: keys are [<tag>.@<attr>] and [<tag>.value]. *)
Definition add_attributes_dotted (element : Element) (st : Row * Converter)
  : Row * Converter :=
  fold_left
    (fun (acc : Row * Converter) (a : string * string) =>
       let attr_name_clean := _strip_namespace (fst a) in
       let key := _strip_namespace (tag element) ++ ".@" ++ attr_name_clean in
       (dict_set (fst acc) key (snd a), add_field (snd acc) key))
    (attrib element) st.

Definition add_text_dotted (element : Element) (st : Row * Converter)
  : Row * Converter :=
  match text_content element with
  | Some stripped =>
      let key := _strip_namespace (tag element) ++ ".value" in
      (dict_set (fst st) key stripped, add_field (snd st) key)
  | None => st
  end.

(** The loop [for child in children: records.extend(rec(child, current_path,
    current_data))], for a recursive call [rec]. *)
Section EachChild.
Variable rec : Element -> string -> Row -> Converter -> list Row * Converter.
Variables (current_path : string) (current_data : Row).

Fixpoint extend_each_child (cs : list Element) (records : list Row)
    (self : Converter) : list Row * Converter :=
  match cs with
  | [] => (records, self)
  | child :: cs' =>
      let '(child_records, self) := rec child current_path current_data self in
      extend_each_child cs' (records ++ child_records)%list self
  end.
End EachChild.

(** [_flatten_nested_records] (the generic fallback flatten).  The dictionary
    [current_data] is a copy of [parent_data], so every call owns its row. *)
Fixpoint _flatten_nested_records (element : Element) (parent_path : string)
    (parent_data : Row) (self : Converter) {struct element}
  : list Row * Converter :=
  let current_path := _get_element_path element parent_path in
  let '(current_data, self) :=
    add_text_dotted element (add_attributes_dotted element (parent_data, self)) in
  match children element with
  | [] =>
      match current_data with
      | [] => ([], self)
      | _ :: _ => ([current_data], self)
      end
  | _ :: _ =>
      let child_tags := map tag (children element) in
      let same_tag := (List.length (nodup string_dec child_tags) =? 1)%nat in
      if same_tag && (1 <? List.length (children element))%nat then
        extend_each_child _flatten_nested_records current_path current_data
          (children element) [] self
      else
        extend_each_child _flatten_nested_records current_path current_data
          (children element) [] self
  end.

(** The same function with the collection check removed: what the claim
    about the two branches compares [_flatten_nested_records] with. *)
Fixpoint flatten_without_collection_check (element : Element) (parent_path : string)
    (parent_data : Row) (self : Converter) {struct element}
  : list Row * Converter :=
  let current_path := _get_element_path element parent_path in
  let '(current_data, self) :=
    add_text_dotted element (add_attributes_dotted element (parent_data, self)) in
  match children element with
  | [] =>
      match current_data with
      | [] => ([], self)
      | _ :: _ => ([current_data], self)
      end
  | _ :: _ =>
      extend_each_child flatten_without_collection_check current_path current_data
        (children element) [] self
  end.

(** The key under which [_flatten_element] stores an attribute or the text
    of an element reached with [prefix]; [suffix] is [_@<attr>] or empty. *)
Definition flat_key (prefix : string) (element : Element) (suffix : string) : string :=
  if PyStr.truthy prefix
  then prefix ++ _strip_namespace (tag element) ++ suffix
  else _strip_namespace (tag element) ++ suffix.

(** The blocks "Add attributes" and "Add text content" of [_flatten_element]. *)
Definition add_attributes_flat (element : Element) (prefix : string)
    (st : Row * Converter) : Row * Converter :=
  fold_left
    (fun (acc : Row * Converter) (a : string * string) =>
       let attr_name_clean := _strip_namespace (fst a) in
       let key := flat_key prefix element ("_@" ++ attr_name_clean) in
       (dict_set (fst acc) key (snd a), add_field (snd acc) key))
    (attrib element) st.

Definition add_text_flat (element : Element) (prefix : string)
    (st : Row * Converter) : Row * Converter :=
  match text_content element with
  | Some stripped =>
      let key := flat_key prefix element EmptyString in
      (dict_set (fst st) key stripped, add_field (snd st) key)
  | None => st
  end.

(** The loop [for child in element: rec(child, record, new_prefix)]. *)
Section EachChildFlat.
Variable rec : Element -> string -> Row * Converter -> Row * Converter.
Variable new_prefix : string.

Fixpoint flatten_each_child (cs : list Element) (st : Row * Converter)
  : Row * Converter :=
  match cs with
  | [] => st
  | child :: cs' => flatten_each_child cs' (rec child new_prefix st)
  end.
End EachChildFlat.

(** [_flatten_element]: flattens [element] and its subtree into [record],
    registering every key it writes.  The pair [st] is the mutable
    [record] and [self]. *)
Fixpoint _flatten_element (element : Element) (prefix : string)
    (st : Row * Converter) {struct element} : Row * Converter :=
  let st := add_text_flat element prefix (add_attributes_flat element prefix st) in
  let new_prefix := flat_key prefix element "_" in
  flatten_each_child _flatten_element new_prefix (children element) st.

(** [Path(filepath).name]: the last component of a POSIX path. *)
Definition Path_name (filepath : string) : string :=
  last (PyStr.split "/"%char filepath) EmptyString.

(** [_element_to_record]: the record, or [{}] when it holds nothing beyond
    the file name. *)
Definition _element_to_record (element : Element) (filepath : string)
    (self : Converter) : Row * Converter :=
  let record := [("source_file", Path_name filepath)] in
  let '(record, self) := _flatten_element element EmptyString (record, self) in
  (if (1 <? List.length record)%nat then record else [], self).

(* ------------------------------------------------------------------ *)
(** *** The flatteners with the frames that are left *)

(** A call either returns a value, or [RecursionError] leaves it; in both
    cases [self] is as the call left it. *)
Inductive Outcome (A : Type) : Type :=
| Ok (value : A) (self : Converter)
| RecursionError (self : Converter).
Arguments Ok {A} value self.
Arguments RecursionError {A} self.

(** [str(e)] for the [RecursionError] of a call to a Python function. *)
Definition recursion_message : string := "maximum recursion depth exceeded".

(** The loop [for child in element: rec(child, record, new_prefix)]; the
    exception of a call ends the loop. *)
Section EachChildFlatIn.
Variable rec : Element -> string -> Row * Converter -> Outcome Row.
Variable new_prefix : string.

Fixpoint flatten_each_child_in (cs : list Element) (st : Row * Converter)
  : Outcome Row :=
  match cs with
  | [] => Ok (fst st) (snd st)
  | child :: cs' =>
      match rec child new_prefix st with
      | Ok record self => flatten_each_child_in cs' (record, self)
      | RecursionError self => RecursionError self
      end
  end.
End EachChildFlatIn.

(** [_flatten_element] called when [frames] frames are left.  The call
    takes one.  With none left inside, the first call of
    [self._strip_namespace] (in the attribute loop, for the text key or for
    [new_prefix]) raises before anything is written; an element without
    attributes, text and children makes no such call.  Otherwise the
    attributes and the text are written and each child is flattened with
    the frames left inside. *)
Fixpoint _flatten_element_in (frames : nat) (element : Element) (prefix : string)
    (st : Row * Converter) {struct element} : Outcome Row :=
  match frames with
  | O => RecursionError (snd st)
  | S inside =>
      match inside with
      | O =>
          match attrib element, text_content element, children element with
          | [], None, [] => Ok (fst st) (snd st)
          | _, _, _ => RecursionError (snd st)
          end
      | S _ =>
          let st := add_text_flat element prefix (add_attributes_flat element prefix st) in
          let new_prefix := flat_key prefix element "_" in
          flatten_each_child_in (_flatten_element_in inside) new_prefix
            (children element) st
      end
  end.

(** [_element_to_record] called when [frames] frames are left. *)
Definition _element_to_record_in (frames : nat) (element : Element)
    (filepath : string) (self : Converter) : Outcome Row :=
  match frames with
  | O => RecursionError self
  | S inside =>
      let record := [("source_file", Path_name filepath)] in
      match _flatten_element_in inside element EmptyString (record, self) with
      | Ok record self =>
          Ok (if (1 <? List.length record)%nat then record else []) self
      | RecursionError self => RecursionError self
      end
  end.

(** The loop [for child in children: records.extend(rec(child, ...))]; the
    exception of a call ends the loop. *)
Section EachChildIn.
Variable rec : Element -> string -> Row -> Converter -> Outcome (list Row).
Variables (current_path : string) (current_data : Row).

Fixpoint extend_each_child_in (cs : list Element) (records : list Row)
    (self : Converter) : Outcome (list Row) :=
  match cs with
  | [] => Ok records self
  | child :: cs' =>
      match rec child current_path current_data self with
      | Ok child_records self =>
          extend_each_child_in cs' (records ++ child_records)%list self
      | RecursionError self => RecursionError self
      end
  end.
End EachChildIn.

(** [_flatten_nested_records] called when [frames] frames are left.  The
    call takes one, and its first statement calls [self._get_element_path],
    which calls [self._strip_namespace]: with fewer than two frames left
    inside, the exception is raised before anything is written. *)
Fixpoint _flatten_nested_records_in (frames : nat) (element : Element)
    (parent_path : string) (parent_data : Row) (self : Converter) {struct element}
  : Outcome (list Row) :=
  match frames with
  | S (S (S _) as inside) =>
      let current_path := _get_element_path element parent_path in
      let '(current_data, self) :=
        add_text_dotted element (add_attributes_dotted element (parent_data, self)) in
      match children element with
      | [] =>
          match current_data with
          | [] => Ok [] self
          | _ :: _ => Ok [current_data] self
          end
      | _ :: _ =>
          let child_tags := map tag (children element) in
          let same_tag := (List.length (nodup string_dec child_tags) =? 1)%nat in
          if same_tag && (1 <? List.length (children element))%nat then
            extend_each_child_in (_flatten_nested_records_in inside) current_path
              current_data (children element) [] self
          else
            extend_each_child_in (_flatten_nested_records_in inside) current_path
              current_data (children element) [] self
      end
  | _ => RecursionError self
  end.

(** [element.iter()]: the element and its descendants in document order. *)
Fixpoint iter (element : Element) : list Element :=
  element :: flat_map iter (children element).

(** [root.findall(".//" + pattern)]: the proper descendants of [root] whose
    tag is exactly [pattern], in document order. *)
Definition findall_descendants (pattern : string) (root : Element) : list Element :=
  filter (fun e => String.eqb (tag e) pattern) (flat_map iter (children root)).

(** A function body either returns from inside a loop or falls through to
    the next statement with its local [records]. *)
Inductive Flow : Type :=
| Returned (records : list Row)
| Fallthrough (records : list Row).

(** The loop [for elem in elements: record = ...; if record: records.append(record)]
    shared by the three strategies. *)
Fixpoint collect_records (elements : list Element) (filepath : string)
    (records : list Row) (self : Converter) : list Row * Converter :=
  match elements with
  | [] => (records, self)
  | elem :: rest =>
      let '(record, self) := _element_to_record elem filepath self in
      let records :=
        match record with [] => records | _ :: _ => (records ++ [record])%list end in
      collect_records rest filepath records self
  end.

Definition journey_patterns : list string :=
  ["Journey"; "Leg"; "Segment"; "Connection"; "Route"; "Stop"; "Station"; "Transit"].

(** [len(set(tags)) == 1 and len(elems) > 1] *)
Definition is_collection (elems : list Element) : bool :=
  (List.length (nodup string_dec (map tag elems)) =? 1)%nat
  && (1 <? List.length elems)%nat.

(** Strategy 1 of [_extract_records_smart]: the loop over [journey_patterns]. *)
Fixpoint strategy1 (patterns : list string) (root : Element) (filepath : string)
    (records : list Row) (self : Converter) : Flow * Converter :=
  match patterns with
  | [] => (Fallthrough records, self)
  | pattern :: rest =>
      let elements := findall_descendants pattern root in
      match elements with
      | _ :: _ =>
          if (1 <? List.length elements)%nat then
            let self := print self ("  → Found " ++ PyStr.of_nat (List.length elements)
                                      ++ " '" ++ pattern ++ "' elements") in
            let '(records, self) := collect_records elements filepath records self in
            match records with
            | _ :: _ => (Returned records, self)
            | [] => strategy1 rest root filepath records self
            end
          else strategy1 rest root filepath records self
      | [] => strategy1 rest root filepath records self
      end
  end.

(** Strategy 2: the loop over the root's children. *)
Fixpoint strategy2 (cs : list Element) (filepath : string)
    (records : list Row) (self : Converter) : Flow * Converter :=
  match cs with
  | [] => (Fallthrough records, self)
  | child :: rest =>
      let grandchildren := children child in
      match grandchildren with
      | first :: _ =>
          if is_collection grandchildren then
            let self := print self ("  → Found collection of "
                                      ++ PyStr.of_nat (List.length grandchildren)
                                      ++ " '" ++ tag first ++ "' elements") in
            let '(records, self) := collect_records grandchildren filepath records self in
            match records with
            | _ :: _ => (Returned records, self)
            | [] => strategy2 rest filepath records self
            end
          else strategy2 rest filepath records self
      | [] => strategy2 rest filepath records self
      end
  end.

(** Strategy 3: the root's own children; returns even when [records] is empty. *)
Definition strategy3 (root : Element) (filepath : string)
    (records : list Row) (self : Converter) : Flow * Converter :=
  match children root with
  | first :: _ =>
      if is_collection (children root) then
        let self := print self ("  → Found " ++ PyStr.of_nat (List.length (children root))
                                  ++ " root-level '" ++ tag first ++ "' elements") in
        let '(records, self) := collect_records (children root) filepath records self in
        (Returned records, self)
      else (Fallthrough records, self)
  | [] => (Fallthrough records, self)
  end.

(** [_extract_records_smart] *)
Definition _extract_records_smart (root : Element) (filepath : string)
    (self : Converter) : list Row * Converter :=
  match strategy1 journey_patterns root filepath [] self with
  | (Returned records, self) => (records, self)
  | (Fallthrough records, self) =>
      match strategy2 (children root) filepath records self with
      | (Returned records, self) => (records, self)
      | (Fallthrough records, self) =>
          match strategy3 root filepath records self with
          | (Returned records, self) => (records, self)
          | (Fallthrough records, self) => (records, self)
          end
      end
  end.

(** [collect_records], the strategies and [_extract_records_smart] with
    the frames that are left: [frames] counts from inside the body of
    [_extract_records_smart], where the three loops run. *)
Fixpoint collect_records_in (frames : nat) (elements : list Element)
    (filepath : string) (records : list Row) (self : Converter)
  : Outcome (list Row) :=
  match elements with
  | [] => Ok records self
  | elem :: rest =>
      match _element_to_record_in frames elem filepath self with
      | Ok record self =>
          let records :=
            match record with [] => records | _ :: _ => (records ++ [record])%list end in
          collect_records_in frames rest filepath records self
      | RecursionError self => RecursionError self
      end
  end.

Fixpoint strategy1_in (frames : nat) (patterns : list string) (root : Element)
    (filepath : string) (records : list Row) (self : Converter) : Outcome Flow :=
  match patterns with
  | [] => Ok (Fallthrough records) self
  | pattern :: rest =>
      let elements := findall_descendants pattern root in
      match elements with
      | _ :: _ =>
          if (1 <? List.length elements)%nat then
            let self := print self ("  → Found " ++ PyStr.of_nat (List.length elements)
                                      ++ " '" ++ pattern ++ "' elements") in
            match collect_records_in frames elements filepath records self with
            | Ok records self =>
                match records with
                | _ :: _ => Ok (Returned records) self
                | [] => strategy1_in frames rest root filepath records self
                end
            | RecursionError self => RecursionError self
            end
          else strategy1_in frames rest root filepath records self
      | [] => strategy1_in frames rest root filepath records self
      end
  end.

Fixpoint strategy2_in (frames : nat) (cs : list Element) (filepath : string)
    (records : list Row) (self : Converter) : Outcome Flow :=
  match cs with
  | [] => Ok (Fallthrough records) self
  | child :: rest =>
      let grandchildren := children child in
      match grandchildren with
      | first :: _ =>
          if is_collection grandchildren then
            let self := print self ("  → Found collection of "
                                      ++ PyStr.of_nat (List.length grandchildren)
                                      ++ " '" ++ tag first ++ "' elements") in
            match collect_records_in frames grandchildren filepath records self with
            | Ok records self =>
                match records with
                | _ :: _ => Ok (Returned records) self
                | [] => strategy2_in frames rest filepath records self
                end
            | RecursionError self => RecursionError self
            end
          else strategy2_in frames rest filepath records self
      | [] => strategy2_in frames rest filepath records self
      end
  end.

Definition strategy3_in (frames : nat) (root : Element) (filepath : string)
    (records : list Row) (self : Converter) : Outcome Flow :=
  match children root with
  | first :: _ =>
      if is_collection (children root) then
        let self := print self ("  → Found " ++ PyStr.of_nat (List.length (children root))
                                  ++ " root-level '" ++ tag first ++ "' elements") in
        match collect_records_in frames (children root) filepath records self with
        | Ok records self => Ok (Returned records) self
        | RecursionError self => RecursionError self
        end
      else Ok (Fallthrough records) self
  | [] => Ok (Fallthrough records) self
  end.

(** [_extract_records_smart] called when [frames] frames are left. *)
Definition _extract_records_smart_in (frames : nat) (root : Element)
    (filepath : string) (self : Converter) : Outcome (list Row) :=
  match frames with
  | O => RecursionError self
  | S inside =>
      match strategy1_in inside journey_patterns root filepath [] self with
      | RecursionError self => RecursionError self
      | Ok (Returned records) self => Ok records self
      | Ok (Fallthrough records) self =>
          match strategy2_in inside (children root) filepath records self with
          | RecursionError self => RecursionError self
          | Ok (Returned records) self => Ok records self
          | Ok (Fallthrough records) self =>
              match strategy3_in inside root filepath records self with
              | RecursionError self => RecursionError self
              | Ok (Returned records) self => Ok records self
              | Ok (Fallthrough records) self => Ok records self
              end
          end
      end
  end.

(** Lines 173-179 of [process_xml_file]: the smart strategies, then the
    fallback when they gave nothing; on a stack that never runs out, and
    with the frames that are left. *)
Definition extract_records (root : Element) (filepath : string) (self : Converter)
  : list Row * Converter :=
  let '(records, self) := _extract_records_smart root filepath self in
  match records with
  | [] =>
      let self := print self "  → Using fallback extraction strategy..." in
      _flatten_nested_records root EmptyString [] self
  | _ :: _ => (records, self)
  end.

Definition extract_records_in (frames : nat) (root : Element) (filepath : string)
    (self : Converter) : Outcome (list Row) :=
  match _extract_records_smart_in frames root filepath self with
  | Ok [] self =>
      let self := print self "  → Using fallback extraction strategy..." in
      _flatten_nested_records_in frames root EmptyString [] self
  | Ok (record :: records) self => Ok (record :: records) self
  | RecursionError self => RecursionError self
  end.

(** What [ET.parse(filepath)] does with a source file: it yields the root of
    the parsed tree, raises [ET.ParseError] (whose text [msg] is the
    parser's message), or raises another exception (an unreadable file). *)
Inductive ParseOutcome : Type :=
| Parsed (root : Element)
| ParseError (msg : string)
| OtherError (msg : string).

Record SourceFile : Type := mkSourceFile {
  filepath : string;
  parse : ParseOutcome
}.

(** [if 'source_file' not in record: record['source_file'] = filename] *)
Definition ensure_source_file (filename : string) (record : Row) : Row :=
  if inb "source_file" (keys record) then record
  else dict_set record "source_file" filename.

Definition banner : string := PyStr.repeat_char "="%char 70.

(** [process_xml_file]: the records of one file and their count.  A
    [RecursionError] raised during the extraction is caught by
    [except Exception], like any other exception: the records are lost,
    what had been registered and printed stays. *)
Definition process_xml_file (env : Interpreter) (f : SourceFile) (self : Converter)
  : (list Row * nat) * Converter :=
  match parse f with
  | Parsed root =>
      let filename := Path_name (filepath f) in
      let self := print self (PyStr.nl ++ banner) in
      let self := print self ("Processing: " ++ filename) in
      let self := print self ("Root element: " ++ tag root) in
      let self := print self banner in
      match extract_records_in (frames env) root (filepath f) self with
      | Ok records self =>
          let records := map (ensure_source_file filename) records in
          let self := print self ("  ✓ Extracted " ++ PyStr.of_nat (List.length records)
                                    ++ " records") in
          ((records, List.length records), self)
      | RecursionError self =>
          let self := print self ("  ✗ Unexpected error: " ++ recursion_message) in
          (([], 0%nat), self)
      end
  | ParseError e =>
      let self := print self ("  ✗ Error parsing XML: " ++ e) in
      (([], 0%nat), self)
  | OtherError e =>
      let self := print self ("  ✗ Unexpected error: " ++ e) in
      (([], 0%nat), self)
  end.

(** [self.extracted_data.extend(records)] *)
Definition extend_data (self : Converter) (records : list Row) : Converter :=
  {| xml_folder := xml_folder self;
     extracted_data := (extracted_data self ++ records)%list;
     field_names := field_names self;
     source_files := source_files self; log := log self |}.

(** [find_xml_files]: the enumeration of the folder is the input [files]. *)
Definition find_xml_files (files : list SourceFile) (self : Converter) : Converter :=
  {| xml_folder := xml_folder self; extracted_data := extracted_data self;
     field_names := field_names self;
     source_files := map filepath files; log := log self |}.

(** The loop of [process_all_files]. *)
Fixpoint process_each (env : Interpreter) (files : list SourceFile)
    (total_records : nat) (self : Converter) : nat * Converter :=
  match files with
  | [] => (total_records, self)
  | f :: rest =>
      let '((records, count), self) := process_xml_file env f self in
      let self := extend_data self records in
      process_each env rest (total_records + count) self
  end.

(** [process_all_files] *)
Definition process_all_files (env : Interpreter) (files : list SourceFile)
    (self : Converter) : nat * Converter :=
  let self := find_xml_files files self in
  match files with
  | [] => (0, print self ("No XML files found in: " ++ xml_folder self))
  | _ :: _ =>
      let self := print self (PyStr.nl ++ "Found " ++ PyStr.of_nat (List.length files)
                                ++ " XML file(s)") in
      process_each env files 0 self
  end.

(* ------------------------------------------------------------------ *)
(** *** Column order and the CSV writer *)

(** [sorted(...)] on strings: insertion into an ascending list.  The
    elements of a set are pairwise different, so the ascending arrangement
    is unique and does not depend on the sorting algorithm. *)
Fixpoint insert_sorted (x : string) (l : list string) : list string :=
  match l with
  | [] => [x]
  | y :: l' => if String.leb x y then x :: l else y :: insert_sorted x l'
  end.

Definition sorted (l : list string) : list string :=
  fold_right insert_sorted [] l.

(** [l.remove(x)]: deletes the first occurrence. *)
Fixpoint list_remove (x : string) (l : list string) : list string :=
  match l with
  | [] => []
  | y :: l' => if String.eqb y x then l' else y :: list_remove x l'
  end.

Definition priority_fields : list string :=
  [ "source_file";
    "Route"; "RouteID"; "LineID"; "LineName"; "Line";
    "FromStop"; "ToStop"; "StopID"; "StopName"; "Station"; "Stop";
    "AnnotatedStopPointRef"; "CommonName"; "Indicator"; "LocalityName"; "StopPointRef";
    "Lat"; "Latitude"; "Lon"; "Longitude"; "Coordinates";
    "Runtime"; "Duration"; "TravelTime"; "Time"; "Departure"; "Arrival";
    "Timestamp"; "Date"; "Time";
    "Direction"; "Sequence";
    "Operator"; "Company"; "Provider" ].

(** The loop that moves priority fields to the front. *)
Fixpoint prioritize (priority ordered_fields sorted_fields : list string)
  : list string * list string :=
  match priority with
  | [] => (ordered_fields, sorted_fields)
  | field :: rest =>
      if inb field sorted_fields
      then prioritize rest (ordered_fields ++ [field])%list (list_remove field sorted_fields)
      else prioritize rest ordered_fields sorted_fields
  end.

(** The column order that [save_to_csv] builds from an enumeration
    [fields] of [self.field_names]. *)
Definition column_order (fields : list string) : list string :=
  let sorted_fields := sorted fields in
  let '(ordered_fields, sorted_fields) := prioritize priority_fields [] sorted_fields in
  (ordered_fields ++ sorted_fields)%list.

Module Csv.

Definition dquote : ascii := "034"%char.
Definition CR : ascii := "013"%char.
Definition LF : ascii := "010"%char.

(** The characters that make the writer quote a field under the default
    dialect ([QUOTE_MINIMAL]): delimiter, quote character, CR and LF. *)
Definition special (c : ascii) : bool :=
  Ascii.eqb c ","%char || Ascii.eqb c dquote || Ascii.eqb c CR || Ascii.eqb c LF.

Fixpoint has_special (s : string) : bool :=
  match s with
  | EmptyString => false
  | String c s' => special c || has_special s'
  end.

(** [doublequote=True]: a quote character inside a field is written twice. *)
Fixpoint double_quotes (s : string) : string :=
  match s with
  | EmptyString => EmptyString
  | String c s' =>
      if Ascii.eqb c dquote then String c (String c (double_quotes s'))
      else String c (double_quotes s')
  end.

Definition field (s : string) : string :=
  if has_special s
  then String dquote (double_quotes s ++ String dquote EmptyString)
  else s.

(** [writer.writerow(fields)]: the fields joined by commas and ended by
    CR LF; a record that would be empty (one empty field) is written as a
    pair of quotes. *)
Definition record (fields : list string) : string :=
  let body := String.concat "," (map field fields) in
  let body :=
    match fields, body with
    | _ :: _, EmptyString => String dquote (String dquote EmptyString)
    | _, _ => body
    end in
  body ++ String CR (String LF EmptyString).

(** [DictWriter._dict_to_list] with [extrasaction='raise'] and
    [restval='']: [None] stands for the [ValueError] raised when the row has
    a key outside [fieldnames]. *)
Definition dict_to_list (fieldnames : list string) (row : Row) : option (list string) :=
  if forallb (fun k => inb k fieldnames) (keys row)
  then Some (map (fun k => dict_get row k EmptyString) fieldnames)
  else None.

(** What ends up in the file: everything, or what had been written when a
    row raised. *)
Inductive Written : Type :=
| Complete (content : string)
| Raised (partial : string) (wrong_fields : list string).

(** [DictWriter.writerows] *)
Fixpoint writerows (fieldnames : list string) (rows : list Row) (content : string)
  : Written :=
  match rows with
  | [] => Complete content
  | row :: rest =>
      match dict_to_list fieldnames row with
      | Some fields => writerows fieldnames rest (content ++ record fields)
      | None =>
          Raised content
            (List.filter (fun k => negb (inb k fieldnames)) (keys row))
      end
  end.

(** [writer.writeheader()] then [writer.writerows(rows)] on an empty file. *)
Definition write (fieldnames : list string) (rows : list Row) : Written :=
  writerows fieldnames rows (record fieldnames).

End Csv.

(** The outcome of [save_to_csv]: nothing to save, the file as written,
    the partial file left behind when the writer rejects a row, or no file
    because the file system refused. *)
Inductive SaveResult : Type :=
| NoData
| Saved (content : string)
| Failed (partial : string)
| Unsaved.

(** What the file system does with the output file: it can be opened and
    written, or [open] (or a write) raises an [OSError] whose text is
    [msg].  What a failed write leaves on disk is not described. *)
Inductive FileOutcome : Type :=
| Writable
| Unwritable (msg : string).

Definition set_data (self : Converter) (rows : list Row) : Converter :=
  {| xml_folder := xml_folder self; extracted_data := rows;
     field_names := field_names self;
     source_files := source_files self; log := log self |}.

(** [save_to_csv], from the emptiness check to the end of the write.
    [fields] is [list(self.field_names)], an enumeration of the set in the
    order Python happens to produce; [output_path] is the path computed in
    lines 312-324 of the source (file-name defaults and the [.csv]
    extension), which no statement below depends on.  The text of the
    [ValueError] lists the offending keys in row order here; Python prints
    them in set order. *)
Definition save_to_csv (io : FileOutcome) (fields : list string)
    (output_path : string) (self : Converter) : SaveResult * Converter :=
  match extracted_data self with
  | [] => (NoData, print self (PyStr.nl ++ "No data to save!"))
  | _ :: _ =>
      let self := set_data self (map (ensure_source_file "unknown") (extracted_data self)) in
      let ordered_fields := column_order fields in
      match io with
      | Unwritable msg => (Unsaved, print self ("✗ Error saving CSV: " ++ msg))
      | Writable =>
          match Csv.write ordered_fields (extracted_data self) with
          | Csv.Complete content =>
              (Saved content, print self (PyStr.nl ++ "✓ CSV saved to: " ++ output_path))
          | Csv.Raised partial wrong =>
              (Failed partial,
               print self ("✗ Error saving CSV: dict contains fields not in fieldnames: "
                           ++ String.concat ", " (map (fun k => "'" ++ k ++ "'") wrong)))
          end
      end
  end.

(** A whole conversion run on a folder: [process_all_files], then
    [save_to_csv] when records were extracted (as [main] does). *)
Definition run (env : Interpreter) (folder : string) (files : list SourceFile)
  : nat * Converter :=
  process_all_files env files (init env folder).

(* ------------------------------------------------------------------ *)
(** *** The name of the output file *)

(** [s.endswith(suffix)] *)
Fixpoint endswith (suffix s : string) : bool :=
  if String.eqb s suffix then true
  else match s with
       | EmptyString => false
       | String _ s' => endswith suffix s'
       end.

(** [s.rfind(c)] for a one-character needle; [None] stands for [-1]. *)
Fixpoint rfind (c : ascii) (s : string) : option nat :=
  match s with
  | EmptyString => None
  | String d s' =>
      match rfind c s' with
      | Some i => Some (S i)
      | None => if Ascii.eqb d c then Some 0%nat else None
      end
  end.

(** [Path(filepath).stem]: the file name without its last suffix; a name
    that only starts or only ends with a dot has no suffix. *)
Definition Path_stem (filepath : string) : string :=
  let name := Path_name filepath in
  match rfind "."%char name with
  | Some i =>
      if (0 <? i)%nat && (i <? String.length name - 1)%nat
      then String.substring 0 i name
      else name
  | None => name
  end.

(** [os.path.join(a, b)] on POSIX. *)
Definition os_path_join (a b : string) : string :=
  if String.prefix "/" b then b
  else if negb (PyStr.truthy a) || endswith "/" a then a ++ b
  else a ++ "/" ++ b.

(** Lines 312-322 of [save_to_csv]: the default file name and the [.csv]
    extension. *)
Definition output_file_name (output_file : option string) (self : Converter) : string :=
  let output_file :=
    match output_file with
    | Some name => name
    | None =>
        match source_files self with
        | [only] => Path_stem only ++ "_converted.csv"
        | _ => "bus_data_combined.csv"
        end
    end in
  if negb (endswith ".csv" output_file) then output_file ++ ".csv" else output_file.

(** Line 324: the path of the CSV file. *)
Definition output_path (output_file : option string) (self : Converter) : string :=
  os_path_join (xml_folder self) (output_file_name output_file self).

(* ------------------------------------------------------------------ *)
(** *** [_extract_element_data] *)

(** [data.update(child_data)] *)
Definition dict_update (data child_data : Row) : Row :=
  fold_left (fun d kv => dict_set d (fst kv) (snd kv)) child_data data.

(** The blocks "Extract attributes" and "Extract text content" of
    [_extract_element_data]: keys are [<path>.@<attr>] and [<path>]. *)
Definition add_attributes_path (element : Element) (current_path : string)
    (st : Row * Converter) : Row * Converter :=
  fold_left
    (fun (acc : Row * Converter) (a : string * string) =>
       let attr_name_clean := _strip_namespace (fst a) in
       let key := current_path ++ ".@" ++ attr_name_clean in
       (dict_set (fst acc) key (snd a), add_field (snd acc) key))
    (attrib element) st.

Definition add_text_path (element : Element) (current_path : string)
    (st : Row * Converter) : Row * Converter :=
  match text_content element with
  | Some stripped =>
      (dict_set (fst st) current_path stripped, add_field (snd st) current_path)
  | None => st
  end.

(** The loop over [children_by_tag.items()].  The dictionary groups the
    children by tag in the order of first occurrence, and only groups of
    one child are used: these are the children whose tag no sibling
    shares, met in document order. *)
Section EachSingleChild.
Variable rec : Element -> string -> nat -> Converter -> Row * Converter.
Variables (current_path : string) (depth : nat) (sibling_tags : list string).

Fixpoint update_each_single (cs : list Element) (data : Row) (self : Converter)
  : Row * Converter :=
  match cs with
  | [] => (data, self)
  | child :: cs' =>
      if (count_occ string_dec sibling_tags (tag child) =? 1)%nat then
        let '(child_data, self) := rec child current_path (depth + 1)%nat self in
        update_each_single cs' (dict_update data child_data) self
      else update_each_single cs' data self
  end.
End EachSingleChild.

(** [_extract_element_data] *)
Fixpoint _extract_element_data (element : Element) (parent_path : string)
    (depth : nat) (self : Converter) {struct element} : Row * Converter :=
  let current_path := _get_element_path element parent_path in
  let '(data, self) :=
    add_text_path element current_path
      (add_attributes_path element current_path ([], self)) in
  update_each_single _extract_element_data current_path depth
    (map tag (children element)) (children element) data self.

(* ================================================================== *)
(** ** Definitions used to state the properties *)

(** The local part of a qualified name as the specification words it: what
    follows the last ['}'], and the whole name when there is none. *)
Definition after_last_delimiter (name : string) : string :=
  last (PyStr.split "}"%char name) name.

(** The number of namespace delimiters in a name.  In the names that
    [ET.parse] hands out, a local name or [{uri}local], there is at most
    one: an XML name cannot hold ['}'], and the parser rejects a namespace
    URI that holds it, ['}'] being the separator it was created with. *)
Fixpoint delimiters (name : string) : nat :=
  match name with
  | EmptyString => 0%nat
  | String c name' =>
      if Ascii.eqb c "}"%char then S (delimiters name') else delimiters name'
  end.

(** An element carries data of its own when it has an attribute or a text
    that is not blank. *)
Definition own_content (e : Element) : bool :=
  match attrib e, text_content e with
  | [], None => false
  | _, _ => true
  end.

(** A tree has content when some element of it carries data of its own. *)
Definition has_content (e : Element) : bool := existsb own_content (iter e).

(** The records that [process_xml_file] returns for a parsed tree. *)
Definition classify (env : Interpreter) (root : Element) (path : string)
    (self : Converter) : list Row :=
  fst (fst (process_xml_file env (mkSourceFile path (Parsed root)) self)).

(** The converter after the four lines that announce a parsed file. *)
Definition announced (path : string) (root : Element) (self : Converter) : Converter :=
  print (print (print (print self (PyStr.nl ++ banner))
                  ("Processing: " ++ Path_name path))
           ("Root element: " ++ tag root)) banner.

(** The nesting depth of a tree: 1 for a leaf. *)
Fixpoint depth (e : Element) : nat :=
  S (list_max (map depth (children e))).

(** What a call does to the converter: it registers keys and prints. *)
Inductive Effect : Type :=
| Registers (key : string)
| Prints (line : string).

Definition apply_effect (self : Converter) (e : Effect) : Converter :=
  match e with
  | Registers key => add_field self key
  | Prints line => print self line
  end.

Definition apply_effects (self : Converter) (effects : list Effect) : Converter :=
  fold_left apply_effect effects self.

Definition finish {A : Type} (result : option A) (self : Converter) : Outcome A :=
  match result with
  | Some value => Ok value self
  | None => RecursionError self
  end.

(** A call is traced when its result and its effects on the converter do
    not depend on the converter it starts from. *)
Definition traced {A : Type} (call : Converter -> Outcome A) : Prop :=
  exists result effects, forall self,
    call self = finish result (apply_effects self effects).

Definition traced_pair {A : Type} (call : Converter -> A * Converter) : Prop :=
  exists value effects, forall self,
    call self = (value, apply_effects self effects).

(** An interpreter with the default recursion limit, about five frames
    deep when it runs the body of [process_xml_file]. *)
Definition python : Interpreter := {| frames := 995; cwd := "/home/user" |}.

(** A row carries a file name: the key [source_file] with a non-empty value. *)
Definition has_source_file (r : Row) : Prop :=
  inb "source_file" (keys r) = true /\ dict_get r "source_file" EmptyString <> EmptyString.

(** The keys that record-root flattening produces for [e], in the order
    in which they are written; [ancestors] are the local tags on the path
    from the record root (included) to the parent of [e]. *)
Fixpoint element_keys (ancestors : list string) (e : Element) : list string :=
  let path := String.concat "_" (ancestors ++ [_strip_namespace (tag e)]) in
  let attribute_keys :=
    map (fun a => path ++ "_@" ++ _strip_namespace (fst a)) (attrib e) in
  let text_key := match text_content e with Some _ => [path] | None => [] end in
  let below :=
    flat_map (element_keys (ancestors ++ [_strip_namespace (tag e)])) (children e) in
  (attribute_keys ++ text_key ++ below)%list.

(** The prefix with which [_flatten_element] reaches an element whose
    ancestors inside the record have the local tags [ancestors]: each tag
    followed by an underscore. *)
Definition prefix_of (ancestors : list string) : string :=
  fold_right (fun a p => a ++ "_" ++ p) EmptyString ancestors.

(** The patterns that strategy 1 tries up to and including [Stop]. *)
Definition patterns_up_to_Stop : list string :=
  ["Journey"; "Leg"; "Segment"; "Connection"; "Route"; "Stop"].

(** A [Stop] element of scenario A: it carries the attributes [id] and
    [name], and nothing below it has a tag that strategy 1 would pick
    before or together with [Stop]. *)
Definition scenario_A_stop (e : Element) : Prop :=
  tag e = "Stop"
  /\ In "id" (map fst (attrib e))
  /\ In "name" (map fst (attrib e))
  /\ forallb (fun d => negb (inb (tag d) patterns_up_to_Stop))
             (flat_map iter (children e)) = true.

(** The priority list without its repetitions (first occurrences kept). *)
Fixpoint first_occurrences (l : list string) : list string :=
  match l with
  | [] => []
  | x :: l' => x :: List.filter (fun y => negb (String.eqb y x)) (first_occurrences l')
  end.

(** The column order as the specification words it: the priority names that
    are registered, in priority order, then the other registered keys in
    ascending order. *)
Definition column_order_spec (fields : list string) : list string :=
  (List.filter (fun p => inb p fields) (first_occurrences priority_fields)
   ++ List.filter (fun f => negb (inb f priority_fields)) (sorted fields))%list.

(** Ascending order of strings. *)
Definition str_le (a b : string) : Prop := String.leb a b = true.

(** Sample inputs: a document whose root holds three [Stop] elements with
    attributes [id] and [name]; a document with a single [Journey] holding
    two [Leg] elements; a file that does not parse. *)
Definition sample_stop (i n : string) : Element :=
  Elem "Stop" [("id", i); ("name", n)] None [].

Definition sample_stops : Element :=
  Elem "Stops" [] None
    [sample_stop "1" "Abbey"; sample_stop "2" "Bridge"; sample_stop "3" "Castle"].

Definition sample_journey : Element :=
  Elem "Journey" [("id", "J1")] None
    [Elem "Origin" [] (Some "Abbey") []; Elem "Line" [] (Some " 7 ") []].

(** Three [Stop] elements with [id] and [name], the second of which holds
    two [Leg] elements. *)
Definition stops_with_legs : Element :=
  Elem "Stops" [] None
    [sample_stop "1" "Abbey";
     Elem "Stop" [("id", "2"); ("name", "Bridge")] None
       [Elem "Leg" [("to", "Castle")] None []; Elem "Leg" [("to", "Abbey")] None []];
     sample_stop "3" "Castle"].

(** [n] elements nested in one another around [e]. *)
Fixpoint chain (n : nat) (e : Element) : Element :=
  match n with
  | O => e
  | S n' => Elem "Level" [] None [chain n' e]
  end.

(** Three [Stop] elements with [id] and [name], the second of which holds
    a chain of a thousand elements. *)
Definition stops_with_chain : Element :=
  Elem "Stops" [] None
    [sample_stop "1" "Abbey";
     Elem "Stop" [("id", "2"); ("name", "Bridge")] None
       [chain 1000 (Elem "Note" [] (Some "far") [])];
     sample_stop "3" "Castle"].

Definition stops_file : SourceFile := mkSourceFile "data/stops.xml" (Parsed sample_stops).
Definition journey_file : SourceFile := mkSourceFile "data/journey.xml" (Parsed sample_journey).
Definition corrupt_file : SourceFile :=
  mkSourceFile "data/bad.xml" (ParseError "syntax error: line 1, column 0").

(** The local [records] that a strategy hands on, however it ends. *)
Definition flow_records (f : Flow) : list Row :=
  match f with Returned records => records | Fallthrough records => records end.

(** [records.append(record)] under [if record:]. *)
Definition append_if_nonempty (records : list Row) (record : Row) : list Row :=
  match record with [] => records | _ :: _ => (records ++ [record])%list end.

(** The state that matters for the output: rows and registered keys. *)
Definition same_data (s1 s2 : Converter) : Prop :=
  extracted_data s1 = extracted_data s2 /\ field_names s1 = field_names s2.

(** Two outcomes agree when they return the same value and leave the same
    rows and registered keys (the logs may differ). *)
Definition same_outcome {A : Type} (o1 o2 : A * Converter) : Prop :=
  fst o1 = fst o2 /\ same_data (snd o1) (snd o2).

(** The registry invariant: [source_file] is registered, and every key of
    every accumulated row is registered. *)
Definition registered (self : Converter) : Prop :=
  In "source_file" (field_names self)
  /\ Forall (fun row => incl (keys row) (field_names self)) (extracted_data self).

(** The number of leaves of a tree. *)
Fixpoint leaf_count (e : Element) : nat :=
  match children e with
  | [] => 1%nat
  | _ :: _ => list_sum (map leaf_count (children e))
  end.




(** The rows that a file yields when it is processed on its own. *)
Definition rows_of_file (env : Interpreter) (f : SourceFile) : list Row :=
  fst (fst (process_xml_file env f (init env EmptyString))).

(** The keys of the dictionary all begin with the path, and are all
    registered. *)
Definition path_keys_registered (current_path : string) (st : Row * Converter) : Prop :=
  forall k, In k (keys (fst st)) ->
            String.prefix current_path k = true /\ In k (field_names (snd st)).

(* ================================================================== *)
(** ** Lists, dictionaries and sets *)

Lemma inb_In k l : inb k l = true <-> In k l.
Proof.
  induction l as [|x l IH]; simpl.
  - split; [discriminate | tauto].
  - destruct (String.eqb_spec x k) as [->|Hne].
    + split; auto.
    + rewrite IH. split; [auto | intros [H|H]; [contradiction | exact H]].
Qed.

Lemma inb_false k l : inb k l = false <-> ~ In k l.
Proof.
  rewrite <- inb_In. destruct (inb k l); split; intros H;
    try reflexivity; try discriminate.
  exfalso. now apply H.
Qed.

Lemma set_add_In k s : In k (set_add s k).
Proof.
  unfold set_add. destruct (inb k s) eqn:E.
  - now apply inb_In.
  - apply in_or_app. right. now left.
Qed.

Lemma set_add_incl k s x : In x s -> In x (set_add s k).
Proof.
  unfold set_add. destruct (inb k s); auto. intros H. apply in_or_app. now left.
Qed.

Lemma set_add_inv k s x : In x (set_add s k) -> x = k \/ In x s.
Proof.
  unfold set_add. destruct (inb k s); auto.
  intros H. apply in_app_or in H. destruct H as [H|[H|[]]]; auto.
Qed.

Lemma keys_dict_set r k v : keys (dict_set r k v) = set_add (keys r) k.
Proof.
  unfold set_add. induction r as [|[k' v'] r IH]; simpl; [reflexivity|].
  destruct (String.eqb k' k); simpl; [reflexivity|].
  rewrite IH. destruct (inb k (keys r)); reflexivity.
Qed.

Lemma dict_set_not_nil r k v : dict_set r k v <> [].
Proof. destruct r as [|[k' v'] r]; simpl; [|destruct (String.eqb k' k)]; discriminate. Qed.

Lemma dict_get_set_same r k v d : dict_get (dict_set r k v) k d = v.
Proof.
  induction r as [|[k' v'] r IH]; simpl.
  - now rewrite String.eqb_refl.
  - destruct (String.eqb k' k) eqn:E; simpl; rewrite E; auto.
Qed.

Lemma dict_get_set_other r k v k0 d :
  k <> k0 -> dict_get (dict_set r k v) k0 d = dict_get r k0 d.
Proof.
  intros Hne. induction r as [|[k' v'] r IH]; simpl.
  - apply String.eqb_neq in Hne. now rewrite Hne.
  - destruct (String.eqb_spec k' k) as [->|Hk]; simpl.
    + apply String.eqb_neq in Hne. now rewrite Hne.
    + destruct (String.eqb k' k0); auto.
Qed.

Lemma dict_get_default r k d1 d2 :
  inb k (keys r) = true -> dict_get r k d1 = dict_get r k d2.
Proof.
  induction r as [|[k' v'] r IH]; simpl; [discriminate|].
  destruct (String.eqb k' k); auto.
Qed.

(* ------------------------------------------------------------------ *)
(** ** Namespace stripping *)

Lemma split_not_nil c s : PyStr.split c s <> [].
Proof.
  destruct s as [|d s]; simpl; [discriminate|].
  destruct (Ascii.eqb d c); [discriminate|].
  destruct (PyStr.split c s); discriminate.
Qed.

Lemma split_no_delimiter c s :
  PyStr.contains_char c s = false -> PyStr.split c s = [s].
Proof.
  induction s as [|d s IH]; simpl; [reflexivity|].
  destruct (Ascii.eqb d c); [discriminate|].
  intros H. now rewrite (IH H).
Qed.

(** When the delimiter occurs, the split has at least two parts: the index
    [1] in [_strip_namespace] is always in range. *)
Lemma split_two_parts c s :
  PyStr.contains_char c s = true -> (2 <= List.length (PyStr.split c s))%nat.
Proof.
  induction s as [|d s IH]; simpl; [discriminate|].
  destruct (Ascii.eqb d c).
  - intros _. pose proof (split_not_nil c s).
    destruct (PyStr.split c s); [congruence | simpl; lia].
  - intros H. specialize (IH H).
    destruct (PyStr.split c s); simpl in *; lia.
Qed.

Lemma strip_namespace_index tag0 :
  PyStr.contains_char "}"%char tag0 = true ->
  _strip_namespace tag0 = nth 1 (PyStr.split "}"%char tag0) EmptyString.
Proof.
  intros H. unfold _strip_namespace. rewrite H.
  pose proof (split_two_parts _ _ H) as L.
  destruct (PyStr.split "}"%char tag0) as [|a [|b l]]; simpl in *; try lia.
  reflexivity.
Qed.

Lemma strip_namespace_unqualified name :
  PyStr.contains_char "}"%char name = false -> _strip_namespace name = name.
Proof. intros H. unfold _strip_namespace. now rewrite H. Qed.

(** With a single delimiter the code and the specification agree. *)
Lemma strip_namespace_single_delimiter name :
  List.length (PyStr.split "}"%char name) = 2%nat ->
  _strip_namespace name = after_last_delimiter name.
Proof.
  intros L. unfold _strip_namespace, after_last_delimiter.
  destruct (PyStr.contains_char "}"%char name) eqn:E.
  - destruct (PyStr.split "}"%char name) as [|a [|b [|c l]]]; simpl in *;
      try discriminate. reflexivity.
  - rewrite (split_no_delimiter _ _ E) in L. discriminate.
Qed.

Lemma split_length name :
  List.length (PyStr.split "}"%char name) = S (delimiters name).
Proof.
  induction name as [|c name IH]; cbn [PyStr.split delimiters]; [reflexivity|].
  destruct (Ascii.eqb c "}"%char); cbn [List.length]; [now rewrite IH|].
  destruct (PyStr.split "}"%char name); cbn [List.length] in *; [discriminate | exact IH].
Qed.

Lemma no_delimiter name :
  delimiters name = 0%nat -> PyStr.contains_char "}"%char name = false.
Proof.
  induction name as [|c name IH]; cbn [delimiters PyStr.contains_char]; [reflexivity|].
  destruct (Ascii.eqb c "}"%char); [discriminate | exact IH].
Qed.

(** C6: on the names that the parser hands out (at most one delimiter),
    namespace stripping keeps the local part, that is what follows the
    last occurrence of the delimiter, and a name without a delimiter is
    returned unchanged. *)
Theorem strip_namespace_local_part :
  forall name,
    (delimiters name <= 1)%nat ->
    _strip_namespace name = after_last_delimiter name
    /\ (PyStr.contains_char "}"%char name = false -> _strip_namespace name = name).
Proof.
  intros name H. split; [|apply strip_namespace_unqualified].
  pose proof (split_length name) as L.
  destruct (delimiters name) as [|[|n]] eqn:E; [| |lia].
  - pose proof (no_delimiter name E) as Hc.
    rewrite (strip_namespace_unqualified name Hc). unfold after_last_delimiter.
    now rewrite (split_no_delimiter _ _ Hc).
  - now apply strip_namespace_single_delimiter.
Qed.

Lemma strip_namespace_local_part_witness :
  (delimiters "{http://www.transxchange.org.uk/}StopPoint" <= 1)%nat
  /\ _strip_namespace "{http://www.transxchange.org.uk/}StopPoint" = "StopPoint"
  /\ after_last_delimiter "{http://www.transxchange.org.uk/}StopPoint" = "StopPoint".
Proof.
  assert (H : (delimiters "{http://www.transxchange.org.uk/}StopPoint" <= 1)%nat)
    by (vm_compute; repeat constructor).
  split; [exact H|].
  pose proof (proj1 (strip_namespace_local_part _ H)) as E.
  split; [|reflexivity].
  etransitivity; [exact E | reflexivity].
Defined.

(* ------------------------------------------------------------------ *)
(** ** The generic fallback flatten *)

Lemma extend_each_child_ext
    (f g : Element -> string -> Row -> Converter -> list Row * Converter)
    path data cs :
  Forall (fun c => forall pp pd s, f c pp pd s = g c pp pd s) cs ->
  forall records s,
    extend_each_child f path data cs records s
    = extend_each_child g path data cs records s.
Proof.
  induction 1 as [|c cs Hc _ IH]; intros records s; simpl; [reflexivity|].
  rewrite Hc. destruct (g c path data s) as [child_records s']. apply IH.
Qed.

(** C10: the rows (and the registered keys) that the fallback flatten
    produces do not depend on whether the children share one tag: the
    collection branch and the mixed-children branch run the same loop, so
    the function equals its version without the collection check. *)
Theorem flatten_collection_check_irrelevant :
  forall element parent_path parent_data self,
    _flatten_nested_records element parent_path parent_data self
    = flatten_without_collection_check element parent_path parent_data self.
Proof.
  induction element as [t a x cs IH] using Element_forall_ind.
  intros pp pd s.
  cbn [_flatten_nested_records flatten_without_collection_check children].
  destruct (add_text_dotted _ _) as [current_data s'].
  destruct cs as [|c cs']; [reflexivity|].
  destruct (_ && _); now apply extend_each_child_ext.
Qed.

Lemma add_attributes_dotted_nonempty e pd s :
  pd <> [] \/ attrib e <> [] -> fst (add_attributes_dotted e (pd, s)) <> [].
Proof.
  unfold add_attributes_dotted. generalize (attrib e) as l.
  intros l. revert pd s. induction l as [|a l IH]; intros pd s H; simpl.
  - destruct H; [assumption | congruence].
  - apply IH. left. apply dict_set_not_nil.
Qed.

Lemma add_text_dotted_nonempty e st :
  fst st <> [] \/ text_content e <> None -> fst (add_text_dotted e st) <> [].
Proof.
  unfold add_text_dotted. destruct (text_content e); simpl; intros H.
  - apply dict_set_not_nil.
  - destruct H; [assumption | congruence].
Qed.

Lemma own_data_nonempty e pd s :
  pd <> [] \/ own_content e = true ->
  fst (add_text_dotted e (add_attributes_dotted e (pd, s))) <> [].
Proof.
  intros H. apply add_text_dotted_nonempty.
  destruct H as [H|H].
  - left. apply add_attributes_dotted_nonempty. now left.
  - unfold own_content in H.
    destruct (attrib e) eqn:Ea.
    + right. destruct (text_content e); [discriminate | discriminate H].
    + left. apply add_attributes_dotted_nonempty. right. rewrite Ea. discriminate.
Qed.

Lemma extend_each_child_keeps rec path data cs :
  forall records s, records <> [] ->
    fst (extend_each_child rec path data cs records s) <> [].
Proof.
  induction cs as [|c cs IH]; intros records s H; simpl; [assumption|].
  destruct (rec c path data s) as [child_records s']. apply IH.
  destruct records; [congruence | discriminate].
Qed.

Lemma extend_each_child_nonempty rec path data cs :
  Exists (fun c => forall s, fst (rec c path data s) <> []) cs ->
  forall records s, fst (extend_each_child rec path data cs records s) <> [].
Proof.
  induction 1 as [c cs Hc | c cs _ IH]; intros records s; simpl.
  - specialize (Hc s). destruct (rec c path data s) as [child_records s'].
    apply extend_each_child_keeps. simpl in Hc.
    destruct records; simpl; [assumption | discriminate].
  - destruct (rec c path data s) as [child_records s']. apply IH.
Qed.

(** The fallback emits a row as soon as a field is inherited or some
    element of the subtree carries data. *)
Lemma fallback_nonempty :
  forall element parent_path parent_data self,
    parent_data <> [] \/ has_content element = true ->
    fst (_flatten_nested_records element parent_path parent_data self) <> [].
Proof.
  induction element as [t a x cs IH] using Element_forall_ind.
  intros pp pd s H.
  cbn [_flatten_nested_records children].
  pose proof (own_data_nonempty (Elem t a x cs) pd s) as Hown.
  destruct (add_text_dotted _ _) as [current_data s'] eqn:E. simpl in Hown.
  unfold has_content in H. cbn [iter children existsb] in H.
  destruct cs as [|c cs'].
  - simpl in H. rewrite orb_false_r in H. specialize (Hown H).
    destruct current_data; [congruence | simpl; discriminate].
  - set (kids := c :: cs') in *.
    set (path := _get_element_path _ _).
    assert (Hloop : fst (extend_each_child _flatten_nested_records path
                           current_data kids [] s') <> []).
    { apply extend_each_child_nonempty.
      destruct current_data as [|kv cd].
      - (* nothing so far: some child subtree carries data *)
        assert (Hk : existsb own_content (flat_map iter kids) = true).
        { destruct H as [H|H]; [exfalso; apply Hown; [now left | reflexivity]|].
          apply orb_true_iff in H. destruct H as [H|H]; [|exact H].
          exfalso. apply Hown; [now right | reflexivity]. }
        apply existsb_exists in Hk. destruct Hk as [d [Hd Hc]].
        apply in_flat_map in Hd. destruct Hd as [k [Hk Hd]].
        apply Exists_exists. exists k. split; [exact Hk|].
        intros s0. rewrite Forall_forall in IH. apply (IH k Hk). right.
        unfold has_content. apply existsb_exists. now exists d.
      - (* a field is carried down: the first child already yields a row *)
        apply Exists_cons_hd. intros s0.
        inversion IH as [|? ? Hc _]; subst. apply Hc. left. discriminate. }
    destruct (_ && _); exact Hloop.
Qed.

(* ------------------------------------------------------------------ *)
(** ** Keys and values written by the two flatteners *)

Lemma contains_char_app c s1 s2 :
  PyStr.contains_char c (s1 ++ s2)
  = PyStr.contains_char c s1 || PyStr.contains_char c s2.
Proof.
  induction s1 as [|d s1 IH]; simpl; [reflexivity|].
  destruct (Ascii.eqb d c); [reflexivity | exact IH].
Qed.

Lemma text_content_nonempty e t : text_content e = Some t -> t <> EmptyString.
Proof.
  unfold text_content. destruct (text e) as [x|]; [|discriminate].
  destruct (PyStr.truthy x); [|discriminate].
  destruct (PyStr.truthy (PyStr.strip x)) eqn:E; [|discriminate].
  intros [= <-] H. rewrite H in E. discriminate.
Qed.

(** The test [if prefix] changes nothing: both arms build the same key. *)
Lemma flat_key_eq prefix e suffix :
  flat_key prefix e suffix = prefix ++ _strip_namespace (tag e) ++ suffix.
Proof. unfold flat_key. destruct prefix; reflexivity. Qed.

Lemma flat_attribute_key_has_at prefix e a :
  PyStr.contains_char "@"%char (flat_key prefix e ("_@" ++ a)) = true.
Proof.
  rewrite flat_key_eq, !contains_char_app. simpl.
  now rewrite !orb_true_r.
Qed.

Lemma dotted_key_has_dot t suffix :
  PyStr.contains_char "."%char (t ++ String "."%char suffix) = true.
Proof.
  rewrite contains_char_app. simpl. now rewrite orb_true_r.
Qed.

(** An invariant of the pair (record, converter) that survives every write
    of record-root flattening survives [_flatten_element]. *)
Section FlatInvariant.
Variable K : Row * Converter -> Prop.
Hypothesis K_set : forall r s k v,
  PyStr.contains_char "@"%char k = true \/ v <> EmptyString ->
  K (r, s) -> K (dict_set r k v, add_field s k).

Lemma add_attributes_flat_inv e prefix st :
  K st -> K (add_attributes_flat e prefix st).
Proof.
  unfold add_attributes_flat. generalize (attrib e) as l. intros l.
  revert st. induction l as [|a l IH]; intros [r s] H; simpl; [exact H|].
  apply IH. apply K_set; [|exact H]. left. apply flat_attribute_key_has_at.
Qed.

Lemma add_text_flat_inv e prefix st : K st -> K (add_text_flat e prefix st).
Proof.
  unfold add_text_flat. destruct (text_content e) as [t|] eqn:E; [|auto].
  destruct st as [r s]. intros H. apply K_set; [|exact H].
  right. eapply text_content_nonempty; eassumption.
Qed.

Lemma flatten_each_child_inv rec new_prefix cs :
  Forall (fun c => forall p st, K st -> K (rec c p st)) cs ->
  forall st, K st -> K (flatten_each_child rec new_prefix cs st).
Proof.
  induction 1 as [|c cs Hc _ IH]; intros st H; simpl; [exact H|].
  apply IH. now apply Hc.
Qed.

Lemma flatten_element_inv :
  forall e prefix st, K st -> K (_flatten_element e prefix st).
Proof.
  induction e as [t a x cs IH] using Element_forall_ind.
  intros prefix st H. cbn [_flatten_element children].
  apply flatten_each_child_inv; [exact IH|].
  now apply add_text_flat_inv, add_attributes_flat_inv.
Qed.
End FlatInvariant.

(** An invariant of the pair (row, converter) that survives every write of
    the fallback flatten, and the registration of further keys, holds for
    every row the fallback emits, in the state it ends in. *)
Section FallbackInvariant.
Variable J : Row * Converter -> Prop.
Hypothesis J_set : forall r s k v,
  PyStr.contains_char "."%char k = true ->
  J (r, s) -> J (dict_set r k v, add_field s k).
Hypothesis J_mono : forall r s k, J (r, s) -> J (r, add_field s k).

Let J_later (s s' : Converter) : Prop := forall r, J (r, s) -> J (r, s').

Lemma add_attributes_dotted_inv e st :
  J st ->
  J (add_attributes_dotted e st)
  /\ J_later (snd st) (snd (add_attributes_dotted e st)).
Proof.
  unfold add_attributes_dotted. generalize (attrib e) as l. intros l.
  revert st. induction l as [|a l IH]; intros [r s] H; simpl.
  - split; [exact H | intros r0 H0; exact H0].
  - match goal with |- context [fold_left _ l ?st1] =>
      destruct (IH st1) as [H1 H2] end.
    + apply J_set; [apply dotted_key_has_dot | exact H].
    + split; [exact H1|]. intros r0 H0. apply H2. simpl. now apply J_mono.
Qed.

Lemma add_text_dotted_inv e st :
  J st ->
  J (add_text_dotted e st) /\ J_later (snd st) (snd (add_text_dotted e st)).
Proof.
  unfold add_text_dotted. destruct st as [r s]. intros H.
  destruct (text_content e) as [t|]; simpl.
  - split; [apply J_set; [apply dotted_key_has_dot | exact H]|].
    intros r0 H0. now apply J_mono.
  - split; [exact H | intros r0 H0; exact H0].
Qed.

Let emits_J (rec : Element -> string -> Row -> Converter -> list Row * Converter)
    (c : Element) : Prop :=
  forall pp pd s, J (pd, s) ->
    Forall (fun r => J (r, snd (rec c pp pd s))) (fst (rec c pp pd s))
    /\ J_later s (snd (rec c pp pd s)).

Lemma extend_each_child_inv rec path data cs :
  Forall (emits_J rec) cs ->
  forall records s,
    J (data, s) -> Forall (fun r => J (r, s)) records ->
    Forall (fun r => J (r, snd (extend_each_child rec path data cs records s)))
           (fst (extend_each_child rec path data cs records s))
    /\ J_later s (snd (extend_each_child rec path data cs records s)).
Proof.
  induction 1 as [|c cs Hc _ IH]; intros records s Hd Hr; simpl.
  - split; [exact Hr | intros r0 H0; exact H0].
  - destruct (Hc path data s Hd) as [H1 H2].
    destruct (rec c path data s) as [child_records s1]. simpl in H1, H2.
    destruct (IH (records ++ child_records)%list s1) as [H3 H4].
    + now apply H2.
    + apply Forall_app. split; [|exact H1].
      eapply Forall_impl; [|exact Hr]. intros r0. apply H2.
    + split; [exact H3|]. intros r0 H0. apply H4, H2, H0.
Qed.

Lemma fallback_inv :
  forall e pp pd s, J (pd, s) ->
    Forall (fun r => J (r, snd (_flatten_nested_records e pp pd s)))
           (fst (_flatten_nested_records e pp pd s))
    /\ J_later s (snd (_flatten_nested_records e pp pd s)).
Proof.
  induction e as [t a x cs IH] using Element_forall_ind.
  intros pp pd s H. cbn [_flatten_nested_records children].
  set (e := Elem t a x cs).
  destruct (add_attributes_dotted_inv e (pd, s) H) as [H1 H2].
  destruct (add_text_dotted_inv e _ H1) as [H3 H4].
  destruct (add_text_dotted e _) as [current_data s'].
  simpl in H2, H3, H4.
  assert (Hs : J_later s s') by (intros r0 H0; apply H4, H2, H0).
  destruct cs as [|c cs'].
  - destruct current_data; simpl; split; auto.
  - set (kids := c :: cs') in *.
    assert (Hloop :
      forall path,
        Forall (fun r => J (r, snd (extend_each_child _flatten_nested_records
                                      path current_data kids [] s')))
               (fst (extend_each_child _flatten_nested_records
                       path current_data kids [] s'))
        /\ J_later s (snd (extend_each_child _flatten_nested_records
                             path current_data kids [] s'))).
    { intros path.
      destruct (extend_each_child_inv _flatten_nested_records path
                  current_data kids IH [] s' H3 (Forall_nil _)) as [H5 H6].
      split; [exact H5|]. intros r0 H0. apply H6, Hs, H0. }
    destruct (_ && _); apply Hloop.
Qed.
End FallbackInvariant.

(* ------------------------------------------------------------------ *)
(** ** The three strategies of [_extract_records_smart] *)

(** An invariant of the pair (records so far, converter) that survives
    printing and the addition of one record survives the whole of
    [_extract_records_smart]. *)
Section SmartInvariant.
Variable I : list Row * Converter -> Prop.
Variable path : string.
Hypothesis I_print : forall rs s line, I (rs, s) -> I (rs, print s line).
Hypothesis I_record : forall e rs s,
  I (rs, s) ->
  I (append_if_nonempty rs (fst (_element_to_record e path s)),
     snd (_element_to_record e path s)).

Lemma collect_records_inv elements :
  forall rs s, I (rs, s) -> I (collect_records elements path rs s).
Proof.
  induction elements as [|e es IH]; intros rs s H; simpl; [exact H|].
  pose proof (I_record e rs s H) as H1.
  destruct (_element_to_record e path s) as [record s1]. simpl in H1.
  apply IH. exact H1.
Qed.

Lemma strategy1_inv patterns root :
  forall rs s, I (rs, s) ->
    I (flow_records (fst (strategy1 patterns root path rs s)),
       snd (strategy1 patterns root path rs s)).
Proof.
  induction patterns as [|p ps IH]; intros rs s H; simpl; [exact H|].
  destruct (findall_descendants p root) as [|e es] eqn:E; [now apply IH|].
  destruct (1 <? _)%nat; [|now apply IH].
  match goal with |- context [collect_records ?l path rs ?s1] =>
    pose proof (collect_records_inv l rs s1 (I_print _ _ _ H)) as H1;
    destruct (collect_records l path rs s1) as [rs1 s2] end.
  destruct rs1 as [|r rs1]; [now apply IH | exact H1].
Qed.

Lemma strategy2_inv cs :
  forall rs s, I (rs, s) ->
    I (flow_records (fst (strategy2 cs path rs s)),
       snd (strategy2 cs path rs s)).
Proof.
  induction cs as [|c cs IH]; intros rs s H; simpl; [exact H|].
  destruct (children c) as [|g gs] eqn:E; [now apply IH|].
  destruct (is_collection _); [|now apply IH].
  match goal with |- context [collect_records ?l path rs ?s1] =>
    pose proof (collect_records_inv l rs s1 (I_print _ _ _ H)) as H1;
    destruct (collect_records l path rs s1) as [rs1 s2] end.
  destruct rs1 as [|r rs1]; [now apply IH | exact H1].
Qed.

Lemma strategy3_inv root :
  forall rs s, I (rs, s) ->
    I (flow_records (fst (strategy3 root path rs s)),
       snd (strategy3 root path rs s)).
Proof.
  intros rs s H. unfold strategy3.
  destruct (children root) as [|c cs] eqn:E; [exact H|].
  destruct (is_collection _); [|exact H].
  match goal with |- context [collect_records ?l path rs ?s1] =>
    pose proof (collect_records_inv l rs s1 (I_print _ _ _ H)) as H1;
    destruct (collect_records l path rs s1) as [rs1 s2] end.
  exact H1.
Qed.

Lemma extract_records_smart_inv root s :
  I ([], s) -> I (_extract_records_smart root path s).
Proof.
  intros H. unfold _extract_records_smart.
  pose proof (strategy1_inv journey_patterns root [] s H) as H1.
  destruct (strategy1 journey_patterns root path [] s) as [[rs1|rs1] s1];
    simpl in H1; [exact H1|].
  pose proof (strategy2_inv (children root) rs1 s1 H1) as H2.
  destruct (strategy2 (children root) path rs1 s1) as [[rs2|rs2] s2];
    simpl in H2; [exact H2|].
  pose proof (strategy3_inv root rs2 s2 H2) as H3.
  destruct (strategy3 root path rs2 s2) as [[rs3|rs3] s3]; exact H3.
Qed.
End SmartInvariant.

(* ------------------------------------------------------------------ *)
(** ** What processing a file can do to the converter *)

(** Processing a file changes the converter only by registering keys and
    printing: a property of the converter that survives both survives
    [process_xml_file]. *)
Section StateInvariant.
Variable Q : Converter -> Prop.
Hypothesis Q_add : forall s k, Q s -> Q (add_field s k).
Hypothesis Q_print : forall s line, Q s -> Q (print s line).

Lemma flatten_element_state e prefix st :
  Q (snd st) -> Q (snd (_flatten_element e prefix st)).
Proof.
  apply (flatten_element_inv (fun st => Q (snd st))).
  intros r s k v _ H. now apply Q_add.
Qed.

Lemma element_to_record_state e path s :
  Q s -> Q (snd (_element_to_record e path s)).
Proof.
  intros H. unfold _element_to_record.
  pose proof (flatten_element_state e EmptyString
                ([("source_file", Path_name path)], s) H) as H1.
  destruct (_flatten_element _ _ _) as [record s']. exact H1.
Qed.

Lemma extract_records_smart_state root path s :
  Q s -> Q (snd (_extract_records_smart root path s)).
Proof.
  intros H.
  apply (extract_records_smart_inv (fun st => Q (snd st)) path); auto.
  intros e rs s0 H0. now apply element_to_record_state.
Qed.

Lemma fallback_state e pp pd s :
  Q s -> Q (snd (_flatten_nested_records e pp pd s)).
Proof.
  intros H.
  destruct (fallback_inv (fun st => Q (snd st))
              (fun r s0 k v _ H0 => Q_add s0 k H0)
              (fun r s0 k H0 => Q_add s0 k H0) e pp pd s H) as [_ H1].
  exact (H1 pd H).
Qed.

Lemma extract_records_state root path s :
  Q s -> Q (snd (extract_records root path s)).
Proof.
  intros H. unfold extract_records.
  pose proof (extract_records_smart_state root path s H) as H1.
  destruct (_extract_records_smart root path s) as [records s1].
  cbn [snd] in H1. destruct records as [|r rs]; [|exact H1].
  now apply fallback_state, Q_print.
Qed.
End StateInvariant.

(* ------------------------------------------------------------------ *)
(** ** The frames that are left *)

(** *** A call that returns has done what the source reads *)

Lemma flatten_each_child_in_unbounded rec_in rec np cs :
  Forall (fun c => forall p st r s', rec_in c p st = Ok r s' -> rec c p st = (r, s')) cs ->
  forall st r s',
    flatten_each_child_in rec_in np cs st = Ok r s' ->
    flatten_each_child rec np cs st = (r, s').
Proof.
  induction 1 as [|c cs Hc _ IH]; intros st r s' H;
    cbn [flatten_each_child_in flatten_each_child] in *.
  - injection H as <- <-. now destruct st.
  - destruct (rec_in c np st) as [r1 s1|s1] eqn:E; [|discriminate].
    rewrite (Hc np st r1 s1 E). now apply IH.
Qed.

Lemma flatten_element_in_unbounded :
  forall e n p st r s',
    _flatten_element_in n e p st = Ok r s' -> _flatten_element e p st = (r, s').
Proof.
  induction e as [t a x cs IH] using Element_forall_ind.
  intros n p st r s' H. destruct n as [|[|n]];
    cbn [_flatten_element_in _flatten_element children attrib] in *.
  - discriminate.
  - unfold add_text_flat, add_attributes_flat. cbn [attrib].
    destruct a; [|discriminate].
    destruct (text_content (Elem t [] x cs)); [discriminate|].
    destruct cs; [|discriminate].
    injection H as <- <-. cbn [fold_left flatten_each_child]. now destruct st.
  - eapply flatten_each_child_in_unbounded; [|exact H].
    eapply Forall_impl; [|exact IH]. intros c Hc p0 st0 r0 s0. apply Hc.
Qed.

Lemma element_to_record_in_unbounded n e path s r s' :
  _element_to_record_in n e path s = Ok r s' -> _element_to_record e path s = (r, s').
Proof.
  unfold _element_to_record_in, _element_to_record. destruct n as [|n]; [discriminate|].
  destruct (_flatten_element_in n e EmptyString _) as [r1 s1|s1] eqn:E; [|discriminate].
  rewrite (flatten_element_in_unbounded _ _ _ _ _ _ E). now intros [= <- <-].
Qed.

Lemma extend_each_child_in_unbounded rec_in rec path data cs :
  Forall (fun c => forall pp pd s rs s',
            rec_in c pp pd s = Ok rs s' -> rec c pp pd s = (rs, s')) cs ->
  forall records s rs s',
    extend_each_child_in rec_in path data cs records s = Ok rs s' ->
    extend_each_child rec path data cs records s = (rs, s').
Proof.
  induction 1 as [|c cs Hc _ IH]; intros records s rs s' H;
    cbn [extend_each_child_in extend_each_child] in *.
  - now injection H as <- <-.
  - destruct (rec_in c path data s) as [r1 s1|s1] eqn:E; [|discriminate].
    rewrite (Hc path data s r1 s1 E). now apply IH.
Qed.

Lemma flatten_nested_records_in_unbounded :
  forall e n pp pd s rs s',
    _flatten_nested_records_in n e pp pd s = Ok rs s' ->
    _flatten_nested_records e pp pd s = (rs, s').
Proof.
  induction e as [t a x cs IH] using Element_forall_ind.
  intros n pp pd s rs s' H. destruct n as [|[|[|n]]];
    cbn [_flatten_nested_records_in _flatten_nested_records children] in *;
    try discriminate.
  destruct (add_text_dotted _ _) as [current_data s1].
  destruct cs as [|c cs'].
  - destruct current_data; now injection H as <- <-.
  - assert (Hloop : forall path,
              extend_each_child_in (_flatten_nested_records_in (S (S n))) path
                current_data (c :: cs') [] s1 = Ok rs s' ->
              extend_each_child _flatten_nested_records path current_data
                (c :: cs') [] s1 = (rs, s')).
    { intros path. apply extend_each_child_in_unbounded.
      eapply Forall_impl; [|exact IH]. intros k Hk pp0 pd0 s0 rs0 s0'. apply Hk. }
    destruct (_ && _); now apply Hloop.
Qed.

Lemma collect_records_in_unbounded n elements path :
  forall rs s rs' s',
    collect_records_in n elements path rs s = Ok rs' s' ->
    collect_records elements path rs s = (rs', s').
Proof.
  induction elements as [|e es IH]; intros rs s rs' s' H;
    cbn [collect_records_in collect_records] in *.
  - now injection H as <- <-.
  - destruct (_element_to_record_in n e path s) as [r1 s1|s1] eqn:E; [|discriminate].
    rewrite (element_to_record_in_unbounded _ _ _ _ _ _ E). now apply IH.
Qed.

Ltac collect_in_case :=
  match goal with
  | H : context [collect_records_in ?n ?l ?p ?rs ?s] |- _ =>
      let E := fresh "E" in
      destruct (collect_records_in n l p rs s) as [? ?|?] eqn:E; [|discriminate];
      rewrite (collect_records_in_unbounded _ _ _ _ _ _ _ E)
  end.

Lemma strategy1_in_unbounded n patterns root path :
  forall rs s flow s',
    strategy1_in n patterns root path rs s = Ok flow s' ->
    strategy1 patterns root path rs s = (flow, s').
Proof.
  induction patterns as [|p ps IH]; intros rs s flow s' H;
    cbn [strategy1_in strategy1] in *.
  - now injection H as <- <-.
  - destruct (findall_descendants p root) as [|e es]; [now apply IH|].
    destruct (1 <? _)%nat; [|now apply IH].
    collect_in_case.
    match goal with |- context [match ?l with [] => _ | _ :: _ => _ end] =>
      destruct l end; [now apply IH | now injection H as <- <-].
Qed.

Lemma strategy2_in_unbounded n cs path :
  forall rs s flow s',
    strategy2_in n cs path rs s = Ok flow s' ->
    strategy2 cs path rs s = (flow, s').
Proof.
  induction cs as [|c cs IH]; intros rs s flow s' H;
    cbn [strategy2_in strategy2] in *.
  - now injection H as <- <-.
  - destruct (children c) as [|g gs]; [now apply IH|].
    destruct (is_collection _); [|now apply IH].
    collect_in_case.
    match goal with |- context [match ?l with [] => _ | _ :: _ => _ end] =>
      destruct l end; [now apply IH | now injection H as <- <-].
Qed.

Lemma strategy3_in_unbounded n root path rs s flow s' :
  strategy3_in n root path rs s = Ok flow s' ->
  strategy3 root path rs s = (flow, s').
Proof.
  unfold strategy3_in, strategy3. intros H.
  destruct (children root) as [|c cs]; [now injection H as <- <-|].
  destruct (is_collection _); [|now injection H as <- <-].
  collect_in_case. now injection H as <- <-.
Qed.

Lemma extract_records_smart_in_unbounded n root path s rs s' :
  _extract_records_smart_in n root path s = Ok rs s' ->
  _extract_records_smart root path s = (rs, s').
Proof.
  unfold _extract_records_smart_in, _extract_records_smart.
  destruct n as [|n]; [discriminate|]. intros H.
  destruct (strategy1_in n journey_patterns root path [] s) as [[r1|r1] s1|s1] eqn:E1;
    try discriminate;
    rewrite (strategy1_in_unbounded _ _ _ _ _ _ _ _ E1); [now injection H as <- <-|].
  destruct (strategy2_in n (children root) path r1 s1) as [[r2|r2] s2|s2] eqn:E2;
    try discriminate;
    rewrite (strategy2_in_unbounded _ _ _ _ _ _ _ E2); [now injection H as <- <-|].
  destruct (strategy3_in n root path r2 s2) as [[r3|r3] s3|s3] eqn:E3;
    try discriminate;
    rewrite (strategy3_in_unbounded _ _ _ _ _ _ _ E3); now injection H as <- <-.
Qed.

(** With the frames that are left, an extraction that returns has returned
    the rows, and left the converter, that the source reads. *)
Lemma extract_records_in_unbounded n root path s rs s' :
  extract_records_in n root path s = Ok rs s' ->
  extract_records root path s = (rs, s').
Proof.
  unfold extract_records_in, extract_records. intros H.
  destruct (_extract_records_smart_in n root path s) as [r1 s1|s1] eqn:E;
    [|discriminate].
  rewrite (extract_records_smart_in_unbounded _ _ _ _ _ _ E).
  destruct r1 as [|r rs1]; [|now injection H as <- <-].
  now apply flatten_nested_records_in_unbounded in H.
Qed.

(** *** Trees that fit *)

Lemma depth_child e c : In c (children e) -> (S (depth c) <= depth e)%nat.
Proof.
  intros H. destruct e as [t a x cs]. cbn [depth children] in *.
  apply le_n_S. assert (Hm := proj1 (list_max_le (map depth cs) _) (le_n _)).
  rewrite Forall_forall in Hm. apply Hm. now apply in_map.
Qed.

Lemma depth_below : forall e d, In d (iter e) -> (depth d <= depth e)%nat.
Proof.
  induction e as [t a x cs IH] using Element_forall_ind.
  intros d Hd. cbn [iter children] in Hd. destruct Hd as [<-|Hd]; [lia|].
  apply in_flat_map in Hd. destruct Hd as [c [Hc Hd]].
  rewrite Forall_forall in IH. specialize (IH c Hc d Hd).
  pose proof (depth_child (Elem t a x cs) c Hc). lia.
Qed.

Lemma depth_proper_descendant root d :
  In d (flat_map iter (children root)) -> (S (depth d) <= depth root)%nat.
Proof.
  intros Hd. apply in_flat_map in Hd. destruct Hd as [c [Hc Hd]].
  pose proof (depth_below c d Hd). pose proof (depth_child root c Hc). lia.
Qed.

Lemma flatten_each_child_in_fits rec np cs :
  Forall (fun c => forall p st, exists r s', rec c p st = Ok r s') cs ->
  forall st, exists r s', flatten_each_child_in rec np cs st = Ok r s'.
Proof.
  induction 1 as [|c cs Hc _ IH]; intros st; cbn [flatten_each_child_in].
  - now eexists _, _.
  - destruct (Hc np st) as [r1 [s1 ->]]. apply IH.
Qed.

Lemma flatten_element_in_fits :
  forall e n p st,
    (depth e + 1 <= n)%nat -> exists r s', _flatten_element_in n e p st = Ok r s'.
Proof.
  induction e as [t a x cs IH] using Element_forall_ind.
  intros n p st Hn.
  assert (Hd : (1 <= depth (Elem t a x cs))%nat) by (cbn [depth]; lia).
  destruct n as [|[|n]]; try lia. cbn [_flatten_element_in children].
  apply flatten_each_child_in_fits. apply Forall_forall. intros c Hc p0 st0.
  rewrite Forall_forall in IH. apply (IH c Hc).
  pose proof (depth_child (Elem t a x cs) c Hc). lia.
Qed.

Lemma element_to_record_in_fits n e path s :
  (depth e + 2 <= n)%nat -> exists r s', _element_to_record_in n e path s = Ok r s'.
Proof.
  intros Hn. unfold _element_to_record_in. destruct n as [|n]; [lia|].
  destruct (flatten_element_in_fits e n EmptyString
              ([("source_file", Path_name path)], s)) as [r [s' ->]]; [lia|].
  now eexists _, _.
Qed.

Lemma extend_each_child_in_fits rec path data cs :
  Forall (fun c => forall pp pd s, exists rs s', rec c pp pd s = Ok rs s') cs ->
  forall records s,
    exists rs s', extend_each_child_in rec path data cs records s = Ok rs s'.
Proof.
  induction 1 as [|c cs Hc _ IH]; intros records s; cbn [extend_each_child_in].
  - now eexists _, _.
  - destruct (Hc path data s) as [r1 [s1 ->]]. apply IH.
Qed.

Lemma flatten_nested_records_in_fits :
  forall e n pp pd s,
    (depth e + 2 <= n)%nat ->
    exists rs s', _flatten_nested_records_in n e pp pd s = Ok rs s'.
Proof.
  induction e as [t a x cs IH] using Element_forall_ind.
  intros n pp pd s Hn.
  assert (Hd : (1 <= depth (Elem t a x cs))%nat) by (cbn [depth]; lia).
  destruct n as [|[|[|n]]]; try lia. cbn [_flatten_nested_records_in children].
  destruct (add_text_dotted _ _) as [current_data s1].
  destruct cs as [|c cs'].
  - destruct current_data; now eexists _, _.
  - assert (Hloop : forall path,
              exists rs s',
                extend_each_child_in (_flatten_nested_records_in (S (S n))) path
                  current_data (c :: cs') [] s1 = Ok rs s').
    { intros path. apply extend_each_child_in_fits. apply Forall_forall.
      intros k Hk pp0 pd0 s0. rewrite Forall_forall in IH. apply (IH k Hk).
      pose proof (depth_child (Elem t a x (c :: cs')) k Hk). lia. }
    destruct (_ && _); apply Hloop.
Qed.

Lemma collect_records_in_fits n elements path :
  Forall (fun e => (depth e + 2 <= n)%nat) elements ->
  forall rs s, exists rs' s', collect_records_in n elements path rs s = Ok rs' s'.
Proof.
  induction 1 as [|e es He _ IH]; intros rs s; cbn [collect_records_in].
  - now eexists _, _.
  - destruct (element_to_record_in_fits n e path s He) as [r [s1 ->]]. apply IH.
Qed.

Lemma strategy1_in_fits n patterns root path :
  (depth root + 1 <= n)%nat ->
  forall rs s, exists flow s', strategy1_in n patterns root path rs s = Ok flow s'.
Proof.
  intros Hn. induction patterns as [|p ps IH]; intros rs s; cbn [strategy1_in].
  - now eexists _, _.
  - assert (Hf : Forall (fun e => (depth e + 2 <= n)%nat) (findall_descendants p root)).
    { apply Forall_forall. intros d Hd. unfold findall_descendants in Hd.
      apply filter_In in Hd. destruct Hd as [Hd _].
      pose proof (depth_proper_descendant root d Hd). lia. }
    destruct (findall_descendants p root) as [|e es]; [apply IH|].
    destruct (1 <? _)%nat; [|apply IH].
    match goal with |- context [collect_records_in n ?l path rs ?s0] =>
      destruct (collect_records_in_fits n l path Hf rs s0) as [rs1 [s1 ->]] end.
    destruct rs1; [apply IH | now eexists _, _].
Qed.

Lemma strategy2_in_fits n cs path :
  Forall (fun c => Forall (fun e => (depth e + 2 <= n)%nat) (children c)) cs ->
  forall rs s, exists flow s', strategy2_in n cs path rs s = Ok flow s'.
Proof.
  induction 1 as [|c cs Hc _ IH]; intros rs s; cbn [strategy2_in].
  - now eexists _, _.
  - destruct (children c) as [|g gs]; [apply IH|].
    destruct (is_collection _); [|apply IH].
    match goal with |- context [collect_records_in n ?l path rs ?s0] =>
      destruct (collect_records_in_fits n l path Hc rs s0) as [rs1 [s1 ->]] end.
    destruct rs1; [apply IH | now eexists _, _].
Qed.

Lemma strategy3_in_fits n root path rs s :
  (depth root + 1 <= n)%nat ->
  exists flow s', strategy3_in n root path rs s = Ok flow s'.
Proof.
  intros Hn. unfold strategy3_in.
  assert (Hc : Forall (fun e => (depth e + 2 <= n)%nat) (children root)).
  { apply Forall_forall. intros c Hc. pose proof (depth_child root c Hc). lia. }
  destruct (children root) as [|c cs]; [now eexists _, _|].
  destruct (is_collection _); [|now eexists _, _].
  match goal with |- context [collect_records_in n ?l path rs ?s0] =>
    destruct (collect_records_in_fits n l path Hc rs s0) as [rs1 [s1 ->]] end.
  now eexists _, _.
Qed.

Lemma extract_records_smart_in_fits n root path s :
  (depth root + 2 <= n)%nat ->
  exists rs s', _extract_records_smart_in n root path s = Ok rs s'.
Proof.
  intros Hn. unfold _extract_records_smart_in. destruct n as [|n]; [lia|].
  destruct (strategy1_in_fits n journey_patterns root path ltac:(lia) [] s)
    as [[r1|r1] [s1 ->]]; [now eexists _, _|].
  assert (H2 : Forall (fun c => Forall (fun e => (depth e + 2 <= n)%nat) (children c))
                      (children root)).
  { apply Forall_forall. intros c Hc. apply Forall_forall. intros g Hg.
    pose proof (depth_child root c Hc). pose proof (depth_child c g Hg). lia. }
  destruct (strategy2_in_fits n (children root) path H2 r1 s1)
    as [[r2|r2] [s2 ->]]; [now eexists _, _|].
  destruct (strategy3_in_fits n root path r2 s2 ltac:(lia))
    as [[r3|r3] [s3 ->]]; now eexists _, _.
Qed.

(** When the depth of the tree is at least two less than the frames that
    are left, the extraction runs to its end, and returns what the source
    reads. *)
Lemma extract_records_in_fits n root path s :
  (depth root + 2 <= n)%nat ->
  extract_records_in n root path s
  = Ok (fst (extract_records root path s)) (snd (extract_records root path s)).
Proof.
  intros Hn.
  assert (H : exists rs s', extract_records_in n root path s = Ok rs s').
  { unfold extract_records_in.
    destruct (extract_records_smart_in_fits n root path s Hn) as [rs [s1 ->]].
    destruct rs; [|now eexists _, _].
    now apply flatten_nested_records_in_fits. }
  destruct H as [rs [s' H]].
  now rewrite H, (extract_records_in_unbounded _ _ _ _ _ _ H).
Qed.

(** *** Trees that do not fit *)

Lemma list_max_attained l : l <> [] -> In (list_max l) l.
Proof.
  induction l as [|x l IH]; [congruence|]. intros _.
  change (list_max (x :: l)) with (Nat.max x (list_max l)).
  destruct l as [|y l].
  - cbn [list_max fold_right]. rewrite Nat.max_0_r. now left.
  - destruct (Nat.max_dec x (list_max (y :: l))) as [->| ->]; [now left|].
    right. apply IH. discriminate.
Qed.

Lemma deepest_child e :
  children e <> [] -> exists c, In c (children e) /\ depth e = S (depth c).
Proof.
  intros H. destruct e as [t a x cs]. cbn [children depth] in *.
  assert (Hm : map depth cs <> []) by (destruct cs; [congruence | discriminate]).
  apply list_max_attained, in_map_iff in Hm. destruct Hm as [c [E Hc]].
  exists c. split; [exact Hc | now rewrite E].
Qed.

Lemma extend_each_child_in_raises rec path data cs :
  Exists (fun c => forall pp pd s, exists s', rec c pp pd s = RecursionError s') cs ->
  forall records s,
    exists s', extend_each_child_in rec path data cs records s = RecursionError s'.
Proof.
  induction 1 as [c cs Hc|c cs _ IH]; intros records s; cbn [extend_each_child_in].
  - destruct (Hc path data s) as [s' ->]. now exists s'.
  - destruct (rec c path data s) as [r1 s1|s1]; [apply IH | now exists s1].
Qed.

(** The fallback visits every element, two calls below the call that
    visits it ([_get_element_path], then [_strip_namespace]): on a tree
    deeper than the frames that are left less two, it raises. *)
Lemma flatten_nested_records_in_raises :
  forall e n pp pd s,
    (n < depth e + 2)%nat ->
    exists s', _flatten_nested_records_in n e pp pd s = RecursionError s'.
Proof.
  induction e as [t a x cs IH] using Element_forall_ind.
  intros n pp pd s Hn. destruct n as [|[|[|n]]];
    cbn [_flatten_nested_records_in children]; try (now exists s).
  destruct (add_text_dotted _ _) as [current_data s1].
  destruct cs as [|c cs']; [cbn [depth children map list_max fold_right] in Hn; lia|].
  assert (Hloop : forall path,
            exists s',
              extend_each_child_in (_flatten_nested_records_in (S (S n))) path
                current_data (c :: cs') [] s1 = RecursionError s').
  { intros path. apply extend_each_child_in_raises.
    destruct (deepest_child (Elem t a x (c :: cs'))) as [k [Hk Hd]];
      [discriminate|].
    apply Exists_exists. exists k. split; [exact Hk|]. intros pp0 pd0 s0.
    rewrite Forall_forall in IH. apply (IH k Hk). lia. }
  destruct (_ && _); apply Hloop.
Qed.

(** A tree that is too deep, and in which strategies 1-3 find no record,
    yields no row: the fallback raises, or a strategy has raised before. *)
Lemma too_deep_no_rows env root path self :
  (frames env < depth root + 2)%nat ->
  fst (_extract_records_smart root path (announced path root self)) = [] ->
  fst (fst (process_xml_file env (mkSourceFile path (Parsed root)) self)) = [].
Proof.
  intros Hn Hs. unfold process_xml_file. cbn [parse filepath].
  fold (announced path root self). unfold extract_records_in.
  destruct (_extract_records_smart_in (frames env) root path (announced path root self))
    as [rs s1|s1] eqn:E; [|reflexivity].
  rewrite (extract_records_smart_in_unbounded _ _ _ _ _ _ E) in Hs.
  cbn [fst] in Hs. subst rs.
  destruct (flatten_nested_records_in_raises root (frames env) EmptyString []
              (print s1 "  → Using fallback extraction strategy...") Hn) as [s2 ->].
  reflexivity.
Qed.

(** *** Results and effects do not depend on the converter *)

Lemma apply_effects_app s l1 l2 :
  apply_effects s (l1 ++ l2) = apply_effects (apply_effects s l1) l2.
Proof. apply fold_left_app. Qed.

Lemma traced_ok {A : Type} (a : A) : traced (fun s => Ok a s).
Proof. now exists (Some a), []. Qed.

Lemma traced_error {A : Type} : traced (fun s => @RecursionError A s).
Proof. now exists None, []. Qed.

Lemma traced_bind {A B : Type} (f : Converter -> Outcome A)
    (g : A -> Converter -> Outcome B) :
  traced f -> (forall a, traced (g a)) ->
  traced (fun s => match f s with
                   | Ok a s' => g a s'
                   | RecursionError s' => RecursionError s'
                   end).
Proof.
  intros [[a|] [effs Hf]] Hg.
  - destruct (Hg a) as [res [effs2 Hg']]. exists res, (effs ++ effs2)%list.
    intros s. rewrite Hf. cbn [finish]. now rewrite Hg', apply_effects_app.
  - exists None, effs. intros s. now rewrite Hf.
Qed.

Lemma traced_after {A : Type} (f : Converter -> Outcome A) effs :
  traced f -> traced (fun s => f (apply_effects s effs)).
Proof.
  intros [res [effs2 Hf]]. exists res, (effs ++ effs2)%list.
  intros s. now rewrite Hf, apply_effects_app.
Qed.

Lemma traced_after_print {A : Type} (f : Converter -> Outcome A) line :
  traced f -> traced (fun s => f (print s line)).
Proof. exact (traced_after f [Prints line]). Qed.

Lemma traced_ext {A : Type} (f g : Converter -> Outcome A) :
  (forall s, f s = g s) -> traced f -> traced g.
Proof.
  intros E [res [effs Hf]]. exists res, effs. intros s. now rewrite <- E.
Qed.

Lemma add_attributes_flat_traced e p : forall r,
  traced_pair (fun s => add_attributes_flat e p (r, s)).
Proof.
  unfold add_attributes_flat. generalize (attrib e) as l.
  induction l as [|a l IH]; intros r; cbn [fold_left fst snd].
  - now exists r, [].
  - match goal with |- context [fold_left _ l (?r1, add_field _ ?k)] =>
      destruct (IH r1) as [r' [effs H]]; exists r', (Registers k :: effs) end.
    intros s. now rewrite H.
Qed.

Lemma add_attributes_dotted_traced e : forall r,
  traced_pair (fun s => add_attributes_dotted e (r, s)).
Proof.
  unfold add_attributes_dotted. generalize (attrib e) as l.
  induction l as [|a l IH]; intros r; cbn [fold_left fst snd].
  - now exists r, [].
  - match goal with |- context [fold_left _ l (?r1, add_field _ ?k)] =>
      destruct (IH r1) as [r' [effs H]]; exists r', (Registers k :: effs) end.
    intros s. now rewrite H.
Qed.

Lemma own_flat_traced e p r :
  traced_pair (fun s => add_text_flat e p (add_attributes_flat e p (r, s))).
Proof.
  destruct (add_attributes_flat_traced e p r) as [r1 [effs H]].
  unfold add_text_flat. destruct (text_content e) as [t|].
  - exists (dict_set r1 (flat_key p e EmptyString) t),
           (effs ++ [Registers (flat_key p e EmptyString)])%list.
    intros s. now rewrite H, apply_effects_app.
  - exists r1, effs. intros s. now rewrite H.
Qed.

Lemma own_dotted_traced e r :
  traced_pair (fun s => add_text_dotted e (add_attributes_dotted e (r, s))).
Proof.
  destruct (add_attributes_dotted_traced e r) as [r1 [effs H]].
  unfold add_text_dotted. destruct (text_content e) as [t|].
  - exists (dict_set r1 (_strip_namespace (tag e) ++ ".value") t),
           (effs ++ [Registers (_strip_namespace (tag e) ++ ".value")])%list.
    intros s. now rewrite H, apply_effects_app.
  - exists r1, effs. intros s. now rewrite H.
Qed.

Lemma flatten_each_child_in_traced rec np cs :
  Forall (fun c => forall p r, traced (fun s => rec c p (r, s))) cs ->
  forall r, traced (fun s => flatten_each_child_in rec np cs (r, s)).
Proof.
  induction 1 as [|c cs Hc _ IH]; intros r; cbn [flatten_each_child_in fst snd].
  - apply traced_ok.
  - exact (traced_bind (fun s => rec c np (r, s))
             (fun record self => flatten_each_child_in rec np cs (record, self))
             (Hc np r) IH).
Qed.

Lemma flatten_element_in_traced :
  forall e n p r, traced (fun s => _flatten_element_in n e p (r, s)).
Proof.
  induction e as [t a x cs IH] using Element_forall_ind.
  intros n p r. destruct n as [|[|n]]; cbn [_flatten_element_in fst snd children attrib].
  - apply traced_error.
  - destruct a; [|apply traced_error].
    destruct (text_content _); [apply traced_error|].
    destruct cs; [apply traced_ok | apply traced_error].
  - destruct (own_flat_traced (Elem t a x cs) p r) as [r1 [effs H]].
    apply (traced_ext
             (fun s => flatten_each_child_in (_flatten_element_in (S n))
                         (flat_key p (Elem t a x cs) "_") cs (r1, apply_effects s effs))).
    + intros s. now rewrite H.
    + apply (traced_after
               (fun s => flatten_each_child_in (_flatten_element_in (S n))
                           (flat_key p (Elem t a x cs) "_") cs (r1, s))).
      apply flatten_each_child_in_traced.
      eapply Forall_impl; [|exact IH]. intros c Hc p0 r0. apply Hc.
Qed.

Lemma element_to_record_in_traced n e path :
  traced (_element_to_record_in n e path).
Proof.
  unfold _element_to_record_in. destruct n as [|n]; [apply traced_error|].
  apply (traced_bind
           (fun s => _flatten_element_in n e EmptyString
                       ([("source_file", Path_name path)], s))
           (fun record self =>
              Ok (if (1 <? List.length record)%nat then record else []) self)).
  - apply flatten_element_in_traced.
  - intros r. apply traced_ok.
Qed.

Lemma collect_records_in_traced n elements path :
  forall rs, traced (collect_records_in n elements path rs).
Proof.
  induction elements as [|e es IH]; intros rs; cbn [collect_records_in].
  - apply traced_ok.
  - apply (traced_bind (_element_to_record_in n e path)
             (fun record self =>
                collect_records_in n es path
                  match record with [] => rs | _ :: _ => (rs ++ [record])%list end self)).
    + apply element_to_record_in_traced.
    + intros r. apply IH.
Qed.

Lemma strategy1_in_traced n patterns root path :
  forall rs, traced (strategy1_in n patterns root path rs).
Proof.
  induction patterns as [|p ps IH]; intros rs; cbn [strategy1_in].
  - apply traced_ok.
  - destruct (findall_descendants p root) as [|e es] eqn:E; [apply IH|].
    destruct (1 <? _)%nat; [|apply IH].
    match goal with |- traced (fun s => match collect_records_in n ?l path rs (print s ?line)
                                        with _ => _ end) =>
      apply (traced_after_print
               (fun s => match collect_records_in n l path rs s with
                         | Ok records self =>
                             match records with
                             | _ :: _ => Ok (Returned records) self
                             | [] => strategy1_in n ps root path records self
                             end
                         | RecursionError self => RecursionError self
                         end) line);
      apply (traced_bind (collect_records_in n l path rs)
               (fun records self =>
                  match records with
                  | _ :: _ => Ok (Returned records) self
                  | [] => strategy1_in n ps root path records self
                  end))
    end.
    + apply collect_records_in_traced.
    + intros [|r0 rs0]; [apply IH | apply traced_ok].
Qed.

Lemma strategy2_in_traced n cs path :
  forall rs, traced (strategy2_in n cs path rs).
Proof.
  induction cs as [|c cs IH]; intros rs; cbn [strategy2_in].
  - apply traced_ok.
  - destruct (children c) as [|g gs] eqn:E; [apply IH|].
    destruct (is_collection _); [|apply IH].
    match goal with |- traced (fun s => match collect_records_in n ?l path rs (print s ?line)
                                        with _ => _ end) =>
      apply (traced_after_print
               (fun s => match collect_records_in n l path rs s with
                         | Ok records self =>
                             match records with
                             | _ :: _ => Ok (Returned records) self
                             | [] => strategy2_in n cs path records self
                             end
                         | RecursionError self => RecursionError self
                         end) line);
      apply (traced_bind (collect_records_in n l path rs)
               (fun records self =>
                  match records with
                  | _ :: _ => Ok (Returned records) self
                  | [] => strategy2_in n cs path records self
                  end))
    end.
    + apply collect_records_in_traced.
    + intros [|r0 rs0]; [apply IH | apply traced_ok].
Qed.

Lemma strategy3_in_traced n root path rs :
  traced (strategy3_in n root path rs).
Proof.
  unfold strategy3_in. destruct (children root) as [|c cs] eqn:E; [apply traced_ok|].
  destruct (is_collection _); [|apply traced_ok].
  match goal with |- traced (fun s => match collect_records_in n ?l path rs (print s ?line)
                                      with _ => _ end) =>
    apply (traced_after_print
             (fun s => match collect_records_in n l path rs s with
                       | Ok records self => Ok (Returned records) self
                       | RecursionError self => RecursionError self
                       end) line);
    apply (traced_bind (collect_records_in n l path rs)
             (fun records self => Ok (Returned records) self))
  end.
  - apply collect_records_in_traced.
  - intros rs0. apply traced_ok.
Qed.

Lemma extract_records_smart_in_traced n root path :
  traced (_extract_records_smart_in n root path).
Proof.
  unfold _extract_records_smart_in. destruct n as [|n]; [apply traced_error|].
  apply (traced_bind (strategy1_in n journey_patterns root path [])
           (fun flow self =>
              match flow with
              | Returned records => Ok records self
              | Fallthrough records =>
                  match strategy2_in n (children root) path records self with
                  | RecursionError self => RecursionError self
                  | Ok (Returned records) self => Ok records self
                  | Ok (Fallthrough records) self =>
                      match strategy3_in n root path records self with
                      | RecursionError self => RecursionError self
                      | Ok (Returned records) self => Ok records self
                      | Ok (Fallthrough records) self => Ok records self
                      end
                  end
              end)).
  - apply strategy1_in_traced.
  - intros [r1|r1]; [apply traced_ok|].
    apply (traced_bind (strategy2_in n (children root) path r1)
             (fun flow self =>
                match flow with
                | Returned records => Ok records self
                | Fallthrough records =>
                    match strategy3_in n root path records self with
                    | RecursionError self => RecursionError self
                    | Ok (Returned records) self => Ok records self
                    | Ok (Fallthrough records) self => Ok records self
                    end
                end)).
    + apply strategy2_in_traced.
    + intros [r2|r2]; [apply traced_ok|].
      apply (traced_bind (strategy3_in n root path r2)
               (fun flow self =>
                  match flow with
                  | Returned records => Ok records self
                  | Fallthrough records => Ok records self
                  end)).
      * apply strategy3_in_traced.
      * intros [r3|r3]; apply traced_ok.
Qed.

Lemma extend_each_child_in_traced rec path data cs :
  Forall (fun c => forall pp pd, traced (rec c pp pd)) cs ->
  forall records, traced (extend_each_child_in rec path data cs records).
Proof.
  induction 1 as [|c cs Hc _ IH]; intros records; cbn [extend_each_child_in].
  - apply traced_ok.
  - apply (traced_bind (rec c path data)
             (fun child_records self =>
                extend_each_child_in rec path data cs (records ++ child_records)%list self)).
    + apply Hc.
    + intros r. apply IH.
Qed.

Lemma flatten_nested_records_in_traced :
  forall e n pp pd, traced (_flatten_nested_records_in n e pp pd).
Proof.
  induction e as [t a x cs IH] using Element_forall_ind.
  intros n pp pd. destruct n as [|[|[|n]]];
    cbn [_flatten_nested_records_in children]; try apply traced_error.
  destruct (own_dotted_traced (Elem t a x cs) pd) as [current_data [effs H]].
  set (path := _get_element_path (Elem t a x cs) pp).
  apply (traced_ext
           (fun s =>
              match cs with
              | [] => match current_data with
                      | [] => Ok [] (apply_effects s effs)
                      | _ :: _ => Ok [current_data] (apply_effects s effs)
                      end
              | _ :: _ =>
                  extend_each_child_in (_flatten_nested_records_in (S (S n))) path
                    current_data cs [] (apply_effects s effs)
              end)).
  - intros s. rewrite H. destruct cs as [|c cs']; [reflexivity|].
    now destruct (_ && _).
  - destruct cs as [|c cs'].
    + destruct current_data;
        [exact (traced_after (fun s => Ok [] s) effs (traced_ok _))
        |exact (traced_after (fun s => Ok [_] s) effs (traced_ok _))].
    + apply (traced_after
               (extend_each_child_in (_flatten_nested_records_in (S (S n))) path
                  current_data (c :: cs') [])).
      apply extend_each_child_in_traced.
      eapply Forall_impl; [|exact IH]. intros k Hk pp0 pd0. apply Hk.
Qed.

Lemma extract_records_in_traced n root path :
  traced (extract_records_in n root path).
Proof.
  unfold extract_records_in.
  apply (traced_ext
           (fun s => match _extract_records_smart_in n root path s with
                     | Ok records self =>
                         match records with
                         | [] => _flatten_nested_records_in n root EmptyString []
                                   (print self "  → Using fallback extraction strategy...")
                         | _ :: _ => Ok records self
                         end
                     | RecursionError self => RecursionError self
                     end)).
  - intros s. destruct (_extract_records_smart_in n root path s) as [[|r rs] s1|s1];
      reflexivity.
  - apply (traced_bind (_extract_records_smart_in n root path)
             (fun records self =>
                match records with
                | [] => _flatten_nested_records_in n root EmptyString []
                          (print self "  → Using fallback extraction strategy...")
                | _ :: _ => Ok records self
                end)).
    + apply extract_records_smart_in_traced.
    + intros [|r rs]; [|apply traced_ok].
      apply (traced_after_print (_flatten_nested_records_in n root EmptyString [])).
      apply flatten_nested_records_in_traced.
Qed.

(** What [process_xml_file] returns, and what it does to the converter,
    depends on the interpreter and the file only: it registers keys and
    prints, the same ones whatever converter it starts from. *)
Lemma process_xml_file_traced env f :
  exists rows effects, forall s,
    process_xml_file env f s = ((rows, List.length rows), apply_effects s effects).
Proof.
  unfold process_xml_file. destruct (parse f) as [root|msg|msg].
  - destruct (extract_records_in_traced (frames env) root (filepath f))
      as [[records|] [effs H]].
    + eexists (map (ensure_source_file (Path_name (filepath f))) records),
        ([Prints _; Prints _; Prints _; Prints _] ++ effs ++ [Prints _])%list.
      intros s. rewrite !apply_effects_app. cbn [apply_effects fold_left apply_effect].
      rewrite H. cbn [finish]. reflexivity.
    + eexists [], ([Prints _; Prints _; Prints _; Prints _] ++ effs ++ [Prints _])%list.
      intros s. rewrite !apply_effects_app. cbn [apply_effects fold_left apply_effect].
      rewrite H. cbn [finish]. reflexivity.
  - eexists [], [Prints _]. intros s. reflexivity.
  - eexists [], [Prints _]. intros s. reflexivity.
Qed.

Lemma apply_effects_state (Q : Converter -> Prop) :
  (forall s k, Q s -> Q (add_field s k)) ->
  (forall s line, Q s -> Q (print s line)) ->
  forall effects s, Q s -> Q (apply_effects s effects).
Proof.
  intros Qa Qp. induction effects as [|[k|line] l IH]; intros s H;
    cbn [apply_effects fold_left apply_effect]; [exact H | |];
    apply IH; [now apply Qa | now apply Qp].
Qed.

(** Processing a file changes the converter only by registering keys and
    printing, also when the extraction is cut short by an exception. *)
Lemma process_xml_file_state (Q : Converter -> Prop) :
  (forall s k, Q s -> Q (add_field s k)) ->
  (forall s line, Q s -> Q (print s line)) ->
  forall env f s, Q s -> Q (snd (process_xml_file env f s)).
Proof.
  intros Qa Qp env f s H. destruct (process_xml_file_traced env f) as [rows [effs E]].
  rewrite E. now apply apply_effects_state.
Qed.

(** Only [extend] touches the accumulated rows. *)
Lemma process_xml_file_keeps_data env f s :
  extracted_data (snd (process_xml_file env f s)) = extracted_data s.
Proof.
  apply (process_xml_file_state (fun s' => extracted_data s' = extracted_data s));
    auto.
Qed.

(** Registered keys are never withdrawn. *)
Lemma process_xml_file_keeps_fields env f s :
  incl (field_names s) (field_names (snd (process_xml_file env f s))).
Proof.
  apply (process_xml_file_state (fun s' => incl (field_names s) (field_names s'))).
  - intros s' k H x Hx. cbn [add_field field_names]. apply set_add_incl. now apply H.
  - auto.
  - apply incl_refl.
Qed.

Lemma process_xml_file_count env f s :
  snd (fst (process_xml_file env f s))
  = List.length (fst (fst (process_xml_file env f s))).
Proof.
  destruct (process_xml_file_traced env f) as [rows [effs E]]. now rewrite E.
Qed.

Lemma process_xml_file_rows env f s1 s2 :
  fst (fst (process_xml_file env f s1)) = fst (fst (process_xml_file env f s2)).
Proof.
  destruct (process_xml_file_traced env f) as [rows [effs E]]. now rewrite !E.
Qed.

(** A file either yields no row, or it has parsed and its rows are those
    that the source's extraction returns, completed with the file name. *)
Lemma process_xml_file_route env f s :
  fst (fst (process_xml_file env f s)) = []
  \/ exists root,
       parse f = Parsed root
       /\ fst (fst (process_xml_file env f s))
          = map (ensure_source_file (Path_name (filepath f)))
                (fst (extract_records root (filepath f) (announced (filepath f) root s)))
       /\ field_names (snd (process_xml_file env f s))
          = field_names (snd (extract_records root (filepath f)
                                (announced (filepath f) root s))).
Proof.
  unfold process_xml_file. destruct (parse f) as [root|msg|msg];
    [|now left|now left].
  fold (announced (filepath f) root s).
  destruct (extract_records_in _ _ _ _) as [rs s1|s1] eqn:E; [|now left].
  right. exists root. rewrite (extract_records_in_unbounded _ _ _ _ _ _ E).
  now repeat split.
Qed.

(** A tree that fits the frames is processed to the end. *)
Lemma process_xml_file_fits env path root s :
  (depth root + 2 <= frames env)%nat ->
  process_xml_file env (mkSourceFile path (Parsed root)) s
  = let records := map (ensure_source_file (Path_name path))
                       (fst (extract_records root path (announced path root s))) in
    ((records, List.length records),
     print (snd (extract_records root path (announced path root s)))
       ("  ✓ Extracted " ++ PyStr.of_nat (List.length records) ++ " records")).
Proof.
  intros Hn. unfold process_xml_file. cbn [parse filepath].
  fold (announced path root s).
  now rewrite (extract_records_in_fits _ _ _ _ Hn).
Qed.

(** A tree that does not fit the frames yields no row, and the error is
    printed as an unexpected one. *)
Lemma process_xml_file_cut env path root s s1 :
  extract_records_in (frames env) root path (announced path root s)
  = RecursionError s1 ->
  process_xml_file env (mkSourceFile path (Parsed root)) s
  = (([], 0%nat), print s1 ("  ✗ Unexpected error: " ++ recursion_message)).
Proof.
  intros E. unfold process_xml_file. cbn [parse filepath].
  fold (announced path root s). now rewrite E.
Qed.

(* ------------------------------------------------------------------ *)
(** ** [source_file] in every row *)

Lemma has_source_file_set r k v :
  PyStr.contains_char "@"%char k = true \/ v <> EmptyString ->
  has_source_file r -> has_source_file (dict_set r k v).
Proof.
  intros Hkv [Hin Hval]. split.
  - rewrite keys_dict_set. apply inb_In, set_add_incl, inb_In, Hin.
  - destruct (string_dec k "source_file") as [->|Hne].
    + rewrite dict_get_set_same. destruct Hkv as [H|H]; [discriminate H | exact H].
    + rewrite dict_get_set_other by exact Hne. exact Hval.
Qed.

Lemma element_to_record_source_file e path s :
  Path_name path <> EmptyString ->
  fst (_element_to_record e path s) = []
  \/ has_source_file (fst (_element_to_record e path s)).
Proof.
  intros Hname. unfold _element_to_record.
  pose proof (flatten_element_inv (fun st => has_source_file (fst st))
                (fun r s0 k v Hkv H => has_source_file_set r k v Hkv H)
                e EmptyString ([("source_file", Path_name path)], s)) as H.
  destruct (_flatten_element _ _ _) as [record s']. simpl in *.
  destruct (1 <? _)%nat; [right | now left].
  apply H. split; [reflexivity | exact Hname].
Qed.

Lemma smart_records_source_file root path s :
  Path_name path <> EmptyString ->
  Forall has_source_file (fst (_extract_records_smart root path s)).
Proof.
  intros Hname.
  apply (extract_records_smart_inv (fun st => Forall has_source_file (fst st)) path).
  - auto.
  - intros e rs s0 H. simpl in *.
    destruct (element_to_record_source_file e path s0 Hname) as [E|E].
    + rewrite E. exact H.
    + destruct (fst (_element_to_record e path s0)) eqn:Er; [exact H|].
      simpl. apply Forall_app. split; [exact H | now constructor].
  - constructor.
Qed.

Lemma no_source_file_set r k v :
  PyStr.contains_char "."%char k = true ->
  inb "source_file" (keys r) = false ->
  inb "source_file" (keys (dict_set r k v)) = false.
Proof.
  intros Hk H. rewrite keys_dict_set. apply inb_false. intros Hin.
  apply set_add_inv in Hin. destruct Hin as [<-|Hin]; [discriminate Hk|].
  apply inb_false in H. contradiction.
Qed.

(** No row of the fallback has the key [source_file]: its keys all contain
    a dot. *)
Lemma fallback_rows_no_source_file e pp s :
  Forall (fun r => inb "source_file" (keys r) = false)
         (fst (_flatten_nested_records e pp [] s)).
Proof.
  apply (fallback_inv (fun st => inb "source_file" (keys (fst st)) = false)).
  - intros r s0 k v Hk H. now apply no_source_file_set.
  - auto.
  - reflexivity.
Qed.

Lemma ensure_source_file_has filename r :
  filename <> EmptyString ->
  has_source_file r \/ inb "source_file" (keys r) = false ->
  has_source_file (ensure_source_file filename r).
Proof.
  intros Hname [H|H]; unfold ensure_source_file.
  - destruct H as [Hin Hval]. rewrite Hin. now split.
  - rewrite H. split.
    + rewrite keys_dict_set. apply inb_In, set_add_In.
    + now rewrite dict_get_set_same.
Qed.

Lemma ensure_source_file_id filename r :
  has_source_file r -> ensure_source_file filename r = r.
Proof. intros [Hin _]. unfold ensure_source_file. now rewrite Hin. Qed.

Lemma extract_records_source_file root path s :
  Path_name path <> EmptyString ->
  Forall (fun r => has_source_file r \/ inb "source_file" (keys r) = false)
         (fst (extract_records root path s)).
Proof.
  intros Hname. unfold extract_records.
  pose proof (smart_records_source_file root path s Hname) as H.
  destruct (_extract_records_smart root path s) as [records s1].
  cbn [fst] in H. destruct records as [|r rs].
  - eapply Forall_impl; [|apply fallback_rows_no_source_file]. intros; now right.
  - eapply Forall_impl; [|exact H]. intros; now left.
Qed.

Lemma process_xml_file_source_file env f s :
  Path_name (filepath f) <> EmptyString ->
  Forall has_source_file (fst (fst (process_xml_file env f s))).
Proof.
  intros Hname.
  destruct (process_xml_file_route env f s) as [->|[root [_ [-> _]]]]; [constructor|].
  apply Forall_map.
  eapply Forall_impl; [|apply extract_records_source_file; exact Hname].
  intros r Hr. now apply ensure_source_file_has.
Qed.

Lemma process_each_source_file env files :
  Forall (fun f => Path_name (filepath f) <> EmptyString) files ->
  forall n s,
    Forall has_source_file (extracted_data s) ->
    Forall has_source_file (extracted_data (snd (process_each env files n s))).
Proof.
  induction 1 as [|f fs Hf _ IH]; intros n s H; simpl; [exact H|].
  pose proof (process_xml_file_source_file env f s Hf) as H1.
  pose proof (process_xml_file_keeps_data env f s) as E.
  destruct (process_xml_file env f s) as [[records count] s1]. simpl in H1, E.
  apply IH. simpl. rewrite E. now apply Forall_app.
Qed.

Lemma run_data_init env folder files :
  exists n s, run env folder files = process_each env files n s
              /\ extracted_data s = [] /\ field_names s = ["source_file"].
Proof.
  unfold run, process_all_files. destruct files as [|f fs].
  - eexists 0, _. split; [reflexivity | split; reflexivity].
  - eexists 0, _. split; [reflexivity | split; reflexivity].
Qed.

Lemma save_to_csv_data io fields path s :
  extracted_data (snd (save_to_csv io fields path s))
  = map (ensure_source_file "unknown") (extracted_data s).
Proof.
  unfold save_to_csv. destruct (extracted_data s) as [|r rs] eqn:E.
  - simpl. now rewrite E.
  - destruct io; [destruct (Csv.write _ _)|]; reflexivity.
Qed.

(** C5: every emitted row contains the key [source_file] with a non-empty
    value, whichever strategy produced it (record-root or fallback), and the
    rows handed to the CSV writer are those rows unchanged.  File paths come
    from the folder enumeration [glob("**/*.xml")], whose results end in a
    non-empty file name. *)
Theorem every_row_has_source_file :
  forall env folder files,
    Forall (fun f => Path_name (filepath f) <> EmptyString) files ->
    Forall has_source_file (extracted_data (snd (run env folder files)))
    /\ forall io fields path,
         extracted_data (snd (save_to_csv io fields path (snd (run env folder files))))
         = extracted_data (snd (run env folder files)).
Proof.
  intros env folder files Hnames.
  assert (H : Forall has_source_file (extracted_data (snd (run env folder files)))).
  { destruct (run_data_init env folder files) as [n [s [-> [E _]]]].
    apply process_each_source_file; [exact Hnames|]. rewrite E. constructor. }
  split; [exact H|]. intros io fields path. rewrite save_to_csv_data.
  induction H as [|r rs Hr _ IH]; simpl; [reflexivity|].
  now rewrite IH, ensure_source_file_id.
Qed.

Lemma every_row_has_source_file_witness :
  Forall (fun f => Path_name (filepath f) <> EmptyString)
         [stops_file; journey_file; corrupt_file]
  /\ Forall has_source_file
            (extracted_data
               (snd (run python "data" [stops_file; journey_file; corrupt_file]))).
Proof.
  assert (H : Forall (fun f => Path_name (filepath f) <> EmptyString)
                     [stops_file; journey_file; corrupt_file])
    by (repeat constructor; vm_compute; discriminate).
  split; [exact H | exact (proj1 (every_row_has_source_file python "data" _ H))].
Defined.

(* ------------------------------------------------------------------ *)
(** ** Every key of a row is registered *)

Lemma keys_registered_set r s k v :
  incl (keys r) (field_names s) ->
  incl (keys (dict_set r k v)) (field_names (add_field s k)).
Proof.
  intros H x Hx. rewrite keys_dict_set in Hx. simpl.
  apply set_add_inv in Hx. destruct Hx as [->|Hx].
  - apply set_add_In.
  - apply set_add_incl. now apply H.
Qed.

(** Record-root flattening registers each key as it writes it. *)
Lemma flatten_element_registered e prefix st :
  incl (keys (fst st)) (field_names (snd st)) ->
  incl (keys (fst (_flatten_element e prefix st)))
       (field_names (snd (_flatten_element e prefix st))).
Proof.
  apply (flatten_element_inv
           (fun st => incl (keys (fst st)) (field_names (snd st)))).
  intros r s k v _ H. now apply keys_registered_set.
Qed.

Lemma element_to_record_registered e path s :
  In "source_file" (field_names s) ->
  incl (keys (fst (_element_to_record e path s)))
       (field_names (snd (_element_to_record e path s))).
Proof.
  intros Hsf. unfold _element_to_record.
  pose proof (flatten_element_registered e EmptyString
                ([("source_file", Path_name path)], s)) as H.
  destruct (_flatten_element _ _ _) as [record s']. simpl in *.
  destruct (1 <? _)%nat; [|intros x []].
  apply H. intros x [<-|[]]. exact Hsf.
Qed.

Lemma element_to_record_keeps_fields e path s :
  incl (field_names s) (field_names (snd (_element_to_record e path s))).
Proof.
  apply (element_to_record_state (fun s' => incl (field_names s) (field_names s'))).
  - intros s' k H x Hx. simpl. apply set_add_incl. now apply H.
  - apply incl_refl.
Qed.

Lemma smart_records_registered root path s :
  In "source_file" (field_names s) ->
  Forall (fun r => incl (keys r) (field_names (snd (_extract_records_smart root path s))))
         (fst (_extract_records_smart root path s)).
Proof.
  intros Hsf.
  refine (proj2 (extract_records_smart_inv
           (fun st => In "source_file" (field_names (snd st))
                      /\ Forall (fun r => incl (keys r) (field_names (snd st))) (fst st))
           path _ _ root s _)).
  - intros rs s0 line H. exact H.
  - intros e rs s0 [H1 H2]. simpl in *.
    pose proof (element_to_record_registered e path s0 H1) as Hr.
    pose proof (element_to_record_keeps_fields e path s0) as Hm.
    split; [now apply Hm|].
    assert (Hrs : Forall (fun r => incl (keys r)
                            (field_names (snd (_element_to_record e path s0)))) rs).
    { eapply Forall_impl; [|exact H2]. intros r H x Hx. now apply Hm, H. }
    destruct (fst (_element_to_record e path s0)); simpl; [exact Hrs|].
    apply Forall_app. split; [exact Hrs | now constructor].
  - split; [exact Hsf | constructor].
Qed.

Lemma fallback_rows_registered e pp s :
  Forall (fun r => incl (keys r) (field_names (snd (_flatten_nested_records e pp [] s))))
         (fst (_flatten_nested_records e pp [] s)).
Proof.
  refine (proj1 (fallback_inv
           (fun st => incl (keys (fst st)) (field_names (snd st))) _ _ e pp [] s _)).
  - intros r s0 k v _ H. now apply keys_registered_set.
  - intros r s0 k H x Hx. simpl. apply set_add_incl. now apply H.
  - intros x [].
Qed.

Lemma ensure_source_file_registered filename r fields :
  In "source_file" fields -> incl (keys r) fields ->
  incl (keys (ensure_source_file filename r)) fields.
Proof.
  intros Hsf H. unfold ensure_source_file.
  destruct (inb "source_file" (keys r)); [exact H|].
  intros x Hx. rewrite keys_dict_set in Hx. apply set_add_inv in Hx.
  destruct Hx as [->|Hx]; [exact Hsf | now apply H].
Qed.

Lemma extract_records_registered root path s :
  In "source_file" (field_names s) ->
  In "source_file" (field_names (snd (extract_records root path s)))
  /\ Forall (fun r => incl (keys r) (field_names (snd (extract_records root path s))))
            (fst (extract_records root path s)).
Proof.
  intros Hsf. split.
  - apply (extract_records_state (fun s' => In "source_file" (field_names s'))); auto.
    intros s' k H'. now apply set_add_incl.
  - unfold extract_records.
    pose proof (smart_records_registered root path s Hsf) as H.
    destruct (_extract_records_smart root path s) as [records s1].
    cbn [fst snd] in H. destruct records as [|r rs]; [|exact H].
    apply fallback_rows_registered.
Qed.

Lemma process_xml_file_registered env f s :
  In "source_file" (field_names s) ->
  Forall (fun r => incl (keys r) (field_names (snd (process_xml_file env f s))))
         (fst (fst (process_xml_file env f s))).
Proof.
  intros Hsf.
  destruct (process_xml_file_route env f s) as [->|[root [_ [-> E]]]]; [constructor|].
  destruct (extract_records_registered root (filepath f)
              (announced (filepath f) root s) Hsf) as [Hsf1 H].
  apply Forall_map. eapply Forall_impl; [|exact H].
  intros r Hr. rewrite E. now apply ensure_source_file_registered.
Qed.

(** One step of the run: a file is processed and its records are appended. *)
Lemma registered_step env f s :
  registered s ->
  registered (extend_data (snd (process_xml_file env f s))
                (fst (fst (process_xml_file env f s)))).
Proof.
  intros [Hsf Hrows]. unfold registered. simpl.
  pose proof (process_xml_file_keeps_fields env f s) as Hm.
  split; [now apply Hm|].
  rewrite process_xml_file_keeps_data. apply Forall_app. split.
  - eapply Forall_impl; [|exact Hrows]. intros r H x Hx. now apply Hm, H.
  - now apply process_xml_file_registered.
Qed.

Lemma registered_process_each env files :
  forall n s, registered s -> registered (snd (process_each env files n s)).
Proof.
  induction files as [|f fs IH]; intros n s H; simpl; [exact H|].
  pose proof (registered_step env f s H) as H1.
  destruct (process_xml_file env f s) as [[records count] s1]. now apply IH.
Qed.

Lemma registered_run env folder files : registered (snd (run env folder files)).
Proof.
  destruct (run_data_init env folder files) as [n [s [-> [E F]]]].
  apply registered_process_each. unfold registered. rewrite E, F.
  split; [now left | constructor].
Qed.

(* ------------------------------------------------------------------ *)
(** ** Sorting and the column order *)

Lemma str_le_trans a b c : str_le a b -> str_le b c -> str_le a c.
Proof.
  unfold str_le, String.leb. revert b c.
  induction a as [|x a IH]; intros [|y b] [|z c]; simpl; try easy.
  unfold Ascii.compare.
  destruct (N.compare_spec (N_of_ascii x) (N_of_ascii y)) as [Exy|Lxy|Gxy];
    try easy;
    destruct (N.compare_spec (N_of_ascii y) (N_of_ascii z)) as [Eyz|Lyz|Gyz];
    try easy;
    destruct (N.compare_spec (N_of_ascii x) (N_of_ascii z)) as [Exz|Lxz|Gxz];
    try easy; try lia.
  apply IH.
Qed.

Lemma str_le_total a b : str_le a b \/ str_le b a.
Proof. apply String.leb_total. Qed.

Lemma str_le_antisym a b : str_le a b -> str_le b a -> a = b.
Proof. apply String.leb_antisym. Qed.

Lemma insert_sorted_perm x l : Permutation (insert_sorted x l) (x :: l).
Proof.
  induction l as [|y l IH]; simpl; [reflexivity|].
  destruct (String.leb x y); [reflexivity|].
  rewrite IH. apply perm_swap.
Qed.

Lemma sorted_perm l : Permutation (sorted l) l.
Proof.
  induction l as [|x l IH]; simpl; [reflexivity|].
  rewrite insert_sorted_perm. now constructor.
Qed.

Lemma insert_sorted_ascending x l :
  StronglySorted str_le l -> StronglySorted str_le (insert_sorted x l).
Proof.
  induction 1 as [|y l Hl IH Hy]; simpl.
  - constructor; constructor.
  - destruct (String.leb x y) eqn:E.
    + constructor; [now constructor|]. constructor; [exact E|].
      eapply Forall_impl; [|exact Hy]. intros z Hz.
      now apply str_le_trans with y.
    + constructor; [exact IH|].
      assert (Hyx : str_le y x).
      { destruct (str_le_total x y) as [H|H]; [|exact H].
        unfold str_le in H. congruence. }
      eapply Permutation_Forall; [symmetry; apply insert_sorted_perm|].
      now constructor.
Qed.

Lemma sorted_ascending l : StronglySorted str_le (sorted l).
Proof.
  induction l as [|x l IH]; simpl; [constructor | now apply insert_sorted_ascending].
Qed.

(** An ascending arrangement of given elements is unique. *)
Lemma ascending_unique l1 :
  forall l2, StronglySorted str_le l1 -> StronglySorted str_le l2 ->
             Permutation l1 l2 -> l1 = l2.
Proof.
  induction l1 as [|a l1 IH]; intros l2 H1 H2 Hp.
  - apply Permutation_nil in Hp. now subst.
  - destruct l2 as [|b l2]; [apply Permutation_sym, Permutation_nil in Hp; discriminate|].
    inversion H1 as [|? ? Hs1 Ha]; subst. inversion H2 as [|? ? Hs2 Hb]; subst.
    assert (a = b) as ->.
    { assert (Hab : In a (b :: l2)) by (eapply Permutation_in; [exact Hp | now left]).
      assert (Hba : In b (a :: l1))
        by (eapply Permutation_in; [symmetry; exact Hp | now left]).
      destruct Hab as [->|Hab]; [reflexivity|].
      destruct Hba as [->|Hba]; [reflexivity|].
      rewrite Forall_forall in Ha, Hb.
      apply str_le_antisym; [now apply Ha | now apply Hb]. }
    f_equal. apply IH; try assumption. eapply Permutation_cons_inv; exact Hp.
Qed.

(** [sorted] depends on the set only, not on the order of enumeration. *)
Lemma sorted_enumeration l1 l2 : Permutation l1 l2 -> sorted l1 = sorted l2.
Proof.
  intros Hp. apply ascending_unique; try apply sorted_ascending.
  rewrite !sorted_perm. exact Hp.
Qed.

Lemma list_remove_perm x l :
  inb x l = true -> Permutation l (x :: list_remove x l).
Proof.
  induction l as [|y l IH]; simpl; [discriminate|].
  destruct (String.eqb_spec y x) as [->|Hne]; [reflexivity|].
  intros H. rewrite (IH H) at 1. apply perm_swap.
Qed.

Lemma prioritize_perm priority :
  forall ordered rest,
    Permutation (fst (prioritize priority ordered rest)
                 ++ snd (prioritize priority ordered rest))%list
                (ordered ++ rest)%list.
Proof.
  induction priority as [|p ps IH]; intros ordered rest; simpl; [reflexivity|].
  destruct (inb p rest) eqn:E; [|apply IH].
  rewrite IH, <- app_assoc. simpl.
  apply Permutation_app_head. symmetry. now apply list_remove_perm.
Qed.

(** The header holds exactly the registered keys. *)
Lemma column_order_perm fields : Permutation (column_order fields) fields.
Proof.
  unfold column_order.
  pose proof (prioritize_perm priority_fields [] (sorted fields)) as H.
  destruct (prioritize _ _ _) as [o r]. simpl in H.
  rewrite H. apply sorted_perm.
Qed.

Lemma column_order_enumeration l1 l2 :
  Permutation l1 l2 -> column_order l1 = column_order l2.
Proof. intros H. unfold column_order. now rewrite (sorted_enumeration l1 l2 H). Qed.

Lemma dict_to_list_some fieldnames row :
  incl (keys row) fieldnames ->
  Csv.dict_to_list fieldnames row
  = Some (map (fun k => dict_get row k EmptyString) fieldnames).
Proof.
  intros H. unfold Csv.dict_to_list.
  replace (forallb _ (keys row)) with true; [reflexivity|].
  symmetry. apply forallb_forall. intros k Hk. apply inb_In. now apply H.
Qed.

(** The writer never raises when the header covers the keys of every row. *)
Lemma writerows_complete fieldnames rows :
  Forall (fun row => incl (keys row) fieldnames) rows ->
  forall content, exists text,
    Csv.writerows fieldnames rows content = Csv.Complete text.
Proof.
  induction 1 as [|row rows Hrow _ IH]; intros content; simpl.
  - now exists content.
  - rewrite (dict_to_list_some _ _ Hrow). apply IH.
Qed.

Lemma save_to_csv_never_fails io fields path s :
  Forall (fun row => incl (keys row) (column_order fields))
         (extracted_data (snd (save_to_csv io fields path s))) ->
  forall partial, fst (save_to_csv io fields path s) <> Failed partial.
Proof.
  intros H partial. rewrite save_to_csv_data in H. unfold save_to_csv.
  destruct (extracted_data s) as [|r rs]; [discriminate|].
  destruct io; [|discriminate].
  cbn [set_data extracted_data]. unfold Csv.write.
  destruct (writerows_complete _ _ H (Csv.record (column_order fields)))
    as [text ->].
  discriminate.
Qed.

(** C4: the registry invariant.  [source_file] is registered from the start
    and every key of every accumulated row is registered: this holds for a
    fresh converter, is kept by each step of the run (a file is processed
    and its records appended), and so holds when the run ends.  The header
    of the CSV, built from any enumeration of the registry, then contains
    every key of every row written, and the writer never meets an
    undeclared column. *)
Theorem row_keys_always_registered :
  forall env folder files,
    registered (init env folder)
    /\ (forall f s,
          registered s ->
          registered (extend_data (snd (process_xml_file env f s))
                                  (fst (fst (process_xml_file env f s)))))
    /\ registered (snd (run env folder files))
    /\ (forall io fields path,
          Permutation fields (field_names (snd (run env folder files))) ->
          Forall (fun row => incl (keys row) (column_order fields))
                 (extracted_data
                    (snd (save_to_csv io fields path (snd (run env folder files)))))
          /\ forall partial,
               fst (save_to_csv io fields path (snd (run env folder files)))
               <> Failed partial).
Proof.
  intros env folder files.
  split; [split; [now left | constructor]|].
  split; [exact (registered_step env)|].
  split; [apply registered_run|].
  intros io fields path Hp.
  assert (H : Forall (fun row => incl (keys row) (column_order fields))
                (extracted_data
                   (snd (save_to_csv io fields path (snd (run env folder files)))))).
  { destruct (registered_run env folder files) as [Hsf Hrows].
    rewrite save_to_csv_data. apply Forall_map.
    eapply Forall_impl; [|exact Hrows]. intros r Hr x Hx.
    eapply Permutation_in; [symmetry; apply column_order_perm|].
    eapply Permutation_in; [symmetry; exact Hp|].
    revert x Hx. now apply ensure_source_file_registered. }
  split; [exact H | now apply save_to_csv_never_fails].
Qed.

Lemma row_keys_always_registered_witness :
  Permutation
    (rev (field_names (snd (run python "data" [stops_file; journey_file]))))
    (field_names (snd (run python "data" [stops_file; journey_file])))
  /\ Forall (fun row => incl (keys row)
               (column_order
                  (rev (field_names (snd (run python "data" [stops_file; journey_file]))))))
       (extracted_data
          (snd (save_to_csv Writable
                  (rev (field_names (snd (run python "data" [stops_file; journey_file]))))
                  "data/bus_data_combined.csv"
                  (snd (run python "data" [stops_file; journey_file]))))).
Proof.
  assert (Hp : Permutation
                 (rev (field_names (snd (run python "data" [stops_file; journey_file]))))
                 (field_names (snd (run python "data" [stops_file; journey_file]))))
    by (symmetry; apply Permutation_rev).
  split; [exact Hp|].
  exact (proj1 (proj2 (proj2 (proj2
           (row_keys_always_registered python "data" [stops_file; journey_file])))
           Writable _ "data/bus_data_combined.csv" Hp)).
Defined.

Lemma filter_twice (f g : string -> bool) l :
  List.filter f (List.filter g l) = List.filter (fun x => g x && f x) l.
Proof.
  induction l as [|x l IH]; simpl; [reflexivity|].
  destruct (g x); simpl; [destruct (f x)|]; now rewrite IH.
Qed.

Lemma inb_filter (f : string -> bool) q l :
  inb q (List.filter f l) = inb q l && f q.
Proof.
  induction l as [|x l IH]; simpl; [reflexivity|].
  destruct (f x) eqn:Ef; simpl.
  - destruct (String.eqb_spec x q) as [->|Hne]; [now rewrite Ef | exact IH].
  - destruct (String.eqb_spec x q) as [->|Hne]; [|exact IH].
    rewrite IH, Ef. now rewrite andb_false_r.
Qed.

Lemma list_remove_filter x l :
  NoDup l -> list_remove x l = List.filter (fun y => negb (String.eqb y x)) l.
Proof.
  induction 1 as [|y l Hy Hl IH]; simpl; [reflexivity|].
  destruct (String.eqb_spec y x) as [->|Hne]; simpl; [|now rewrite IH].
  symmetry. apply forallb_filter_id. apply forallb_forall. intros z Hz.
  destruct (String.eqb_spec z x) as [->|]; [contradiction | reflexivity].
Qed.

Lemma StronglySorted_filter (f : string -> bool) l :
  StronglySorted str_le l -> StronglySorted str_le (List.filter f l).
Proof.
  induction 1 as [|x l Hl IH Hx]; simpl; [constructor|].
  destruct (f x); [|exact IH]. constructor; [exact IH|].
  rewrite Forall_forall in *. intros y Hy. apply filter_In in Hy. now apply Hx.
Qed.

Lemma first_occurrences_In x l : In x (first_occurrences l) <-> In x l.
Proof.
  induction l as [|y l IH]; simpl; [tauto|].
  rewrite filter_In, IH. destruct (String.eqb_spec x y) as [->|Hne]; simpl.
  - split; auto.
  - split; [intros [H|[H _]]; auto | intros [H|H]; [now left | now right]].
Qed.

Lemma first_occurrences_NoDup l : NoDup (first_occurrences l).
Proof.
  induction l as [|y l IH]; simpl; constructor.
  - rewrite filter_In, String.eqb_refl. intros [_ H]. discriminate.
  - now apply NoDup_filter.
Qed.

(** What the priority loop computes, in closed form. *)
Lemma prioritize_closed_form priority :
  forall ordered rest,
    NoDup rest ->
    prioritize priority ordered rest
    = ((ordered ++ List.filter (fun p => inb p rest) (first_occurrences priority))%list,
       List.filter (fun f => negb (inb f priority)) rest).
Proof.
  induction priority as [|p ps IH]; intros ordered rest Hnd; simpl.
  - rewrite app_nil_r. f_equal. symmetry. apply forallb_filter_id.
    apply forallb_forall. reflexivity.
  - destruct (inb p rest) eqn:E.
    + rewrite IH, list_remove_filter by
        (try rewrite list_remove_filter by exact Hnd; try apply NoDup_filter; exact Hnd).
      rewrite <- app_assoc. simpl.
      f_equal; [apply (f_equal (app ordered)), (f_equal (cons p))|].
      * rewrite filter_twice. apply filter_ext. intros q.
        now rewrite inb_filter, andb_comm.
      * rewrite filter_twice. apply filter_ext. intros q.
        rewrite (String.eqb_sym q p). now destruct (String.eqb p q).
    + rewrite IH by exact Hnd. f_equal; [apply (f_equal (app ordered))|].
      * rewrite filter_twice. apply filter_ext. intros q.
        destruct (String.eqb_spec q p) as [->|Hne]; simpl.
        -- now rewrite E.
        -- reflexivity.
      * apply filter_ext_in. intros q Hq.
        destruct (String.eqb_spec p q) as [->|Hne]; [|reflexivity].
        apply inb_In in Hq. congruence.
Qed.

Lemma inb_perm q l1 l2 : Permutation l1 l2 -> inb q l1 = inb q l2.
Proof.
  intros Hp. destruct (inb q l2) eqn:E.
  - apply inb_In. apply inb_In in E. eapply Permutation_in; [symmetry|]; eassumption.
  - apply inb_false. apply inb_false in E. intros H. apply E.
    eapply Permutation_in; eassumption.
Qed.

Lemma column_order_closed_form fields :
  NoDup fields -> column_order fields = column_order_spec fields.
Proof.
  intros Hnd. unfold column_order, column_order_spec.
  rewrite prioritize_closed_form
    by (eapply Permutation_NoDup; [symmetry; apply sorted_perm | exact Hnd]).
  cbv beta iota. cbn [app].
  apply (f_equal (fun l => (l ++ _)%list)).
  apply filter_ext. intros q. apply inb_perm, sorted_perm.
Qed.

(** C2: the column order is the priority names that are registered, in the
    order of the priority list and each once, followed by all the other
    registered keys in ascending (lexicographic) order; so every priority
    column that is present precedes every alphabetically ordered column. *)
Theorem column_order_priority_then_sorted :
  forall fields,
    NoDup fields ->
    let present := List.filter (fun p => inb p fields) (first_occurrences priority_fields) in
    let others := List.filter (fun f => negb (inb f priority_fields)) (sorted fields) in
    column_order fields = (present ++ others)%list
    /\ column_order fields = column_order_spec fields
    /\ NoDup present
    /\ (forall k, In k present <-> In k priority_fields /\ In k fields)
    /\ StronglySorted str_le others
    /\ (forall k, In k others <-> In k fields /\ ~ In k priority_fields).
Proof.
  intros fields Hnd present others.
  split; [exact (column_order_closed_form fields Hnd)|].
  split; [exact (column_order_closed_form fields Hnd)|].
  split; [apply NoDup_filter, first_occurrences_NoDup|].
  split.
  { intros k. unfold present. rewrite filter_In, first_occurrences_In, inb_In. tauto. }
  split; [apply StronglySorted_filter, sorted_ascending|].
  intros k. unfold others. rewrite filter_In, negb_true_iff, inb_false.
  split; intros [H1 H2]; (split; [|exact H2]).
  - eapply Permutation_in; [apply sorted_perm | exact H1].
  - eapply Permutation_in; [symmetry; apply sorted_perm | exact H1].
Qed.

Lemma column_order_priority_then_sorted_witness :
  NoDup ["zeta"; "Time"; "Stop_@id"; "source_file"; "Stop"; "Route"; "alpha"]
  /\ column_order ["zeta"; "Time"; "Stop_@id"; "source_file"; "Stop"; "Route"; "alpha"]
     = (["source_file"; "Route"; "Stop"; "Time"] ++ ["Stop_@id"; "alpha"; "zeta"])%list.
Proof.
  assert (Hnd : NoDup ["zeta"; "Time"; "Stop_@id"; "source_file"; "Stop"; "Route"; "alpha"]).
  { repeat (constructor; [simpl; intuition discriminate|]). constructor. }
  split; [exact Hnd|].
  exact (proj1 (column_order_priority_then_sorted _ Hnd)).
Defined.

Lemma set_add_NoDup s k : NoDup s -> NoDup (set_add s k).
Proof.
  intros H. unfold set_add. destruct (inb k s) eqn:E; [exact H|].
  apply inb_false in E.
  eapply Permutation_NoDup; [apply Permutation_cons_append|]. now constructor.
Qed.

Lemma process_each_NoDup env files : forall n s,
  NoDup (field_names s) -> NoDup (field_names (snd (process_each env files n s))).
Proof.
  induction files as [|f fs IH]; intros n s H0; simpl; [exact H0|].
  pose proof (process_xml_file_state (fun s' => NoDup (field_names s'))
                (fun s' k H => set_add_NoDup _ k H) (fun s' l H => H) env f s H0) as H1.
  destruct (process_xml_file env f s) as [[records count] s1]. apply IH. exact H1.
Qed.

(** The registry of a run is a set: no key is registered twice, so every
    enumeration of it is duplicate-free. *)
Lemma run_fields_NoDup env folder files fields :
  Permutation fields (field_names (snd (run env folder files))) -> NoDup fields.
Proof.
  intros Hp. eapply Permutation_NoDup; [symmetry; exact Hp|].
  destruct (run_data_init env folder files) as [n [s [-> [_ F]]]].
  apply process_each_NoDup. rewrite F. repeat constructor. simpl. tauto.
Qed.

(** C9: the CSV is the same whatever the order in which Python enumerates
    the set of field names: two runs on the same files, in the same file
    order, write byte-identical output ([sorted] removes the only source of
    variation between runs). *)
Theorem csv_output_deterministic :
  forall env io folder files fields1 fields2 path,
    Permutation fields1 (field_names (snd (run env folder files))) ->
    Permutation fields2 (field_names (snd (run env folder files))) ->
    save_to_csv io fields1 path (snd (run env folder files))
    = save_to_csv io fields2 path (snd (run env folder files)).
Proof.
  intros env io folder files fields1 fields2 path H1 H2.
  unfold save_to_csv.
  rewrite (column_order_enumeration fields1 fields2); [reflexivity|].
  rewrite H1. now symmetry.
Qed.

Lemma csv_output_deterministic_witness :
  Permutation (field_names (snd (run python "data" [stops_file; journey_file])))
              (field_names (snd (run python "data" [stops_file; journey_file])))
  /\ Permutation (rev (field_names (snd (run python "data" [stops_file; journey_file]))))
                 (field_names (snd (run python "data" [stops_file; journey_file])))
  /\ save_to_csv Writable
       (field_names (snd (run python "data" [stops_file; journey_file])))
       "data/bus_data_combined.csv" (snd (run python "data" [stops_file; journey_file]))
     = save_to_csv Writable
         (rev (field_names (snd (run python "data" [stops_file; journey_file]))))
         "data/bus_data_combined.csv" (snd (run python "data" [stops_file; journey_file])).
Proof.
  assert (H1 : Permutation
                 (field_names (snd (run python "data" [stops_file; journey_file])))
                 (field_names (snd (run python "data" [stops_file; journey_file]))))
    by reflexivity.
  assert (H2 : Permutation
                 (rev (field_names (snd (run python "data" [stops_file; journey_file]))))
                 (field_names (snd (run python "data" [stops_file; journey_file]))))
    by (symmetry; apply Permutation_rev).
  split; [exact H1|]. split; [exact H2|].
  exact (csv_output_deterministic python Writable "data" [stops_file; journey_file] _ _
           "data/bus_data_combined.csv" H1 H2).
Defined.

(* ------------------------------------------------------------------ *)
(** ** Rows and registered keys do not depend on the log *)

Lemma same_data_add s1 s2 k :
  same_data s1 s2 -> same_data (add_field s1 k) (add_field s2 k).
Proof. intros [H1 H2]. split; simpl; congruence. Qed.

Lemma same_data_print_both s1 s2 l1 l2 :
  same_data s1 s2 -> same_data (print s1 l1) (print s2 l2).
Proof. intros [H1 H2]. now split. Qed.

Lemma apply_effects_same effects : forall s1 s2,
  same_data s1 s2 ->
  same_data (apply_effects s1 effects) (apply_effects s2 effects).
Proof.
  induction effects as [|[k|line] l IH]; intros s1 s2 H;
    cbn [apply_effects fold_left apply_effect]; [exact H| |];
    apply IH; [now apply same_data_add | now apply same_data_print_both].
Qed.

(** What a file yields, and what it registers, does not depend on what was
    printed before. *)
Lemma process_xml_file_same env f s1 s2 :
  same_data s1 s2 ->
  same_outcome (process_xml_file env f s1) (process_xml_file env f s2).
Proof.
  intros H. destruct (process_xml_file_traced env f) as [rows [effs E]].
  rewrite !E. split; [reflexivity|]. now apply apply_effects_same.
Qed.

Lemma process_each_same env files :
  forall n s1 s2, same_data s1 s2 ->
    same_outcome (process_each env files n s1) (process_each env files n s2).
Proof.
  induction files as [|f fs IH]; intros n s1 s2 H; simpl; [now split|].
  destruct (process_xml_file_same env f s1 s2 H) as [E D].
  destruct (process_xml_file env f s1) as [[r1 c1] t1].
  destruct (process_xml_file env f s2) as [[r2 c2] t2].
  simpl in E, D. injection E as -> ->.
  apply IH. destruct D as [D1 D2]. split; simpl; congruence.
Qed.

(* ------------------------------------------------------------------ *)
(** ** The keys of record-root flattening *)

Lemma str_app_assoc (a b c : string) : (a ++ b) ++ c = a ++ b ++ c.
Proof. induction a as [|x a IH]; simpl; [reflexivity | now rewrite IH]. Qed.

Lemma str_app_nil_r (a : string) : a ++ EmptyString = a.
Proof. induction a as [|x a IH]; simpl; [reflexivity | now rewrite IH]. Qed.

Lemma prefix_app (a b : string) : String.prefix a (a ++ b) = true.
Proof.
  induction a as [|x a IH]; simpl; [now destruct b|].
  destruct (ascii_dec x x); [exact IH | contradiction].
Qed.

Lemma prefix_of_snoc ancestors t :
  prefix_of (ancestors ++ [t]) = prefix_of ancestors ++ t ++ "_".
Proof.
  induction ancestors as [|a l IH]; simpl; [reflexivity|].
  now rewrite IH, !str_app_assoc.
Qed.

(** Joining the path with underscores is the prefix followed by the tag. *)
Lemma concat_path ancestors t :
  String.concat "_" (ancestors ++ [t]) = prefix_of ancestors ++ t.
Proof.
  induction ancestors as [|a l IH]; simpl; [reflexivity|].
  rewrite str_app_assoc. simpl. rewrite <- IH.
  destruct (l ++ [t])%list eqn:E; [destruct l; discriminate | reflexivity].
Qed.

Lemma flat_key_path ancestors e suffix :
  flat_key (prefix_of ancestors) e suffix
  = String.concat "_" (ancestors ++ [_strip_namespace (tag e)]) ++ suffix.
Proof. now rewrite flat_key_eq, concat_path, str_app_assoc. Qed.

Lemma fold_set_add_In l : forall init k,
  In k (fold_left set_add l init) <-> In k init \/ In k l.
Proof.
  induction l as [|x l IH]; intros init k; simpl; [tauto|].
  rewrite IH. split.
  - intros [H|H]; [|tauto]. apply set_add_inv in H. destruct H as [->|H]; tauto.
  - intros [H|[->|H]]; [left; now apply set_add_incl | left; apply set_add_In | tauto].
Qed.

(** What a state looks like once the keys [ks] have been written to the
    record and registered, in this order. *)
Lemma add_attributes_flat_keys ancestors e : forall st,
  keys (fst (add_attributes_flat e (prefix_of ancestors) st))
  = fold_left set_add
      (map (fun a => String.concat "_" (ancestors ++ [_strip_namespace (tag e)])
                     ++ "_@" ++ _strip_namespace (fst a)) (attrib e))
      (keys (fst st))
  /\ field_names (snd (add_attributes_flat e (prefix_of ancestors) st))
     = fold_left set_add
         (map (fun a => String.concat "_" (ancestors ++ [_strip_namespace (tag e)])
                        ++ "_@" ++ _strip_namespace (fst a)) (attrib e))
         (field_names (snd st)).
Proof.
  unfold add_attributes_flat. generalize (attrib e) as l.
  induction l as [|a l IH]; intros [r s]; cbn [fold_left map fst snd]; [now split|].
  match goal with |- context [fold_left _ l ?st1] =>
    destruct (IH st1) as [H1 H2] end.
  rewrite H1, H2. cbn [fst snd add_field field_names].
  now rewrite keys_dict_set, flat_key_path.
Qed.

Lemma add_text_flat_keys ancestors e st :
  let text_key :=
    match text_content e with
    | Some _ => [String.concat "_" (ancestors ++ [_strip_namespace (tag e)])]
    | None => []
    end in
  keys (fst (add_text_flat e (prefix_of ancestors) st))
  = fold_left set_add text_key (keys (fst st))
  /\ field_names (snd (add_text_flat e (prefix_of ancestors) st))
     = fold_left set_add text_key (field_names (snd st)).
Proof.
  unfold add_text_flat. destruct (text_content e);
    cbn [fold_left fst snd add_field field_names]; [|now split].
  now rewrite keys_dict_set, flat_key_path, str_app_nil_r.
Qed.

Lemma flatten_element_keys :
  forall e ancestors st,
    keys (fst (_flatten_element e (prefix_of ancestors) st))
    = fold_left set_add (element_keys ancestors e) (keys (fst st))
    /\ field_names (snd (_flatten_element e (prefix_of ancestors) st))
       = fold_left set_add (element_keys ancestors e) (field_names (snd st)).
Proof.
  induction e as [t a x cs IH] using Element_forall_ind.
  intros ancestors st. cbn [_flatten_element element_keys children].
  set (e := Elem t a x cs).
  rewrite !fold_left_app.
  destruct (add_attributes_flat_keys ancestors e st) as [A1 A2].
  destruct (add_text_flat_keys ancestors e
              (add_attributes_flat e (prefix_of ancestors) st)) as [T1 T2].
  cbv zeta in T1, T2. rewrite A1 in T1. rewrite A2 in T2.
  rewrite <- T1, <- T2.
  generalize (add_text_flat e (prefix_of ancestors)
                (add_attributes_flat e (prefix_of ancestors) st)) as st1.
  replace (flat_key (prefix_of ancestors) e "_")
    with (prefix_of (ancestors ++ [_strip_namespace (tag e)]))
    by (now rewrite prefix_of_snoc, flat_key_eq).
  clear A1 A2 T1 T2. subst e. cbn [tag].
  induction IH as [|c cs Hc _ IHcs]; intros st1; simpl; [now split|].
  rewrite !fold_left_app.
  destruct (Hc (ancestors ++ [_strip_namespace t])%list st1) as [C1 C2].
  rewrite <- C1, <- C2. apply IHcs.
Qed.

Lemma element_keys_start ancestors_head :
  forall e ancestors,
    hd (_strip_namespace (tag e)) ancestors = ancestors_head ->
    Forall (fun k => String.prefix ancestors_head k = true)
           (element_keys ancestors e).
Proof.
  induction e as [t a x cs IH] using Element_forall_ind.
  intros ancestors Hhd. cbn [element_keys children tag] in *.
  assert (Hpath : forall suffix,
            String.prefix ancestors_head
              (String.concat "_" (ancestors ++ [_strip_namespace t]) ++ suffix) = true).
  { intros suffix. destruct ancestors as [|h l]; simpl in Hhd |- *; subst.
    - apply prefix_app.
    - destruct (l ++ [_strip_namespace t])%list; [apply prefix_app|].
      rewrite !str_app_assoc. apply prefix_app. }
  apply Forall_app; split; [|apply Forall_app; split].
  - apply Forall_map, Forall_forall. intros b _. apply Hpath.
  - destruct (text_content _); constructor; [|constructor].
    rewrite <- (str_app_nil_r (String.concat _ _)). apply Hpath.
  - apply Forall_flat_map. eapply Forall_impl; [|exact IH].
    intros c Hc. apply Hc.
    destruct ancestors; simpl in *; exact Hhd.
Qed.

(** C7 (as the code has it): in record-root flattening the key of an
    element is the underscore-joined sequence of the local tag names from
    the record root, its own tag included, down to the element
    ([element_keys]), followed by [_@<attr>] for an attribute; so every key
    produced for the record root or its descendants begins with the record
    root's tag name. *)
Theorem record_keys_include_root_tag :
  forall e path self,
    let out := _flatten_element e EmptyString ([("source_file", Path_name path)], self) in
    keys (fst out) = fold_left set_add (element_keys [] e) ["source_file"]
    /\ field_names (snd out) = fold_left set_add (element_keys [] e) (field_names self)
    /\ Forall (fun k => String.prefix (_strip_namespace (tag e)) k = true)
              (element_keys [] e).
Proof.
  intros e path self out.
  destruct (flatten_element_keys e [] ([("source_file", Path_name path)], self))
    as [H1 H2].
  split; [exact H1|]. split; [exact H2|].
  now apply element_keys_start.
Qed.

(** C7 (as stated) fails: the keys of a [Stop] record root begin with
    [Stop], the record root's own tag. *)
Lemma stop_keys_begin_with_root_tag :
  keys (fst (_element_to_record (sample_stop "1" "Abbey") "data/stops.xml" (init python "data")))
  = ["source_file"; "Stop_@id"; "Stop_@name"]
  /\ String.prefix (_strip_namespace (tag (sample_stop "1" "Abbey"))) "Stop_@id" = true
  /\ ~ (forall k,
          In k (element_keys [] (sample_stop "1" "Abbey")) ->
          String.prefix (_strip_namespace (tag (sample_stop "1" "Abbey"))) k = false).
Proof.
  split; [reflexivity|]. split; [reflexivity|].
  intros H. specialize (H "Stop_@id" (or_introl eq_refl)). discriminate H.
Qed.

(* ------------------------------------------------------------------ *)
(** ** A file that does not parse *)

Lemma run_as_process_each env folder files :
  exists s, same_outcome (run env folder files) (process_each env files 0 s)
            /\ same_data s (init env folder)
            /\ (files <> [] -> run env folder files = process_each env files 0 s).
Proof.
  unfold run, process_all_files. destruct files as [|f fs].
  - exists (init env folder). repeat split. intros H. now contradiction H.
  - eexists. split; [split; [reflexivity | split; reflexivity]|].
    split; [split; reflexivity | reflexivity].
Qed.

Lemma process_each_app env pre : forall post n s,
  process_each env (pre ++ post) n s
  = process_each env post (fst (process_each env pre n s))
      (snd (process_each env pre n s)).
Proof.
  induction pre as [|f fs IH]; intros post n s; simpl; [reflexivity|].
  destruct (process_xml_file env f s) as [[records count] s1]. apply IH.
Qed.

Lemma process_each_keeps_log env line files : forall n s,
  In line (log s) -> In line (log (snd (process_each env files n s))).
Proof.
  induction files as [|f fs IH]; intros n s H; simpl; [exact H|].
  pose proof (process_xml_file_state (fun s' => In line (log s'))
                (fun s' k H' => H')
                (fun s' l H' => in_or_app _ _ _ (or_introl H')) env f s H) as H1.
  destruct (process_xml_file env f s) as [[records count] s1]. now apply IH.
Qed.

(** Removing a file that does not parse changes neither the rows nor the
    registered keys nor the count of the loop. *)
Lemma process_each_skips_unparsable env pre path msg post n s :
  same_outcome
    (process_each env (pre ++ mkSourceFile path (ParseError msg) :: post) n s)
    (process_each env (pre ++ post) n s).
Proof.
  rewrite !process_each_app.
  destruct (process_each env pre n s) as [n1 s1]. cbn [fst snd process_each].
  cbn [process_xml_file parse]. rewrite Nat.add_0_r.
  apply process_each_same. split; simpl; [apply app_nil_r | reflexivity].
Qed.

Lemma save_to_csv_same io fields path s1 s2 :
  same_data s1 s2 ->
  fst (save_to_csv io fields path s1) = fst (save_to_csv io fields path s2).
Proof.
  intros [H _]. unfold save_to_csv. rewrite <- H.
  destruct (extracted_data s1) as [|r rs] eqn:E; [reflexivity|].
  cbn [set_data extracted_data].
  destruct io; [destruct (Csv.write _ _)|]; reflexivity.
Qed.

(** C8 (as the code has it): a file that fails XML parsing contributes no
    row, and one diagnostic is printed for it, carrying the parser's
    message (which does not name the file); the other files are processed
    as if the file were absent: the run ends with the same rows, the same
    registered keys, the same count and the same CSV. *)
Theorem parse_failure_skips_file :
  forall env folder pre post path msg,
    let bad := mkSourceFile path (ParseError msg) in
    (forall s, process_xml_file env bad s
               = (([], 0), print s ("  ✗ Error parsing XML: " ++ msg)))
    /\ same_outcome (run env folder (pre ++ bad :: post)) (run env folder (pre ++ post))
    /\ In ("  ✗ Error parsing XML: " ++ msg)
          (log (snd (run env folder (pre ++ bad :: post))))
    /\ (forall io fields out,
          fst (save_to_csv io fields out (snd (run env folder (pre ++ bad :: post))))
          = fst (save_to_csv io fields out (snd (run env folder (pre ++ post))))).
Proof.
  intros env folder pre post path msg bad.
  assert (Hsame : same_outcome (run env folder (pre ++ bad :: post))
                               (run env folder (pre ++ post))).
  { destruct (run_as_process_each env folder (pre ++ bad :: post))
      as [s1 [[A1 A2] [B1 _]]].
    destruct (run_as_process_each env folder (pre ++ post)) as [s2 [[C1 C2] [D1 _]]].
    destruct (process_each_skips_unparsable env pre path msg post 0 s1) as [E1 E2].
    destruct (process_each_same env (pre ++ post) 0 s1 s2) as [F1 F2].
    { destruct B1, D1. split; congruence. }
    split.
    - rewrite A1, C1. fold bad in E1. congruence.
    - fold bad in E2. destruct A2, C2, E2, F2. split; congruence. }
  split; [reflexivity|]. split; [exact Hsame|].
  split; [|intros io fields out; apply save_to_csv_same; exact (proj2 Hsame)].
  destruct (run_as_process_each env folder (pre ++ bad :: post)) as [s1 [_ [_ ->]]];
    [|destruct pre; discriminate].
  rewrite process_each_app. cbn [process_each].
  cbn [process_xml_file parse bad]. apply process_each_keeps_log.
  simpl. apply in_or_app. right. now left.
Qed.

(** C8 (as stated) fails: in a run over a valid and a corrupt file the
    diagnostic for the corrupt file is the parser's message alone, and no
    line printed during the run contains the file's name. *)
Lemma corrupt_file_not_named :
  skipn (List.length (log (init python "data")))
        (log (snd (process_xml_file python corrupt_file (init python "data"))))
  = ["  ✗ Error parsing XML: syntax error: line 1, column 0"]
  /\ existsb (PyStr.contains (Path_name (filepath corrupt_file)))
             (log (snd (run python "data" [stops_file; corrupt_file]))) = false
  /\ existsb (PyStr.contains "Processing: stops.xml")
             (log (snd (run python "data" [stops_file; corrupt_file]))) = true.
Proof. repeat split; vm_compute; reflexivity. Qed.

(* ------------------------------------------------------------------ *)
(** ** Scenario A: three sibling [Stop] elements *)

Lemma filter_tag_quiet p ds :
  forallb (fun d => negb (inb (tag d) patterns_up_to_Stop)) ds = true ->
  In p patterns_up_to_Stop ->
  List.filter (fun e => String.eqb (tag e) p) ds = [].
Proof.
  intros H Hp. induction ds as [|d ds IH]; cbn [forallb List.filter] in *;
    [reflexivity|].
  apply andb_true_iff in H. destruct H as [Hd Hds].
  destruct (String.eqb_spec (tag d) p) as [E|_]; [|now apply IH].
  apply negb_true_iff, inb_false in Hd. subst p. contradiction.
Qed.

Lemma findall_in_stop p e :
  scenario_A_stop e -> In p patterns_up_to_Stop ->
  List.filter (fun d => String.eqb (tag d) p) (iter e)
  = if String.eqb "Stop" p then [e] else [].
Proof.
  intros [Ht [_ [_ Hq]]] Hp. destruct e as [t a x cs].
  cbn [tag children iter List.filter] in *. subst t.
  rewrite (filter_tag_quiet p _ Hq Hp). reflexivity.
Qed.

Lemma findall_three_stops p root s1 s2 s3 :
  children root = [s1; s2; s3] ->
  scenario_A_stop s1 -> scenario_A_stop s2 -> scenario_A_stop s3 ->
  In p patterns_up_to_Stop ->
  findall_descendants p root
  = if String.eqb "Stop" p then [s1; s2; s3] else [].
Proof.
  intros Hc H1 H2 H3 Hp. unfold findall_descendants. rewrite Hc.
  cbn [flat_map]. rewrite app_nil_r, !filter_app.
  rewrite (findall_in_stop p s1 H1 Hp), (findall_in_stop p s2 H2 Hp),
    (findall_in_stop p s3 H3 Hp).
  now destruct (String.eqb "Stop" p).
Qed.

Lemma two_distinct_members (a b : string) l :
  In a l -> In b l -> a <> b -> (2 <= List.length l)%nat.
Proof.
  intros Ha Hb Hne. destruct l as [|x [|y l]]; simpl in *;
    [contradiction | | lia].
  destruct Ha as [->|[]], Hb as [->|[]]. congruence.
Qed.

(** The record of a scenario-A [Stop] is kept, and its two attribute keys
    are registered. *)
Lemma stop_record e path s :
  scenario_A_stop e ->
  fst (_element_to_record e path s) <> []
  /\ In "Stop_@id" (field_names (snd (_element_to_record e path s)))
  /\ In "Stop_@name" (field_names (snd (_element_to_record e path s))).
Proof.
  intros [Ht [Hid [Hname _]]]. unfold _element_to_record.
  destruct (flatten_element_keys e [] ([("source_file", Path_name path)], s))
    as [K F].
  change (prefix_of []) with EmptyString in K, F.
  destruct (_flatten_element e EmptyString _) as [record s']. simpl in K, F.
  assert (Hkeys : forall a, In a (map fst (attrib e)) ->
                    In ("Stop_@" ++ _strip_namespace a) (element_keys [] e)).
  { intros a Ha. destruct e as [t at0 x cs]. simpl in Ht. subst t.
    cbn [element_keys tag attrib app]. apply in_or_app. left.
    apply in_map_iff in Ha. destruct Ha as [b [<- Hb]].
    apply in_map_iff. exists b. split; [reflexivity | exact Hb]. }
  assert (Kid : In "Stop_@id" (keys record))
    by (rewrite K; apply fold_set_add_In; right; exact (Hkeys "id" Hid)).
  split; [|split].
  - assert (L : (2 <= List.length (keys record))%nat).
    { apply (two_distinct_members "source_file" "Stop_@id");
        [rewrite K; apply fold_set_add_In; left; now left | exact Kid | discriminate]. }
    unfold keys in L. rewrite length_map in L.
    destruct (Nat.ltb_spec 1 (List.length record)) as [_|Hlt]; [|lia].
    destruct record; [simpl in L; lia | discriminate].
  - simpl. rewrite F. apply fold_set_add_In. right. exact (Hkeys "id" Hid).
  - simpl. rewrite F. apply fold_set_add_In. right. exact (Hkeys "name" Hname).
Qed.

Lemma collect_records_keeps_field k elements path : forall rs s,
  In k (field_names s) ->
  In k (field_names (snd (collect_records elements path rs s))).
Proof.
  intros rs s H.
  apply (collect_records_inv (fun st => In k (field_names (snd st))) path); auto.
  intros e rs0 s0 H0. simpl.
  apply (element_to_record_state (fun s' => In k (field_names s'))); auto.
  intros s' k' H'. now apply set_add_incl.
Qed.

Lemma collect_stop_records elements path :
  Forall scenario_A_stop elements ->
  forall rs s,
    List.length (fst (collect_records elements path rs s))
    = (List.length rs + List.length elements)%nat
    /\ (elements <> [] ->
        In "Stop_@id" (field_names (snd (collect_records elements path rs s)))
        /\ In "Stop_@name" (field_names (snd (collect_records elements path rs s)))).
Proof.
  induction 1 as [|e es He _ IH]; intros rs s; simpl.
  - split; [lia | congruence].
  - destruct (stop_record e path s He) as [Hne [Hid Hname]].
    destruct (_element_to_record e path s) as [record s1]. simpl in *.
    destruct record as [|kv record]; [congruence|].
    destruct (IH (rs ++ [kv :: record])%list s1) as [L _].
    split; [etransitivity; [exact L | rewrite length_app; simpl; lia]|].
    intros _. split; now apply collect_records_keeps_field.
Qed.

Lemma strategy1_skip p ps root path rs s :
  findall_descendants p root = [] ->
  strategy1 (p :: ps) root path rs s = strategy1 ps root path rs s.
Proof. intros H. simpl. now rewrite H. Qed.

Lemma smart_three_stops root path s s1 s2 s3 :
  children root = [s1; s2; s3] ->
  scenario_A_stop s1 -> scenario_A_stop s2 -> scenario_A_stop s3 ->
  List.length (fst (_extract_records_smart root path s)) = 3%nat
  /\ In "Stop_@id" (field_names (snd (_extract_records_smart root path s)))
  /\ In "Stop_@name" (field_names (snd (_extract_records_smart root path s))).
Proof.
  intros Hc H1 H2 H3. unfold _extract_records_smart, journey_patterns.
  assert (Hf : forall p, In p patterns_up_to_Stop ->
                 findall_descendants p root
                 = if String.eqb "Stop" p then [s1; s2; s3] else [])
    by (intros p; now apply findall_three_stops).
  do 5 (rewrite strategy1_skip by (rewrite Hf; [reflexivity | simpl; tauto])).
  cbn [strategy1]. rewrite Hf by (simpl; tauto). cbn [String.eqb Ascii.eqb Bool.eqb].
  cbn [List.length Nat.ltb Nat.leb].
  match goal with |- context [collect_records ?l path [] ?s0] =>
    destruct (collect_stop_records l path
                (Forall_cons _ H1 (Forall_cons _ H2 (Forall_cons _ H3 (Forall_nil _))))
                [] s0) as [L R];
    destruct (collect_records l path [] s0) as [records s'] end.
  simpl in L, R. destruct records as [|r rs]; [simpl in L; lia|].
  simpl. split; [exact L | apply R; discriminate].
Qed.

Lemma extract_three_stops root path s s1 s2 s3 :
  children root = [s1; s2; s3] ->
  scenario_A_stop s1 -> scenario_A_stop s2 -> scenario_A_stop s3 ->
  List.length (fst (extract_records root path s)) = 3%nat
  /\ In "Stop_@id" (field_names (snd (extract_records root path s)))
  /\ In "Stop_@name" (field_names (snd (extract_records root path s))).
Proof.
  intros Hc H1 H2 H3. unfold extract_records.
  destruct (smart_three_stops root path s s1 s2 s3 Hc H1 H2 H3) as [L H].
  destruct (_extract_records_smart root path s) as [records s'].
  cbn [fst snd] in L, H. destruct records as [|r rs]; [discriminate L|].
  cbn [fst snd]. auto.
Qed.

Lemma process_three_stops env root path s s1 s2 s3 :
  (depth root + 2 <= frames env)%nat ->
  children root = [s1; s2; s3] ->
  scenario_A_stop s1 -> scenario_A_stop s2 -> scenario_A_stop s3 ->
  List.length (fst (fst (process_xml_file env (mkSourceFile path (Parsed root)) s)))
  = 3%nat
  /\ snd (fst (process_xml_file env (mkSourceFile path (Parsed root)) s)) = 3%nat
  /\ In "Stop_@id"
        (field_names (snd (process_xml_file env (mkSourceFile path (Parsed root)) s)))
  /\ In "Stop_@name"
        (field_names (snd (process_xml_file env (mkSourceFile path (Parsed root)) s))).
Proof.
  intros Hn Hc H1 H2 H3. rewrite (process_xml_file_fits env path root s Hn).
  cbv zeta. cbn [fst snd print field_names]. rewrite length_map.
  destruct (extract_three_stops root path (announced path root s) s1 s2 s3 Hc H1 H2 H3)
    as [L [Hid Hname]].
  auto.
Qed.

(** C3 (scenario A, as the code has it): for a document whose root holds
    exactly three [Stop] elements, each with the attributes [id] and
    [name], with nothing below them tagged [Journey], [Leg], [Segment],
    [Connection], [Route] or [Stop], and nested no deeper than the
    interpreter's frames allow, processing the file yields exactly three
    rows, and the registered columns, hence the header built from any
    enumeration of them, include [Stop_@id], [Stop_@name] and
    [source_file]. *)
Theorem scenario_A_three_rows :
  forall env folder path root s1 s2 s3,
    (depth root + 2 <= frames env)%nat ->
    children root = [s1; s2; s3] ->
    scenario_A_stop s1 -> scenario_A_stop s2 -> scenario_A_stop s3 ->
    let out := run env folder [mkSourceFile path (Parsed root)] in
    fst out = 3%nat
    /\ List.length (extracted_data (snd out)) = 3%nat
    /\ (forall fields,
          Permutation fields (field_names (snd out)) ->
          In "Stop_@id" (column_order fields)
          /\ In "Stop_@name" (column_order fields)
          /\ In "source_file" (column_order fields)).
Proof.
  intros env folder path root s1 s2 s3 Hn Hc H1 H2 H3 out.
  assert (Hout : fst out = 3%nat
                 /\ List.length (extracted_data (snd out)) = 3%nat
                 /\ In "Stop_@id" (field_names (snd out))
                 /\ In "Stop_@name" (field_names (snd out))).
  { subst out. unfold run, process_all_files. cbn [process_each].
    match goal with |- context [process_xml_file env ?f ?s0] =>
      destruct (process_three_stops env root path s0 s1 s2 s3 Hn Hc H1 H2 H3)
        as [L [N [Hid Hname]]];
      pose proof (process_xml_file_keeps_data env f s0) as Hd;
      destruct (process_xml_file env f s0) as [[records count] s'] end.
    cbn [fst snd] in *. cbn [extend_data extracted_data field_names fst snd].
    rewrite Hd. cbn [print find_xml_files init extracted_data app].
    subst count. auto. }
  destruct Hout as [A [B [C D]]].
  split; [exact A|]. split; [exact B|].
  intros fields Hp.
  assert (Hin : forall k, In k (field_names (snd out)) -> In k (column_order fields)).
  { intros k Hk. eapply Permutation_in; [symmetry; apply column_order_perm|].
    eapply Permutation_in; [symmetry; exact Hp | exact Hk]. }
  repeat split; apply Hin; auto.
  apply (registered_run env folder [mkSourceFile path (Parsed root)]).
Qed.

Lemma scenario_A_three_rows_witness :
  (depth sample_stops + 2 <= frames python)%nat
  /\ children sample_stops
     = [sample_stop "1" "Abbey"; sample_stop "2" "Bridge"; sample_stop "3" "Castle"]
  /\ scenario_A_stop (sample_stop "1" "Abbey")
  /\ scenario_A_stop (sample_stop "2" "Bridge")
  /\ scenario_A_stop (sample_stop "3" "Castle")
  /\ fst (run python "data" [stops_file]) = 3%nat
  /\ List.length (extracted_data (snd (run python "data" [stops_file]))) = 3%nat.
Proof.
  assert (Hs : forall i n, scenario_A_stop (sample_stop i n)).
  { intros i n. unfold scenario_A_stop. simpl. tauto. }
  assert (Hn : (depth sample_stops + 2 <= frames python)%nat)
    by (vm_compute; repeat constructor).
  split; [exact Hn|]. split; [reflexivity|]. repeat (split; [apply Hs|]).
  pose proof (scenario_A_three_rows python "data" "data/stops.xml" sample_stops _ _ _
                Hn eq_refl (Hs "1" "Abbey") (Hs "2" "Bridge") (Hs "3" "Castle")) as H.
  exact (conj (proj1 H) (proj1 (proj2 H))).
Defined.

(** C3 (as stated) fails.  Three sibling [Stop] elements with [id] and
    [name], one of which holds two [Leg] elements: strategy 1 meets the
    pattern [Leg] before [Stop], so the file yields two rows, one per
    [Leg], and no column [Stop_@id].  And when one [Stop] holds a subtree
    nested deeper than the interpreter's frames, the flattening of that
    [Stop] raises, the records of the file are lost and the file yields
    no row. *)
Lemma stops_holding_legs_two_rows :
  (let out := run python "data" [mkSourceFile "data/stops.xml" (Parsed stops_with_legs)] in
   fst out = 2%nat
   /\ List.length (extracted_data (snd out)) = 2%nat
   /\ column_order (field_names (snd out)) = ["source_file"; "Leg_@to"])
  /\ (let out := run python "data" [mkSourceFile "data/stops.xml" (Parsed stops_with_chain)] in
      fst out = 0%nat
      /\ extracted_data (snd out) = []
      /\ existsb (String.eqb ("  ✗ Unexpected error: " ++ recursion_message))
                 (log (snd out)) = true).
Proof. vm_compute. repeat split. Qed.

(* ================================================================== *)
(** ** Further properties of the converter *)

(* ------------------------------------------------------------------ *)
(** *** Namespace stripping *)

Lemma split_pieces_no_delimiter c s :
  Forall (fun piece => PyStr.contains_char c piece = false) (PyStr.split c s).
Proof.
  induction s as [|d s IH]; cbn [PyStr.split].
  - repeat constructor.
  - destruct (Ascii.eqb d c) eqn:E; [now constructor|].
    destruct (PyStr.split c s) as [|h t]; [repeat constructor; simpl; now rewrite E|].
    inversion IH; subst. constructor; [simpl; now rewrite E | assumption].
Qed.

(** The result of [_strip_namespace] never contains the delimiter, so
    stripping twice is the same as stripping once. *)
Theorem strip_namespace_delimiter_free :
  forall name,
    PyStr.contains_char "}"%char (_strip_namespace name) = false
    /\ _strip_namespace (_strip_namespace name) = _strip_namespace name.
Proof.
  intros name.
  assert (H : PyStr.contains_char "}"%char (_strip_namespace name) = false).
  { destruct (PyStr.contains_char "}"%char name) eqn:E.
    - rewrite (strip_namespace_index _ E).
      pose proof (split_two_parts _ _ E) as L.
      pose proof (split_pieces_no_delimiter "}"%char name) as F.
      destruct (PyStr.split "}"%char name) as [|a [|b l]]; simpl in L; try lia.
      inversion F as [|? ? _ F1]; subst. inversion F1; subst. assumption.
    - now rewrite strip_namespace_unqualified. }
  split; [exact H | now apply strip_namespace_unqualified].
Qed.

Lemma split_once c u local :
  PyStr.contains_char c u = false ->
  PyStr.contains_char c local = false ->
  PyStr.split c (u ++ String c local) = [u; local].
Proof.
  intros Hu Hl. induction u as [|d u IH]; cbn [append PyStr.split].
  - now rewrite Ascii.eqb_refl, (split_no_delimiter _ _ Hl).
  - cbn [PyStr.contains_char] in Hu. destruct (Ascii.eqb d c); [discriminate|].
    now rewrite (IH Hu).
Qed.

(** A name qualified in Clark notation, [{uri}local] with no ['}'] in the
    URI or in the local part, is stripped to its local part. *)
Theorem strip_namespace_clark :
  forall uri local,
    PyStr.contains_char "}"%char uri = false ->
    PyStr.contains_char "}"%char local = false ->
    _strip_namespace ("{" ++ uri ++ "}" ++ local) = local.
Proof.
  intros uri local Hu Hl.
  change ("{" ++ uri ++ "}" ++ local)
    with (String "{"%char (uri ++ String "}"%char local)).
  unfold _strip_namespace. cbn [PyStr.contains_char PyStr.split].
  change (Ascii.eqb "{"%char "}"%char) with false. cbv iota.
  rewrite contains_char_app. cbn [PyStr.contains_char].
  rewrite Ascii.eqb_refl, orb_true_r.
  now rewrite (split_once _ _ _ Hu Hl).
Qed.

Lemma strip_namespace_clark_witness :
  PyStr.contains_char "}"%char "http://www.transxchange.org.uk/" = false
  /\ PyStr.contains_char "}"%char "StopPoint" = false
  /\ _strip_namespace ("{" ++ "http://www.transxchange.org.uk/" ++ "}" ++ "StopPoint")
     = "StopPoint".
Proof.
  split; [reflexivity|]. split; [reflexivity|].
  apply strip_namespace_clark; reflexivity.
Defined.

(* ------------------------------------------------------------------ *)
(** *** The fallback flatten *)

Lemma extend_each_child_path rec path1 path2 data cs :
  Forall (fun c => forall pp1 pp2 pd s, rec c pp1 pd s = rec c pp2 pd s) cs ->
  forall records s,
    extend_each_child rec path1 data cs records s
    = extend_each_child rec path2 data cs records s.
Proof.
  induction 1 as [|c cs Hc _ IH]; intros records s; simpl; [reflexivity|].
  rewrite (Hc path1 path2). destruct (rec c path2 data s). apply IH.
Qed.

(** The fallback computes a dotted path for every element and hands it
    down, but never uses it: rows, keys and registered fields are the same
    whatever [parent_path] is (keys are [<tag>.@<attr>] and [<tag>.value],
    with the element's own tag only). *)
Theorem fallback_ignores_parent_path :
  forall element parent_path1 parent_path2 parent_data self,
    _flatten_nested_records element parent_path1 parent_data self
    = _flatten_nested_records element parent_path2 parent_data self.
Proof.
  induction element as [t a x cs IH] using Element_forall_ind.
  intros pp1 pp2 pd s. cbn [_flatten_nested_records children].
  destruct (add_text_dotted _ _) as [current_data s'].
  destruct cs as [|c cs']; [reflexivity|].
  destruct (_ && _); now apply extend_each_child_path.
Qed.

(** Every row of the fallback carries all the fields inherited from the
    ancestors: the keys of [parent_data] are keys of each row emitted. *)
Theorem fallback_rows_inherit :
  forall element parent_path parent_data self,
    Forall (fun row => incl (keys parent_data) (keys row))
           (fst (_flatten_nested_records element parent_path parent_data self)).
Proof.
  intros e pp pd s.
  refine (proj1 (fallback_inv (fun st => incl (keys pd) (keys (fst st)))
                   _ _ e pp pd s _)).
  - intros r s0 k v _ H x Hx. cbn [fst]. rewrite keys_dict_set.
    apply set_add_incl. now apply H.
  - auto.
  - apply incl_refl.
Qed.

Lemma extend_each_child_length rec path data cs (size : Element -> nat) :
  Forall (fun c => forall s, List.length (fst (rec c path data s)) = size c) cs ->
  forall records s,
    List.length (fst (extend_each_child rec path data cs records s))
    = (List.length records + list_sum (map size cs))%nat.
Proof.
  induction 1 as [|c cs Hc _ IH]; intros records s; simpl; [lia|].
  specialize (Hc s). destruct (rec c path data s) as [child_records s1].
  rewrite IH, length_app. simpl in Hc. lia.
Qed.

Lemma fallback_row_count :
  forall element parent_path parent_data self,
    parent_data <> [] \/ own_content element = true ->
    List.length (fst (_flatten_nested_records element parent_path parent_data self))
    = leaf_count element.
Proof.
  induction element as [t a x cs IH] using Element_forall_ind.
  intros pp pd s H. cbn [_flatten_nested_records leaf_count children].
  pose proof (own_data_nonempty (Elem t a x cs) pd s H) as Hown.
  destruct (add_text_dotted _ _) as [current_data s']. cbn [fst] in Hown.
  destruct cs as [|c cs'].
  - destruct current_data; [congruence | reflexivity].
  - set (kids := c :: cs') in *.
    assert (Hloop : forall path,
              List.length (fst (extend_each_child _flatten_nested_records path
                                  current_data kids [] s'))
              = list_sum (map leaf_count kids)).
    { intros path.
      rewrite (extend_each_child_length _ path current_data kids leaf_count);
        [reflexivity|].
      eapply Forall_impl; [|exact IH]. intros k Hk s0. apply Hk. now left. }
    destruct (_ && _); apply Hloop.
Qed.

(** When a field is inherited, or the element has an attribute or a text
    of its own (blank text, in any of the characters that Python's [strip]
    removes, does not count), and the subtree is nested no deeper than the
    frames that are left allow, the fallback returns, with exactly one row
    per leaf of the subtree. *)
Theorem fallback_one_row_per_leaf :
  forall n element parent_path parent_data self,
    (depth element + 2 <= n)%nat ->
    parent_data <> [] \/ own_content element = true ->
    exists rows self',
      _flatten_nested_records_in n element parent_path parent_data self = Ok rows self'
      /\ List.length rows = leaf_count element.
Proof.
  intros n e pp pd s Hn H.
  destruct (flatten_nested_records_in_fits e n pp pd s Hn) as [rows [s' E]].
  exists rows, s'. split; [exact E|].
  pose proof (fallback_row_count e pp pd s H) as L.
  now rewrite (flatten_nested_records_in_unbounded _ _ _ _ _ _ _ E) in L.
Qed.

Lemma fallback_one_row_per_leaf_witness :
  (depth sample_journey + 2 <= 995)%nat
  /\ (@nil (string * string) <> [] \/ own_content sample_journey = true)
  /\ exists rows self',
       _flatten_nested_records_in 995 sample_journey EmptyString []
         (init python "data") = Ok rows self'
       /\ List.length rows = leaf_count sample_journey.
Proof.
  assert (Hn : (depth sample_journey + 2 <= 995)%nat)
    by (vm_compute; repeat constructor).
  assert (H : @nil (string * string) <> [] \/ own_content sample_journey = true)
    by (right; reflexivity).
  split; [exact Hn|]. split; [exact H|].
  exact (fallback_one_row_per_leaf 995 _ _ _ _ Hn H).
Defined.

(* ------------------------------------------------------------------ *)
(** *** Documents without data *)

Lemma existsb_false {A : Type} (f : A -> bool) l :
  existsb f l = false <-> forall x, In x l -> f x = false.
Proof.
  induction l as [|a l IH]; simpl; [split; [intros _ x [] | reflexivity]|].
  rewrite orb_false_iff, IH. split.
  - intros [Ha Hl] x [<-|Hx]; auto.
  - intros H. split; [apply H; now left | intros x Hx; apply H; now right].
Qed.

Lemma iter_trans : forall e d x, In d (iter e) -> In x (iter d) -> In x (iter e).
Proof.
  induction e as [t a tx cs IH] using Element_forall_ind.
  intros d x Hd Hx. cbn [iter children] in *. destruct Hd as [<-|Hd]; [exact Hx|].
  right. apply in_flat_map in Hd. destruct Hd as [c [Hc Hd]].
  apply in_flat_map. exists c. split; [exact Hc|].
  rewrite Forall_forall in IH. exact (IH c Hc d x Hd Hx).
Qed.

Lemma no_content_below e d :
  has_content e = false -> In d (iter e) -> has_content d = false.
Proof.
  unfold has_content. rewrite !existsb_false. intros H Hd x Hx.
  apply H. exact (iter_trans e d x Hd Hx).
Qed.

Lemma no_content_self e :
  has_content e = false -> attrib e = [] /\ text_content e = None.
Proof.
  unfold has_content. rewrite existsb_false. intros H.
  assert (Ho : own_content e = false)
    by (apply H; destruct e; cbn [iter]; now left).
  unfold own_content in Ho. destruct (attrib e); [|discriminate].
  destruct (text_content e); [discriminate | now split].
Qed.

Lemma no_content_children e :
  has_content e = false -> Forall (fun c => has_content c = false) (children e).
Proof.
  intros H. apply Forall_forall. intros c Hc. apply (no_content_below e c H).
  destruct e as [t a x cs]. cbn [iter children] in *. right.
  apply in_flat_map. exists c. split; [exact Hc|]. destruct c; cbn [iter]; now left.
Qed.

Lemma flatten_element_no_content :
  forall e prefix st, has_content e = false -> _flatten_element e prefix st = st.
Proof.
  induction e as [t a x cs IH] using Element_forall_ind.
  intros prefix st H. cbn [_flatten_element].
  destruct (no_content_self _ H) as [Ha Ht].
  pose proof (no_content_children _ H) as Hc.
  unfold add_text_flat, add_attributes_flat. rewrite Ha, Ht.
  cbn [fold_left children] in *.
  generalize (flat_key prefix (Elem t a x cs) "_") as np. intros np.
  clear H Ha Ht. induction IH as [|c cs Hrec _ IHcs]; cbn [flatten_each_child];
    [reflexivity|].
  inversion Hc; subst. rewrite Hrec by assumption. now apply IHcs.
Qed.

Lemma element_to_record_no_content e path s :
  has_content e = false -> _element_to_record e path s = ([], s).
Proof.
  intros H. unfold _element_to_record.
  now rewrite (flatten_element_no_content e EmptyString _ H).
Qed.

Lemma collect_records_no_content elements path :
  Forall (fun e => has_content e = false) elements ->
  forall rs s, collect_records elements path rs s = (rs, s).
Proof.
  induction 1 as [|e es He _ IH]; intros rs s; cbn [collect_records]; [reflexivity|].
  rewrite (element_to_record_no_content e path s He). apply IH.
Qed.

Lemma findall_no_content p root :
  has_content root = false ->
  Forall (fun e => has_content e = false) (findall_descendants p root).
Proof.
  intros H. apply Forall_forall. intros d Hd. unfold findall_descendants in Hd.
  apply filter_In in Hd. destruct Hd as [Hd _].
  apply (no_content_below root d H). destruct root; cbn [iter children] in *.
  now right.
Qed.

Lemma strategy1_no_content patterns root path :
  has_content root = false ->
  forall s, exists s', strategy1 patterns root path [] s = (Fallthrough [], s').
Proof.
  intros H. induction patterns as [|p ps IH]; intros s; cbn [strategy1].
  - now exists s.
  - pose proof (findall_no_content p root H) as Hf.
    destruct (findall_descendants p root) as [|e es]; [apply IH|].
    destruct (1 <? _)%nat; [|apply IH].
    rewrite (collect_records_no_content _ path Hf). apply IH.
Qed.

Lemma strategy2_no_content cs path :
  Forall (fun c => has_content c = false) cs ->
  forall s, exists s', strategy2 cs path [] s = (Fallthrough [], s').
Proof.
  induction 1 as [|c cs Hc _ IH]; intros s; cbn [strategy2].
  - now exists s.
  - pose proof (no_content_children c Hc) as Hg.
    destruct (children c) as [|g gs]; [apply IH|].
    destruct (is_collection _); [|apply IH].
    rewrite (collect_records_no_content _ path Hg). apply IH.
Qed.

Lemma smart_no_content root path s :
  has_content root = false -> fst (_extract_records_smart root path s) = [].
Proof.
  intros H. unfold _extract_records_smart.
  destruct (strategy1_no_content journey_patterns root path H s) as [s1 ->].
  destruct (strategy2_no_content (children root) path (no_content_children _ H) s1)
    as [s2 ->].
  unfold strategy3. pose proof (no_content_children _ H) as Hc.
  destruct (children root) as [|c cs]; [reflexivity|].
  destruct (is_collection _); [|reflexivity].
  now rewrite (collect_records_no_content _ path Hc).
Qed.

Lemma extend_each_child_nil rec path data cs :
  Forall (fun c => forall s, fst (rec c path data s) = []) cs ->
  forall s, fst (extend_each_child rec path data cs [] s) = [].
Proof.
  induction 1 as [|c cs Hc _ IH]; intros s; cbn [extend_each_child]; [reflexivity|].
  specialize (Hc s). destruct (rec c path data s) as [child_records s1].
  cbn [fst] in Hc. subst. apply IH.
Qed.

Lemma fallback_no_content :
  forall e pp s, has_content e = false ->
                 fst (_flatten_nested_records e pp [] s) = [].
Proof.
  induction e as [t a x cs IH] using Element_forall_ind.
  intros pp s H. cbn [_flatten_nested_records].
  destruct (no_content_self _ H) as [Ha Ht].
  pose proof (no_content_children _ H) as Hc.
  unfold add_text_dotted, add_attributes_dotted. rewrite Ha, Ht.
  cbn [fold_left children] in *.
  destruct cs as [|c cs']; [reflexivity|].
  assert (Hloop : forall path,
            fst (extend_each_child _flatten_nested_records path [] (c :: cs') [] s) = []).
  { intros path. apply extend_each_child_nil.
    rewrite Forall_forall in *. intros k Hk s0. apply IH; auto. }
  destruct (_ && _); apply Hloop.
Qed.

Lemma extract_records_no_content root path s :
  has_content root = false -> fst (extract_records root path s) = [].
Proof.
  intros H. unfold extract_records.
  pose proof (smart_no_content root path s H) as Hs.
  destruct (_extract_records_smart root path s) as [records s1].
  cbn [fst] in Hs. subst records. now apply fallback_no_content.
Qed.

Lemma extract_records_nonempty root path s :
  has_content root = true -> fst (extract_records root path s) <> [].
Proof.
  intros H. unfold extract_records.
  destruct (_extract_records_smart root path s) as [records s1].
  destruct records as [|r rs]; [|discriminate].
  apply fallback_nonempty. now right.
Qed.

Lemma no_content_no_rows env root path self :
  has_content root = false -> classify env root path self = [].
Proof.
  intros H. unfold classify.
  destruct (process_xml_file_route env (mkSourceFile path (Parsed root)) self)
    as [E|[root' [P [E _]]]]; [exact E|].
  cbn [parse filepath] in P, E. injection P as <-.
  rewrite E, (extract_records_no_content root path _ H). reflexivity.
Qed.

(** A document in which no element has an attribute or a text that is not
    blank yields no row at all, whatever its shape: every strategy
    discards the empty records, and the fallback emits nothing. *)
Theorem classify_no_content_no_rows :
  forall env root path self,
    has_content root = false -> classify env root path self = [].
Proof. exact no_content_no_rows. Qed.

Lemma classify_no_content_no_rows_witness :
  has_content (Elem "a" [] None [Elem "b" [] (Some "  ") [Elem "c" [] None []]]) = false
  /\ classify python (Elem "a" [] None [Elem "b" [] (Some "  ") [Elem "c" [] None []]])
       "data/chain.xml" (init python "data") = [].
Proof.
  split; [reflexivity | apply classify_no_content_no_rows; reflexivity].
Defined.

(* ------------------------------------------------------------------ *)
(** *** The classification entry point *)

(** C1 (as the code has it): when some element of the tree carries an
    attribute or a text that is not blank, and the tree is nested no
    deeper than the interpreter's frames allow, the classification entry
    point (strategies 1-3, then the fallback flatten) returns at least one
    row; when no element carries an attribute or a text that is not blank,
    it returns no row; and when the tree is nested deeper than the frames
    allow and strategies 1-3 find no record in it (a single-child chain,
    say), it returns no row either, whatever the tree holds. *)
Theorem classify_nonempty :
  forall env root path self,
    (has_content root = true ->
     (depth root + 2 <= frames env)%nat ->
     classify env root path self <> [])
    /\ (has_content root = false -> classify env root path self = [])
    /\ ((frames env < depth root + 2)%nat ->
        fst (_extract_records_smart root path (announced path root self)) = [] ->
        classify env root path self = []).
Proof.
  intros env root path self. split; [|split; [apply no_content_no_rows|]].
  - intros H Hn. unfold classify.
    rewrite (process_xml_file_fits env path root self Hn).
    cbv zeta. cbn [fst].
    pose proof (extract_records_nonempty root path (announced path root self) H) as Hne.
    destruct (fst (extract_records root path (announced path root self)));
      [congruence | discriminate].
  - apply too_deep_no_rows.
Qed.

Lemma classify_nonempty_witness :
  has_content (Elem "Name" [] (Some "Central") []) = true
  /\ (depth (Elem "Name" [] (Some "Central") []) + 2 <= frames python)%nat
  /\ classify python (Elem "Name" [] (Some "Central") []) "data/a.xml"
       (init python "data") <> []
  /\ has_content (Elem "root" [] None []) = false
  /\ classify python (Elem "root" [] None []) "data/empty.xml" (init python "data") = []
  /\ (frames python < depth (chain 1000 (Elem "leaf" [] (Some "far") [])) + 2)%nat
  /\ fst (_extract_records_smart (chain 1000 (Elem "leaf" [] (Some "far") []))
            "data/deep.xml"
            (announced "data/deep.xml" (chain 1000 (Elem "leaf" [] (Some "far") []))
               (init python "data"))) = []
  /\ classify python (chain 1000 (Elem "leaf" [] (Some "far") [])) "data/deep.xml"
       (init python "data") = [].
Proof.
  assert (Hn : (depth (Elem "Name" [] (Some "Central") []) + 2 <= frames python)%nat)
    by (vm_compute; repeat constructor).
  assert (Hd : (frames python < depth (chain 1000 (Elem "leaf" [] (Some "far") [])) + 2)%nat)
    by (vm_compute; repeat constructor).
  assert (Hs : fst (_extract_records_smart (chain 1000 (Elem "leaf" [] (Some "far") []))
                      "data/deep.xml"
                      (announced "data/deep.xml"
                         (chain 1000 (Elem "leaf" [] (Some "far") []))
                         (init python "data"))) = [])
    by (vm_compute; reflexivity).
  split; [reflexivity|]. split; [exact Hn|].
  split; [exact (proj1 (classify_nonempty python (Elem "Name" [] (Some "Central") [])
                          "data/a.xml" (init python "data")) eq_refl Hn)|].
  split; [reflexivity|].
  split; [exact (proj1 (proj2 (classify_nonempty python (Elem "root" [] None [])
                                 "data/empty.xml" (init python "data"))) eq_refl)|].
  split; [exact Hd|]. split; [exact Hs|].
  exact (proj2 (proj2 (classify_nonempty python
                         (chain 1000 (Elem "leaf" [] (Some "far") []))
                         "data/deep.xml" (init python "data"))) Hd Hs).
Defined.

(** C1 (as stated) fails on its own three shapes.  An empty root element
    yields no row.  A single leaf whose text is blank, here the no-break
    space U+00A0 that Python's [strip] removes, yields no row.  A chain
    of a thousand single children around a leaf with text is nested
    deeper than the interpreter allows: the fallback raises
    [RecursionError], [process_xml_file] prints it as an unexpected error
    and the file yields no row, although the same leaf under a chain of
    ten yields one. *)
Lemma classify_empty_root_no_rows :
  classify python (Elem "root" [] None []) "data/empty.xml" (init python "data") = []
  /\ classify python (Elem "leaf" [] (Some (String "194" (String "160" EmptyString))) [])
       "data/leaf.xml" (init python "data") = []
  /\ has_content (chain 1000 (Elem "leaf" [] (Some "far") [])) = true
  /\ process_xml_file python
       (mkSourceFile "data/deep.xml" (Parsed (chain 1000 (Elem "leaf" [] (Some "far") []))))
       (init python "data")
     = (([], 0%nat),
        fold_left print
          [PyStr.nl ++ banner; "Processing: deep.xml"; "Root element: Level"; banner;
           "  → Using fallback extraction strategy...";
           "  ✗ Unexpected error: maximum recursion depth exceeded"]
          (init python "data"))
  /\ List.length
       (classify python (chain 10 (Elem "leaf" [] (Some "far") [])) "data/deep.xml"
          (init python "data")) = 1%nat.
Proof. vm_compute. repeat split. Qed.

(* ------------------------------------------------------------------ *)
(** *** The rows of a run *)

Lemma dict_set_length_new r k v :
  inb k (keys r) = false -> List.length (dict_set r k v) = S (List.length r).
Proof.
  induction r as [|[k' v'] r IH]; cbn [dict_set keys map fst inb List.length];
    [reflexivity|].
  destruct (String.eqb k' k); [discriminate|].
  intros H. cbn [List.length]. now rewrite (IH H).
Qed.

Lemma extend_each_child_forall (P : Row -> Prop) rec path data cs :
  Forall (fun c => forall s, Forall P (fst (rec c path data s))) cs ->
  forall records s,
    Forall P records -> Forall P (fst (extend_each_child rec path data cs records s)).
Proof.
  induction 1 as [|c cs Hc _ IH]; intros records s Hr; cbn [extend_each_child];
    [exact Hr|].
  specialize (Hc s). destruct (rec c path data s) as [child_records s1].
  apply IH. apply Forall_app. now split.
Qed.

Lemma fallback_rows_nonempty :
  forall e pp pd s,
    Forall (fun r => r <> []) (fst (_flatten_nested_records e pp pd s)).
Proof.
  induction e as [t a x cs IH] using Element_forall_ind.
  intros pp pd s. cbn [_flatten_nested_records children].
  destruct (add_text_dotted _ _) as [current_data s'].
  destruct cs as [|c cs'].
  - destruct current_data; cbn [fst]; repeat constructor. discriminate.
  - assert (Hloop : forall path,
              Forall (fun r => r <> [])
                (fst (extend_each_child _flatten_nested_records path current_data
                        (c :: cs') [] s'))).
    { intros path. apply extend_each_child_forall; [|constructor].
      eapply Forall_impl; [|exact IH]. intros k Hk s0. apply Hk. }
    destruct (_ && _); apply Hloop.
Qed.

Lemma element_to_record_two_keys e path s :
  fst (_element_to_record e path s) = []
  \/ (2 <= List.length (fst (_element_to_record e path s)))%nat.
Proof.
  unfold _element_to_record.
  destruct (_flatten_element e EmptyString _) as [record s'].
  destruct (Nat.ltb_spec 1 (List.length record)); cbn [fst]; [right; lia | now left].
Qed.

Lemma process_xml_file_two_keys env f s :
  Forall (fun row => (2 <= List.length row)%nat) (fst (fst (process_xml_file env f s))).
Proof.
  destruct (process_xml_file_route env f s) as [->|[root [_ [-> _]]]]; [constructor|].
  generalize (filepath f) as path. intros path.
  generalize (announced path root s) as s0. intros s0. unfold extract_records.
  pose proof (extract_records_smart_inv
                (fun st => Forall (fun row => (2 <= List.length row)%nat) (fst st))
                path (fun rs s1 line H => H)) as Hs.
  specialize (fun Hr => Hs Hr root s0).
  destruct (_extract_records_smart root path s0) as [records s1].
  assert (Hrecords : Forall (fun row => (2 <= List.length row)%nat) records).
  { apply Hs; [|constructor]. intros e rs s2 Hrs. cbn [fst].
    destruct (element_to_record_two_keys e path s2) as [E|E].
    - rewrite E. exact Hrs.
    - destruct (fst (_element_to_record e path s2)) eqn:Er; [exact Hrs|].
      cbn [append_if_nonempty]. apply Forall_app. split; [exact Hrs | now constructor]. }
  assert (Hens : forall name r, (2 <= List.length r)%nat ->
                   (2 <= List.length (ensure_source_file name r))%nat).
  { intros name r Hr. unfold ensure_source_file.
    destruct (inb "source_file" (keys r)) eqn:E; [exact Hr|].
    rewrite dict_set_length_new by exact E. lia. }
  destruct records as [|r rs].
  - match goal with |- context [_flatten_nested_records root ?pp [] ?s0] =>
      pose proof (fallback_rows_nonempty root pp [] s0) as Hn;
      pose proof (fallback_rows_no_source_file root pp s0) as Hk;
      destruct (_flatten_nested_records root pp [] s0) as [records s2] end.
    cbn [fst] in Hn, Hk |- *. apply Forall_map.
    rewrite Forall_forall in *. intros r Hr. unfold ensure_source_file.
    rewrite (Hk r Hr), dict_set_length_new by exact (Hk r Hr).
    specialize (Hn r Hr). destruct r; [congruence | cbn [List.length]; lia].
  - cbn [fst]. apply Forall_map. eapply Forall_impl; [|exact Hrecords].
    intros r0. apply Hens.
Qed.

Lemma process_each_rows env files : forall n s,
  exists more,
    extracted_data (snd (process_each env files n s)) = (extracted_data s ++ more)%list
    /\ fst (process_each env files n s) = (n + List.length more)%nat
    /\ Forall (fun row => (2 <= List.length row)%nat) more
    /\ incl (field_names s) (field_names (snd (process_each env files n s))).
Proof.
  induction files as [|f fs IH]; intros n s; cbn [process_each].
  - exists []. rewrite app_nil_r. cbn [fst snd List.length].
    repeat split; [lia | constructor | apply incl_refl].
  - pose proof (process_xml_file_two_keys env f s) as H2.
    pose proof (process_xml_file_count env f s) as Hc.
    pose proof (process_xml_file_keeps_data env f s) as Hd.
    pose proof (process_xml_file_keeps_fields env f s) as Hf.
    destruct (process_xml_file env f s) as [[records count] s1]. cbn [fst snd] in *.
    subst count.
    destruct (IH (n + List.length records)%nat (extend_data s1 records))
      as [more [E [N [F G]]]].
    exists (records ++ more)%list. cbn [extend_data extracted_data field_names] in *.
    rewrite E, N, Hd, length_app, <- app_assoc.
    repeat split; [lia | now apply Forall_app | ].
    intros k Hk. apply G, Hf, Hk.
Qed.

(** The number that [process_all_files] returns is the number of rows it
    has accumulated, and no row consists of the file name alone: every
    row has [source_file] and at least one field of data. *)
Theorem run_count_and_row_size :
  forall env folder files,
    fst (run env folder files)
    = List.length (extracted_data (snd (run env folder files)))
    /\ Forall (fun row => (2 <= List.length row)%nat)
              (extracted_data (snd (run env folder files))).
Proof.
  intros env folder files.
  destruct (run_as_process_each env folder files) as [s [[A [B _]] [[D _] _]]].
  destruct (process_each_rows env files 0 s) as [more [E [N [F _]]]].
  rewrite A, B, E, N, D. cbn [init extracted_data app plus]. now split.
Qed.

(** Rows are only ever appended and registered keys only ever added:
    after more files have been processed, the rows accumulated before are
    still there, unchanged and in the same positions, and every key
    registered before is still registered. *)
Theorem run_only_grows :
  forall env pre post n self,
    (exists more,
        extracted_data (snd (process_each env (pre ++ post) n self))
        = (extracted_data (snd (process_each env pre n self)) ++ more)%list)
    /\ incl (field_names (snd (process_each env pre n self)))
            (field_names (snd (process_each env (pre ++ post) n self)))
    /\ (fst (process_each env pre n self)
        <= fst (process_each env (pre ++ post) n self))%nat.
Proof.
  intros env pre post n s. rewrite process_each_app.
  destruct (process_each_rows env post (fst (process_each env pre n s))
              (snd (process_each env pre n s))) as [more [E [N [_ G]]]].
  split; [now exists more|]. split; [exact G | lia].
Qed.

Lemma process_each_skips_failed env pre path msg post n s :
  same_outcome
    (process_each env (pre ++ mkSourceFile path (OtherError msg) :: post) n s)
    (process_each env (pre ++ post) n s).
Proof.
  rewrite !process_each_app.
  destruct (process_each env pre n s) as [n1 s1]. cbn [fst snd process_each].
  cbn [process_xml_file parse]. rewrite Nat.add_0_r.
  apply process_each_same. split; cbn [extend_data print extracted_data field_names];
    [apply app_nil_r | reflexivity].
Qed.

(** A file on which [ET.parse] raises anything other than a parse error
    (an unreadable file, say) is skipped in the same way: it adds no row
    and no key, one line [Unexpected error] is printed, and the run goes
    on to the same rows, keys, count and CSV as without the file. *)
Theorem unexpected_error_skips_file :
  forall env folder pre post path msg,
    let bad := mkSourceFile path (OtherError msg) in
    same_outcome (run env folder (pre ++ bad :: post)) (run env folder (pre ++ post))
    /\ In ("  ✗ Unexpected error: " ++ msg)
          (log (snd (run env folder (pre ++ bad :: post))))
    /\ (forall io fields out,
          fst (save_to_csv io fields out (snd (run env folder (pre ++ bad :: post))))
          = fst (save_to_csv io fields out (snd (run env folder (pre ++ post))))).
Proof.
  intros env folder pre post path msg bad.
  assert (Hsame : same_outcome (run env folder (pre ++ bad :: post))
                               (run env folder (pre ++ post))).
  { destruct (run_as_process_each env folder (pre ++ bad :: post))
      as [s1 [[A1 A2] [B1 _]]].
    destruct (run_as_process_each env folder (pre ++ post)) as [s2 [[C1 C2] [D1 _]]].
    destruct (process_each_skips_failed env pre path msg post 0 s1) as [E1 E2].
    destruct (process_each_same env (pre ++ post) 0 s1 s2) as [F1 F2].
    { destruct B1, D1. split; congruence. }
    split.
    - rewrite A1, C1. fold bad in E1. congruence.
    - fold bad in E2. destruct A2, C2, E2, F2. split; congruence. }
  split; [exact Hsame|].
  split; [|intros io fields out; apply save_to_csv_same; exact (proj2 Hsame)].
  destruct (run_as_process_each env folder (pre ++ bad :: post)) as [s1 [_ [_ ->]]];
    [|destruct pre; discriminate].
  rewrite process_each_app. cbn [process_each].
  cbn [process_xml_file parse bad]. apply process_each_keeps_log.
  cbn [extend_data print log]. apply in_or_app. right. now left.
Qed.

(* ------------------------------------------------------------------ *)
(** *** The header *)

Lemma first_priority_is_source_file :
  exists rest, first_occurrences priority_fields = "source_file" :: rest.
Proof. eexists. vm_compute. reflexivity. Qed.

(** [source_file] is always the first column of the header, whatever was
    extracted and however the set of field names is enumerated. *)
Theorem header_starts_with_source_file :
  forall env folder files fields,
    Permutation fields (field_names (snd (run env folder files))) ->
    exists rest, column_order fields = "source_file" :: rest.
Proof.
  intros env folder files fields Hp.
  rewrite (column_order_closed_form fields (run_fields_NoDup _ _ _ _ Hp)).
  unfold column_order_spec.
  destruct first_priority_is_source_file as [rest0 ->].
  assert (Hin : inb "source_file" fields = true).
  { apply inb_In. eapply Permutation_in; [symmetry; exact Hp|].
    apply (registered_run env folder files). }
  cbn [List.filter]. rewrite Hin. eexists. reflexivity.
Qed.

Lemma header_starts_with_source_file_witness :
  Permutation (rev (field_names (snd (run python "data" [journey_file; stops_file]))))
              (field_names (snd (run python "data" [journey_file; stops_file])))
  /\ exists rest,
       column_order (rev (field_names (snd (run python "data" [journey_file; stops_file]))))
       = "source_file" :: rest.
Proof.
  assert (Hp : Permutation
                 (rev (field_names (snd (run python "data" [journey_file; stops_file]))))
                 (field_names (snd (run python "data" [journey_file; stops_file]))))
    by (symmetry; apply Permutation_rev).
  split; [exact Hp | exact (header_starts_with_source_file python _ _ _ Hp)].
Defined.

Lemma priority_fields_plain :
  forallb (fun p => negb (PyStr.contains_char "@"%char p || PyStr.contains_char "."%char p))
          priority_fields = true.
Proof. vm_compute. reflexivity. Qed.

(** No attribute column (its key contains [@]) and no column of the
    fallback flatten (its key contains a dot) is ever a priority column:
    in the header that [column_order] builds, such a column comes after
    every priority column that is present. *)
Theorem data_columns_in_sorted_part :
  forall fields k,
    NoDup fields ->
    In k fields ->
    PyStr.contains_char "@"%char k || PyStr.contains_char "."%char k = true ->
    exists before after,
      column_order fields = (before ++ k :: after)%list
      /\ forall p, In p fields -> In p priority_fields -> In p before.
Proof.
  intros fields k Hnd Hk Hc.
  assert (Hn : ~ In k priority_fields).
  { intros Hin. pose proof priority_fields_plain as Hp.
    rewrite forallb_forall in Hp. specialize (Hp k Hin).
    rewrite Hc in Hp. discriminate. }
  assert (Hs : In k (List.filter (fun f => negb (inb f priority_fields)) (sorted fields))).
  { apply filter_In. split.
    - eapply Permutation_in; [symmetry; apply sorted_perm | exact Hk].
    - apply negb_true_iff, inb_false, Hn. }
  apply in_split in Hs. destruct Hs as [b1 [b2 Hs]].
  exists (List.filter (fun p => inb p fields) (first_occurrences priority_fields) ++ b1)%list,
         b2.
  split.
  - rewrite (column_order_closed_form fields Hnd). unfold column_order_spec.
    rewrite Hs. now rewrite <- app_assoc.
  - intros p Hp Hpr. apply in_or_app. left. apply filter_In. split.
    + now apply first_occurrences_In.
    + now apply inb_In.
Qed.

Lemma data_columns_in_sorted_part_witness :
  NoDup ["Stop_@id"; "Stop"; "source_file"]
  /\ In "Stop_@id" ["Stop_@id"; "Stop"; "source_file"]
  /\ PyStr.contains_char "@"%char "Stop_@id" || PyStr.contains_char "."%char "Stop_@id" = true
  /\ exists before after,
       column_order ["Stop_@id"; "Stop"; "source_file"] = (before ++ "Stop_@id" :: after)%list
       /\ forall p, In p ["Stop_@id"; "Stop"; "source_file"] -> In p priority_fields ->
                    In p before.
Proof.
  assert (H0 : NoDup ["Stop_@id"; "Stop"; "source_file"]).
  { repeat (constructor; [simpl; intuition discriminate|]). constructor. }
  assert (H1 : In "Stop_@id" ["Stop_@id"; "Stop"; "source_file"]) by now left.
  assert (H2 : PyStr.contains_char "@"%char "Stop_@id"
               || PyStr.contains_char "."%char "Stop_@id" = true) by reflexivity.
  split; [exact H0|]. split; [exact H1|]. split; [exact H2|].
  exact (data_columns_in_sorted_part _ _ H0 H1 H2).
Defined.

(* ------------------------------------------------------------------ *)
(** *** The name of the output file *)

Lemma endswith_refl s : endswith s s = true.
Proof. destruct s; cbn [endswith]; now rewrite String.eqb_refl. Qed.

Lemma endswith_app suffix a b :
  endswith suffix b = true -> endswith suffix (a ++ b) = true.
Proof.
  intros H. induction a as [|c a IH]; cbn [append]; [exact H|].
  cbn [endswith]. rewrite IH. now destruct (String.eqb _ _).
Qed.

(** The output file name always ends in [.csv]: a name that has the
    extension is kept as it is, any other gets it appended, and the default
    names have it; the same holds for the path joined with the folder. *)
Theorem output_file_name_has_csv_extension :
  forall output_file self,
    endswith ".csv" (output_file_name output_file self) = true
    /\ endswith ".csv" (output_path output_file self) = true
    /\ (forall name,
          output_file = Some name -> endswith ".csv" name = true ->
          output_file_name output_file self = name).
Proof.
  intros output_file self.
  assert (H : endswith ".csv" (output_file_name output_file self) = true).
  { unfold output_file_name.
    match goal with |- context [negb (endswith ".csv" ?n)] =>
      destruct (endswith ".csv" n) eqn:E end; cbn [negb]; [exact E|].
    apply endswith_app, endswith_refl. }
  split; [exact H|]. split.
  - unfold output_path, os_path_join.
    destruct (String.prefix "/" _); [exact H|].
    destruct (_ || _); [now apply endswith_app|].
    now apply endswith_app, endswith_app.
  - intros name -> E. unfold output_file_name. now rewrite E.
Qed.

Lemma output_file_name_has_csv_extension_witness :
  Some "stops.csv" = Some "stops.csv"
  /\ endswith ".csv" "stops.csv" = true
  /\ output_file_name (Some "stops.csv") (init python "data") = "stops.csv".
Proof.
  split; [reflexivity|]. split; [reflexivity|].
  exact (proj2 (proj2 (output_file_name_has_csv_extension (Some "stops.csv")
                         (init python "data")))
           "stops.csv" eq_refl eq_refl).
Defined.

(* ------------------------------------------------------------------ *)
(** *** The text of the CSV file *)













(** The file written for the three sample stops, byte for byte. *)
Lemma saved_csv_sample :
  fst (save_to_csv Writable (field_names (snd (run python "data" [stops_file])))
         "data/stops_converted.csv" (snd (run python "data" [stops_file])))
  = Saved ("source_file,Stop_@id,Stop_@name" ++ String "013" (String "010"
            ("stops.xml,1,Abbey" ++ String "013" (String "010"
            ("stops.xml,2,Bridge" ++ String "013" (String "010"
            ("stops.xml,3,Castle" ++ String "013" (String "010" EmptyString)))))))).
Proof. vm_compute. reflexivity. Qed.

(* ------------------------------------------------------------------ *)
(** *** The rows of a file do not depend on the converter *)

Lemma process_each_concat env files : forall n s,
  extracted_data (snd (process_each env files n s))
  = (extracted_data s ++ flat_map (rows_of_file env) files)%list.
Proof.
  induction files as [|f fs IH]; intros n s; cbn [process_each flat_map].
  - now rewrite app_nil_r.
  - pose proof (process_xml_file_rows env f s (init env EmptyString)) as E.
    pose proof (process_xml_file_keeps_data env f s) as Hd.
    fold (rows_of_file env f) in E.
    destruct (process_xml_file env f s) as [[records count] s1]. cbn [fst snd] in *.
    rewrite IH. cbn [extend_data extracted_data]. now rewrite Hd, E, app_assoc.
Qed.

(** The rows that a file contributes depend on the file alone, not on the
    files processed before it nor on the output folder: the rows of a run
    are the rows of its files, each processed on its own, one file after
    the other in the order of enumeration. *)
Theorem run_rows_are_concatenation :
  forall env folder files,
    extracted_data (snd (run env folder files)) = flat_map (rows_of_file env) files.
Proof.
  intros env folder files.
  destruct (run_as_process_each env folder files) as [s [[_ [B _]] [[D _] _]]].
  now rewrite B, process_each_concat, D.
Qed.

(* ------------------------------------------------------------------ *)
(** *** [_extract_element_data] *)

Lemma prefix_split a : forall b, String.prefix a b = true -> exists r, b = a ++ r.
Proof.
  induction a as [|x a IH]; intros b H; [now exists b|].
  destruct b as [|y b]; cbn [String.prefix] in H; [discriminate|].
  destruct (ascii_dec x y) as [->|]; [|discriminate].
  destruct (IH b H) as [r ->]. now exists r.
Qed.

Lemma prefix_trans a b c :
  String.prefix a b = true -> String.prefix b c = true -> String.prefix a c = true.
Proof.
  intros H1 H2. destruct (prefix_split _ _ H1) as [r1 ->].
  destruct (prefix_split _ _ H2) as [r2 ->].
  rewrite str_app_assoc. apply prefix_app.
Qed.

Lemma get_element_path_prefix e pp :
  String.prefix pp (_get_element_path e pp) = true.
Proof.
  unfold _get_element_path. destruct pp as [|c pp]; cbn [PyStr.truthy].
  - now destruct (_strip_namespace (tag e)).
  - apply prefix_app.
Qed.

Lemma dict_update_keys cd : forall d k,
  In k (keys (dict_update d cd)) <-> In k (keys d) \/ In k (keys cd).
Proof.
  unfold dict_update.
  induction cd as [|[k' v'] cd IH]; intros d k; cbn [fold_left keys map fst snd].
  - cbn [In]. tauto.
  - rewrite IH, keys_dict_set. cbn [In]. split.
    + intros [H|H]; [|tauto]. apply set_add_inv in H. destruct H as [->|H]; tauto.
    + intros [H|[->|H]]; [left; now apply set_add_incl | left; apply set_add_In | tauto].
Qed.

Lemma add_attributes_path_inv e cp : forall st,
  path_keys_registered cp st ->
  path_keys_registered cp (add_attributes_path e cp st)
  /\ incl (field_names (snd st)) (field_names (snd (add_attributes_path e cp st))).
Proof.
  unfold add_attributes_path. generalize (attrib e) as l.
  induction l as [|a l IH]; intros [r s] H; cbn [fold_left fst snd].
  - split; [exact H | apply incl_refl].
  - match goal with |- context [fold_left _ l ?st1] =>
      destruct (IH st1) as [H1 H2] end.
    + intros k Hk. cbn [fst snd] in *. rewrite keys_dict_set in Hk.
      apply set_add_inv in Hk. destruct Hk as [->|Hk].
      * split; [apply prefix_app | apply set_add_In].
      * destruct (H k Hk) as [Hp Hr]. split; [exact Hp | now apply set_add_incl].
    + split; [exact H1|]. intros k Hk. apply H2. cbn [snd add_field field_names].
      now apply set_add_incl.
Qed.

Lemma add_text_path_inv e cp st :
  path_keys_registered cp st ->
  path_keys_registered cp (add_text_path e cp st)
  /\ incl (field_names (snd st)) (field_names (snd (add_text_path e cp st))).
Proof.
  unfold add_text_path. destruct st as [r s]. intros H.
  destruct (text_content e); cbn [fst snd]; [|split; [exact H | apply incl_refl]].
  split.
  - intros k Hk. cbn [fst snd] in *. rewrite keys_dict_set in Hk.
    apply set_add_inv in Hk. destruct Hk as [->|Hk].
    + split; [|apply set_add_In]. rewrite <- (str_app_nil_r cp) at 2. apply prefix_app.
    + destruct (H k Hk) as [Hp Hr]. split; [exact Hp | now apply set_add_incl].
  - intros k Hk. cbn [add_field field_names]. now apply set_add_incl.
Qed.

Lemma update_each_single_inv rec cp depth tags cs :
  Forall (fun c => forall pp d s,
            path_keys_registered (_get_element_path c pp) (rec c pp d s)
            /\ incl (field_names s) (field_names (snd (rec c pp d s)))) cs ->
  forall data s,
    path_keys_registered cp (data, s) ->
    path_keys_registered cp (update_each_single rec cp depth tags cs data s)
    /\ incl (field_names s)
            (field_names (snd (update_each_single rec cp depth tags cs data s))).
Proof.
  induction 1 as [|c cs Hc _ IH]; intros data s H; cbn [update_each_single].
  - split; [exact H | apply incl_refl].
  - destruct (_ =? 1)%nat; [|now apply IH].
    destruct (Hc cp (depth + 1)%nat s) as [H1 H2].
    destruct (rec c cp (depth + 1)%nat s) as [child_data s1]. cbn [fst snd] in *.
    destruct (IH (dict_update data child_data) s1) as [H3 H4].
    + intros k Hk. cbn [fst snd] in *. apply dict_update_keys in Hk.
      destruct Hk as [Hk|Hk].
      * destruct (H k Hk) as [Hp Hr]. split; [exact Hp | now apply H2].
      * destruct (H1 k Hk) as [Hp Hr]. split; [|exact Hr].
        eapply prefix_trans; [apply (get_element_path_prefix c cp) | exact Hp].
    + split; [exact H3|]. intros k Hk. now apply H4, H2.
Qed.

Lemma extract_element_data_inv :
  forall e pp depth s,
    path_keys_registered (_get_element_path e pp) (_extract_element_data e pp depth s)
    /\ incl (field_names s) (field_names (snd (_extract_element_data e pp depth s))).
Proof.
  induction e as [t a x cs IH] using Element_forall_ind.
  intros pp depth s. cbn [_extract_element_data children].
  set (e := Elem t a x cs). set (cp := _get_element_path e pp).
  destruct (add_attributes_path_inv e cp ([], s)) as [A1 A2]; [intros k []|].
  destruct (add_text_path_inv e cp _ A1) as [T1 T2].
  destruct (add_text_path e cp (add_attributes_path e cp ([], s))) as [data s1].
  cbn [fst snd] in *.
  destruct (update_each_single_inv _extract_element_data cp depth (map tag cs) cs IH
              data s1 T1) as [U1 U2].
  split; [exact U1|]. intros k Hk. now apply U2, T2, A2.
Qed.

(** Every key of the dictionary that [_extract_element_data] returns
    begins with the dotted path of the element, and is registered in
    [field_names] when the function returns. *)
Theorem extract_element_data_keys :
  forall element parent_path depth self,
    Forall (fun k =>
              String.prefix (_get_element_path element parent_path) k = true
              /\ In k (field_names
                         (snd (_extract_element_data element parent_path depth self))))
           (keys (fst (_extract_element_data element parent_path depth self))).
Proof.
  intros e pp depth s. apply Forall_forall. intros k Hk.
  exact (proj1 (extract_element_data_inv e pp depth s) k Hk).
Qed.

Lemma update_each_single_all_repeated rec cp depth tags cs :
  Forall (fun c => count_occ string_dec tags (tag c) <> 1%nat) cs ->
  forall data s, update_each_single rec cp depth tags cs data s = (data, s).
Proof.
  induction 1 as [|c cs Hc _ IH]; intros data s; cbn [update_each_single];
    [reflexivity|].
  destruct (Nat.eqb_spec (count_occ string_dec tags (tag c)) 1); [contradiction|].
  apply IH.
Qed.

(** Children that share their tag with a sibling are ignored by
    [_extract_element_data]: when no child has a tag of its own, the
    result holds the element's attributes and text and nothing from below
    (a list of same-tag records contributes nothing). *)
Theorem extract_element_data_drops_repeated :
  forall element parent_path depth self,
    Forall (fun c => count_occ string_dec (map tag (children element)) (tag c) <> 1%nat)
           (children element) ->
    _extract_element_data element parent_path depth self
    = add_text_path element (_get_element_path element parent_path)
        (add_attributes_path element (_get_element_path element parent_path) ([], self)).
Proof.
  intros e pp depth s H. destruct e as [t a x cs].
  cbn [_extract_element_data children] in *.
  destruct (add_text_path _ _ _) as [data s1].
  now apply update_each_single_all_repeated.
Qed.

Lemma extract_element_data_drops_repeated_witness :
  Forall (fun c => count_occ string_dec (map tag (children sample_stops)) (tag c) <> 1%nat)
         (children sample_stops)
  /\ fst (_extract_element_data sample_stops EmptyString 0 (init python "data")) = [].
Proof.
  assert (H : Forall (fun c => count_occ string_dec (map tag (children sample_stops))
                                 (tag c) <> 1%nat) (children sample_stops))
    by (repeat constructor; vm_compute; discriminate).
  split; [exact H|].
  exact (f_equal fst (extract_element_data_drops_repeated sample_stops EmptyString 0
                        (init python "data") H)).
Defined.

(* ------------------------------------------------------------------ *)
(** *** Which records are kept, and the keys of the fallback *)

Lemma fold_set_add_only k l :
  Forall (fun x => x = k) l -> fold_left set_add l [k] = [k].
Proof.
  induction 1 as [|x l -> _ IH]; cbn [fold_left]; [reflexivity|].
  unfold set_add at 2. cbn [inb]. now rewrite String.eqb_refl.
Qed.

Lemma element_to_record_kept :
  forall element path self,
    fst (_element_to_record element path self) <> []
    <-> exists k, In k (element_keys [] element) /\ k <> "source_file".
Proof.
  intros e path s. unfold _element_to_record.
  destruct (flatten_element_keys e [] ([("source_file", Path_name path)], s)) as [K _].
  change (prefix_of []) with EmptyString in K.
  destruct (_flatten_element e EmptyString _) as [record s'].
  cbn [fst snd] in K.
  change (keys [("source_file", Path_name path)]) with ["source_file"] in K. split.
  - intros Hne.
    destruct (Nat.ltb_spec 1 (List.length record)) as [Hlt|]; [|now contradiction Hne].
    destruct (Forall_Exists_dec (fun x => x = "source_file")
                (fun x => string_dec x "source_file") (element_keys [] e)) as [Hall|Hex].
    + rewrite (fold_set_add_only _ _ Hall) in K.
      apply (f_equal (@List.length string)) in K. unfold keys in K.
      rewrite length_map in K. cbn [List.length] in K. lia.
    + apply Exists_exists in Hex. exact Hex.
  - intros [k [Hk Hne]].
    assert (L : (2 <= List.length (keys record))%nat).
    { apply (two_distinct_members "source_file" k).
      - rewrite K. apply fold_set_add_In. left. now left.
      - rewrite K. apply fold_set_add_In. now right.
      - congruence. }
    unfold keys in L. rewrite length_map in L.
    destruct (Nat.ltb_spec 1 (List.length record)) as [_|]; [|lia].
    destruct record; [cbn [List.length] in L; lia | discriminate].
Qed.

(** For an element nested no deeper than the frames that are left allow,
    [_element_to_record] returns, and it keeps the record exactly when
    flattening produced a key other than [source_file]; an element without
    attributes and without text that is not blank in its subtree (blank in
    the sense of Python's [strip]), or one whose only key is [source_file]
    itself, is reported as empty. *)
Theorem element_to_record_kept_iff :
  forall n element path self,
    (depth element + 2 <= n)%nat ->
    exists record self',
      _element_to_record_in n element path self = Ok record self'
      /\ (record <> []
          <-> exists k, In k (element_keys [] element) /\ k <> "source_file").
Proof.
  intros n e path s Hn.
  destruct (element_to_record_in_fits n e path s Hn) as [record [s' E]].
  exists record, s'. split; [exact E|].
  pose proof (element_to_record_kept e path s) as H.
  now rewrite (element_to_record_in_unbounded _ _ _ _ _ _ E) in H.
Qed.

Lemma element_to_record_kept_iff_witness :
  (depth (Elem "Stop" [] (Some (String "194" (String "160" EmptyString))) []) + 2
   <= 995)%nat
  /\ exists record self',
       _element_to_record_in 995
         (Elem "Stop" [] (Some (String "194" (String "160" EmptyString))) [])
         "data/stops.xml" (init python "data") = Ok record self'
       /\ (record <> []
           <-> exists k,
                 In k (element_keys []
                         (Elem "Stop" [] (Some (String "194" (String "160" EmptyString))) []))
                 /\ k <> "source_file").
Proof.
  assert (Hn : (depth (Elem "Stop" [] (Some (String "194" (String "160" EmptyString))) [])
                + 2 <= 995)%nat) by (vm_compute; repeat constructor).
  split; [exact Hn|].
  exact (element_to_record_kept_iff 995 _ "data/stops.xml" (init python "data") Hn).
Defined.

(** Every key of every row that the fallback emits from the root contains
    a dot (it is [<tag>.@<attr>] or [<tag>.value]); in particular the
    fallback never writes [source_file] itself. *)
Theorem fallback_keys_dotted :
  forall element parent_path self,
    Forall (fun row =>
              Forall (fun k => PyStr.contains_char "."%char k = true) (keys row)
              /\ inb "source_file" (keys row) = false)
           (fst (_flatten_nested_records element parent_path [] self)).
Proof.
  intros e pp s.
  refine (proj1 (fallback_inv
                   (fun st => Forall (fun k => PyStr.contains_char "."%char k = true)
                                     (keys (fst st))
                              /\ inb "source_file" (keys (fst st)) = false)
                   _ _ e pp [] s _)).
  - intros r s0 k v Hk [H1 H2]. cbn [fst] in *. split.
    + rewrite keys_dict_set. apply Forall_forall. intros x Hx.
      apply set_add_inv in Hx. destruct Hx as [->|Hx]; [exact Hk|].
      rewrite Forall_forall in H1. now apply H1.
    + now apply no_source_file_set.
  - auto.
  - split; [constructor | reflexivity].
Qed.
